(** * Loan application and transaction fraud dashboard (app1.py)

    A shallow embedding of the dashboard script: the pandas values it
    works on (float64 scalars, object cells, data frames), the
    derivations and aggregations of its three pages, and the script
    itself as a program over a store of data-frame objects.

    Numbers: a finite float64 is modelled by the rational it denotes; the
    special values [NaN], [+inf] and [-inf] are kept, with the IEEE rules
    for comparison and division that pandas and numpy follow.  The
    operations on scalars and on counts ([add64], [mul64], [div64]) round
    their result to the nearest binary64 number, as Python and numpy do.
    The sum of a float column, whose order of additions is numpy's, and
    the shares of a column in such a sum ([fadd], [fmul], [fdiv]) are
    computed without rounding: what is proved of them holds of the script
    up to the rounding of binary64.  The sign of zero is not modelled. *)

From Stdlib Require Import ZArith QArith Qround Qabs Qpower Lqa Ascii.
From stdpp Require Import base list gmap strings pretty.

(** ** float64 scalars *)

Inductive float64 :=
  | Fin (q : Q)
  | PInf
  | NInf
  | NaN.

#[export] Instance Q_eq_dec : EqDecision Q.
Proof. solve_decision. Defined.

#[export] Instance float64_eq_dec : EqDecision float64.
Proof. solve_decision. Defined.

Definition Qltb (a b : Q) : bool := negb (Qle_bool b a).

(** [a < b] and [a <= b]: every comparison with NaN is false. *)
Definition flt (a b : float64) : bool :=
  match a, b with
  | NaN, _ | _, NaN => false
  | Fin x, Fin y => Qltb x y
  | NInf, NInf => false
  | NInf, _ => true
  | _, NInf => false
  | PInf, _ => false
  | Fin _, PInf => true
  end.

Definition fle (a b : float64) : bool :=
  match a, b with
  | NaN, _ | _, NaN => false
  | Fin x, Fin y => Qle_bool x y
  | NInf, _ => true
  | _, NInf => false
  | _, PInf => true
  | PInf, Fin _ => false
  end.

Definition of_Z (z : Z) : float64 := Fin (inject_Z z).

Definition of_nat (n : nat) : float64 := of_Z (Z.of_nat n).

(** [a == b] on floats: NaN equals nothing, itself included. *)
Definition feqb (a b : float64) : bool :=
  match a, b with
  | Fin x, Fin y => Qeq_bool x y
  | PInf, PInf | NInf, NInf => true
  | _, _ => false
  end.

Definition is_nan (a : float64) : bool :=
  match a with NaN => true | _ => false end.

(** Sign of a rational as an infinity: the result of [±inf * q] and of
    [q / 0] for [q] not zero. *)
Definition inf_of_sign (q : Q) : float64 :=
  if Qltb 0 q then PInf else NInf.

Definition fneg (a : float64) : float64 :=
  match a with
  | Fin x => Fin (Qred (- x))
  | PInf => NInf
  | NInf => PInf
  | NaN => NaN
  end.

(** *** Arithmetic without rounding

    Finite results are kept in lowest terms, so that equal numbers are
    equal terms whenever they are computed from concrete inputs. *)
Definition fadd (a b : float64) : float64 :=
  match a, b with
  | NaN, _ | _, NaN => NaN
  | Fin x, Fin y => Fin (Qred (x + y))
  | PInf, NInf | NInf, PInf => NaN
  | PInf, _ | _, PInf => PInf
  | NInf, _ | _, NInf => NInf
  end.

Definition fmul (a b : float64) : float64 :=
  match a, b with
  | NaN, _ | _, NaN => NaN
  | Fin x, Fin y => Fin (Qred (x * y))
  | PInf, Fin y | Fin y, PInf =>
      if Qeq_bool y 0 then NaN else inf_of_sign y
  | NInf, Fin y | Fin y, NInf =>
      if Qeq_bool y 0 then NaN else fneg (inf_of_sign y)
  | PInf, PInf | NInf, NInf => PInf
  | PInf, NInf | NInf, PInf => NaN
  end.

(** numpy division, as pandas applies it to columns: a zero divisor gives
    NaN for 0/0 and an infinity otherwise, and raises nothing. *)
Definition fdiv (a b : float64) : float64 :=
  match a, b with
  | NaN, _ | _, NaN => NaN
  | Fin x, Fin y =>
      if Qeq_bool y 0
      then (if Qeq_bool x 0 then NaN else inf_of_sign x)
      else Fin (Qred (x / y))
  | Fin _, (PInf | NInf) => Fin 0
  | PInf, Fin y => if Qltb y 0 then NInf else PInf
  | NInf, Fin y => if Qltb y 0 then PInf else NInf
  | (PInf | NInf), (PInf | NInf) => NaN
  end.

(** numpy sum of an array. *)
Definition fsum (l : list float64) : float64 := foldr fadd (Fin 0) l.

(** *** Rounding to binary64 *)

(** Round to the nearest integer, ties to even. *)
Definition round_half_even (q : Q) : Z :=
  let f := Qfloor q in
  let r := (q - inject_Z f)%Q in
  if Qltb r (1 # 2) then f
  else if Qltb (1 # 2) r then (f + 1)%Z
  else if Z.even f then f else (f + 1)%Z.

(** [2 ^ e] *)
Definition pow2 (e : Z) : Q := (2 ^ e)%Q.

(** The binade of a positive rational: the [e] with
    [2 ^ e <= q < 2 ^ (e + 1)]. *)
Definition floor_log2 (q : Q) : Z :=
  let e := (Z.log2 (Qnum q) - Z.log2 (Zpos (Qden q)))%Z in
  if Qle_bool (pow2 e) q then e else (e - 1)%Z.

(** The exponent of the unit in the last place at [q]: 53 significant
    bits, and never below the spacing of the subnormal numbers. *)
Definition ulp_exponent (q : Q) : Z := Z.max (floor_log2 q - 52) (-1074).

(** A positive rational rounded to the nearest multiple of its unit in
    the last place, ties to the even multiple. *)
Definition round_pos (q : Q) : Q :=
  let u := pow2 (ulp_exponent q) in
  (inject_Z (round_half_even (q / u)) * u)%Q.

Definition round64 (q : Q) : Q :=
  if Qltb 0 q then round_pos q
  else if Qltb q 0 then (- round_pos (- q))%Q
  else 0%Q.

(** The binary64 number nearest to [q]; what rounds to [2 ^ 1024] or
    beyond overflows to an infinity. *)
Definition binary64 (q : Q) : float64 :=
  let r := round64 q in
  if Qle_bool (pow2 1024) r then PInf
  else if Qle_bool r (- pow2 1024) then NInf
  else Fin (Qred r).

(** An operation of IEEE 754 gives its exact result, rounded. *)
Definition rounded (r : float64) : float64 :=
  match r with Fin x => binary64 x | _ => r end.

(** [a + b], [a * b] and [a / b] on Python floats and on numpy float64
    scalars and cells. *)
Definition add64 (a b : float64) : float64 := rounded (fadd a b).
Definition mul64 (a b : float64) : float64 := rounded (fmul a b).
Definition div64 (a b : float64) : float64 := rounded (fdiv a b).
(** ** Cells, rows and data frames *)

(** A cell holds text, a number (a missing cell is the number NaN) or a
    timestamp, counted in nanoseconds since the epoch. *)
Inductive value :=
  | VStr (s : string)
  | VNum (x : float64)
  | VTime (t : Z).

#[export] Instance value_eq_dec : EqDecision value.
Proof. solve_decision. Defined.

Definition isna (v : value) : bool :=
  match v with VNum NaN => true | _ => false end.

(** [a == b] on cells. *)
Definition value_eqb (a b : value) : bool :=
  match a, b with
  | VStr s, VStr t => String.eqb s t
  | VNum x, VNum y => feqb x y
  | VTime s, VTime t => (s =? t)%Z
  | _, _ => false
  end.

(** Equality of cells as keys of pandas' hash tables ([isin], [unique],
    [value_counts], group keys): as [==], but a missing cell equals a
    missing cell. *)
Definition same_value (a b : value) : bool :=
  (isna a && isna b) || value_eqb a b.

(** Order of cells used to sort group keys.  pandas compares cells of one
    type; across types the order below is a convention of the model. *)
Definition value_ltb (a b : value) : bool :=
  match a, b with
  | VNum x, VNum y => flt x y
  | VNum _, _ => true
  | VTime _, VNum _ => false
  | VTime s, VTime t => (s <? t)%Z
  | VTime _, VStr _ => true
  | VStr s, VStr t => String.ltb s t
  | VStr _, _ => false
  end.

Definition to_float (v : value) : float64 :=
  match v with VNum x => x | _ => NaN end.

(** A data frame: the column labels in order, and the rows in order, each
    row mapping a column label to its cell. *)
Record DataFrame := mkDataFrame {
  columns : list string;
  rows : list (gmap string value)
}.

Definition cell (c : string) (r : gmap string value) : value :=
  default (VNum NaN) (r !! c).

Definition len (df : DataFrame) : nat := length (rows df).

(** ** Exceptions *)

Inductive exn :=
  | KeyError (key : string)
  | ZeroDivisionError
  | ValueError (msg : string).

Inductive result (A : Type) :=
  | Ok (a : A)
  | Raise (e : exn).
Arguments Ok {A} a.
Arguments Raise {A} e.

#[export] Instance result_ret : MRet result := λ A a, Ok a.
#[export] Instance result_bind : MBind result := λ A B f m,
  match m with Ok a => f a | Raise e => Raise e end.

(** ** Column access *)

(** [df[c]]: the cells of column [c], or KeyError. *)
Definition getitem (df : DataFrame) (c : string) : result (list value) :=
  if bool_decide (c ∈ columns df) then Ok (cell c <$> rows df)
  else Raise (KeyError c).

(** [df[c] = s], for a column [s] computed from [df] itself (so of its
    length and on its index): replaces column [c] or appends it. *)
Definition setitem (df : DataFrame) (c : string) (s : list value) : DataFrame :=
  {| columns := if bool_decide (c ∈ columns df) then columns df
                else columns df ++ [c];
     rows := zip_with (λ r v, <[c := v]> r) (rows df) s |}.

Fixpoint select {A} (l : list A) (mask : list bool) : list A :=
  match l, mask with
  | x :: l', b :: mask' => if b then x :: select l' mask' else select l' mask'
  | _, _ => []
  end.

(** [df[mask]] for a boolean column [mask] computed from [df]: a new frame
    with the rows where the mask holds. *)
Definition getitem_mask (df : DataFrame) (mask : list bool) : DataFrame :=
  {| columns := columns df; rows := select (rows df) mask |}.

(** [s.isin(vals)] *)
Definition isin (s : list value) (vals : list value) : list bool :=
  (λ v, existsb (same_value v) vals) <$> s.

(** [s == v] *)
Definition eq_scalar (s : list value) (v : value) : list bool :=
  (λ x, value_eqb x v) <$> s.

(** [s >= t] and [s <= t] for a timestamp column and a timestamp [t];
    a missing timestamp compares false. *)
Definition ge_time (s : list value) (t : Z) : list bool :=
  (λ x, match x with VTime u => (t <=? u)%Z | _ => false end) <$> s.
Definition le_time (s : list value) (t : Z) : list bool :=
  (λ x, match x with VTime u => (u <=? t)%Z | _ => false end) <$> s.

(** [m1 & m2] *)
Definition mask_and (m1 m2 : list bool) : list bool := zip_with andb m1 m2.

(** ** Reductions of a column *)

Definition dropna (s : list value) : list value :=
  filter (λ v, isna v = false) s.

(** [s.sum()]: missing cells are skipped.  (The sum is exact here; numpy
    adds in binary64, in an order of its own.) *)
Definition series_sum (s : list value) : float64 :=
  fsum (to_float <$> dropna s).

(** [s.mean()]: missing cells are skipped; NaN when nothing is left. *)
Definition series_mean (s : list value) : float64 :=
  match dropna s with
  | [] => NaN
  | xs => fdiv (fsum (to_float <$> xs)) (of_nat (length xs))
  end.

(** [mask.mean()] of a boolean column: the fraction of true cells. *)
Definition mask_mean (m : list bool) : float64 :=
  match m with
  | [] => NaN
  | _ => div64 (of_nat (length (filter (λ b, b = true) m))) (of_nat (length m))
  end.

(** [s.unique()]: the distinct cells in order of first appearance. *)
Fixpoint unique (s : list value) : list value :=
  match s with
  | [] => []
  | v :: s' => v :: filter (λ w, same_value v w = false) (unique s')
  end.

Definition count_of (v : value) (s : list value) : nat :=
  length (filter (λ w, same_value v w = true) s).

(** [s.nunique()]: the number of distinct cells, missing ones not counted. *)
Definition nunique (s : list value) : nat := length (unique (dropna s)).

(** ** Frequencies: value_counts *)

(** A sort by descending count (insertion from the right).  pandas sorts
    the counts by [sort_values(ascending=False)], whose order among
    equal counts is that of its sorting algorithm and not fixed by the
    script: the order that this sort gives to equal counts is one of the
    possible outcomes, and what is proved of a ranking below does not
    depend on it. *)
Fixpoint insert_desc {A} (x : A * nat) (l : list (A * nat)) : list (A * nat) :=
  match l with
  | [] => [x]
  | y :: l' => if x.2 <? y.2 then y :: insert_desc x l' else x :: y :: l'
  end.

Definition sort_desc {A} (l : list (A * nat)) : list (A * nat) :=
  foldr insert_desc [] l.

(** The distinct present cells in order of first appearance, each with
    the number of its occurrences. *)
Definition tally (s : list value) : list (value * nat) :=
  (λ k, (k, count_of k (dropna s))) <$> unique (dropna s).

(** [s.value_counts()] *)
Definition value_counts (s : list value) : list (value * nat) :=
  sort_desc (tally s).

(** [s.value_counts(normalize=True)]: each count divided by the sum of
    the counts. *)
Definition value_counts_normalize (s : list value) : list (value * float64) :=
  let vc := value_counts s in
  let total := of_nat (sum_list (vc.*2)) in
  (λ p, (p.1, div64 (of_nat p.2) total)) <$> vc.

(** [vc.idxmax()]: the label of the first largest entry; ValueError on an
    empty column. *)
Fixpoint argmax {A} (best : A * nat) (l : list (A * nat)) : A :=
  match l with
  | [] => best.1
  | y :: l' => argmax (if best.2 <? y.2 then y else best) l'
  end.

Definition idxmax {A} (vc : list (A * nat)) : result A :=
  match vc with
  | [] => Raise (ValueError "attempt to get argmax of an empty sequence")
  | x :: l => Ok (argmax x l)
  end.

(** [value_counts()] of a categorical column: every category is listed,
    those that do not occur with count 0. *)
Definition value_counts_categorical (cats : list string) (s : list value)
  : list (value * nat) :=
  sort_desc ((λ c, (VStr c, count_of (VStr c) (dropna s))) <$> cats).

(** [vc.reindex(labels)]: the entries of [vc] for [labels], in that order;
    a label without entry gets NaN. *)
Definition reindex (vc : list (value * nat)) (labels : list string)
  : list (value * value) :=
  (λ l, (VStr l,
         match list_find (λ p, same_value p.1 (VStr l) = true) vc with
         | Some (_, (_, n)) => VNum (of_nat n)
         | None => VNum NaN
         end)) <$> labels.

(** [vc.reset_index()] with the resulting columns named [idx] and [val]. *)
Definition reset_index (idx val : string) (vc : list (value * value)) : DataFrame :=
  {| columns := [idx; val];
     rows := (λ p, <[val := p.2]> {[idx := p.1]}) <$> vc |}.

(** ** pd.cut *)

(** [bins.searchsorted(x, side='left')] on increasing [bins]: the number
    of edges strictly below [x]. *)
Definition searchsorted_left (bins : list float64) (x : float64) : nat :=
  length (filter (λ b, flt b x = true) bins).

(** [pd.cut(x, bins, labels)] with the defaults [right=True] and
    [include_lowest=False]: bin [i] is [(bins[i-1], bins[i]]]; a value at
    or below the first edge, above the last edge, or missing gets no
    label. *)
Definition cut1 (bins : list float64) (labels : list string) (v : value) : value :=
  let i := searchsorted_left bins (to_float v) in
  if is_nan (to_float v) || (i =? 0) || (i =? length bins) then VNum NaN
  else match labels !! (i - 1) with
       | Some l => VStr l
       | None => VNum NaN
       end.

Definition cut (s : list value) (bins : list float64) (labels : list string)
  : list value := cut1 bins labels <$> s.

(** ** Grouping *)

Definition key_of (ks : list string) (r : gmap string value) : list value :=
  (λ k, cell k r) <$> ks.

Fixpoint same_key (a b : list value) : bool :=
  match a, b with
  | [], [] => true
  | x :: a', y :: b' => same_value x y && same_key a' b'
  | _, _ => false
  end.

Fixpoint key_ltb (a b : list value) : bool :=
  match a, b with
  | [], _ :: _ => true
  | x :: a', y :: b' =>
      value_ltb x y || (same_value x y && key_ltb a' b')
  | _, _ => false
  end.

(** A row belongs to a group only if none of its key cells is missing
    ([dropna=True]). *)
Definition key_present (k : list value) : bool :=
  forallb (λ v, negb (isna v)) k.

Fixpoint unique_keys (l : list (list value)) : list (list value) :=
  match l with
  | [] => []
  | k :: l' => k :: filter (λ k', same_key k k' = false) (unique_keys l')
  end.

Fixpoint insert_key (k : list value) (l : list (list value)) : list (list value) :=
  match l with
  | [] => [k]
  | k' :: l' => if key_ltb k' k then k' :: insert_key k l' else k :: k' :: l'
  end.

(** The group keys of [rs], sorted ([sort=True]). *)
Definition group_keys (ks : list string) (rs : list (gmap string value))
  : list (list value) :=
  foldr insert_key [] (unique_keys (filter (λ k, key_present k = true) (key_of ks <$> rs))).

Definition group_rows (ks : list string) (k : list value)
    (rs : list (gmap string value)) : list (gmap string value) :=
  filter (λ r, same_key (key_of ks r) k = true) rs.

Fixpoint missing_column (df : DataFrame) (cs : list string) : option string :=
  match cs with
  | [] => None
  | c :: cs' => if bool_decide (c ∈ columns df) then missing_column df cs' else Some c
  end.

Definition require (df : DataFrame) (cs : list string) : result unit :=
  match missing_column df cs with
  | Some c => Raise (KeyError c)
  | None => Ok ()
  end.

(** One row per group: the key cells under the key labels, and the
    reduced value of the group under [name]. *)
Definition aggregate (df : DataFrame) (ks : list string) (name : string)
    (f : list (gmap string value) → value) : DataFrame :=
  {| columns := ks ++ [name];
     rows := (λ k, <[name := f (group_rows ks k (rows df))]>
                     (list_to_map (zip ks k)))
             <$> group_keys ks (rows df) |}.

(** [df.groupby(ks).size().reset_index(name=name)] *)
Definition groupby_size (df : DataFrame) (ks : list string) (name : string)
  : result DataFrame :=
  _ ← require df ks;
  Ok (aggregate df ks name (λ g, VNum (of_nat (length g)))).

(** [df.groupby(ks)[c].sum().reset_index()] *)
Definition groupby_sum (df : DataFrame) (ks : list string) (c : string)
  : result DataFrame :=
  _ ← require df (ks ++ [c]);
  Ok (aggregate df ks c (λ g, VNum (series_sum (cell c <$> g)))).

(** [df.groupby(ks)[c].nunique().reset_index(name=name)] *)
Definition groupby_nunique (df : DataFrame) (ks : list string) (c name : string)
  : result DataFrame :=
  _ ← require df (ks ++ [c]);
  Ok (aggregate df ks name (λ g, VNum (of_nat (nunique (cell c <$> g))))).

(** The cells of [vals] on the rows whose key cell is [k]. *)
Definition group_values (keys vals : list value) (k : value) : list value :=
  (filter (λ p, same_value k p.1 = true) (zip keys vals)).*2.

(** [df.groupby(k)[c].transform(f)], given the two columns: [f] is applied
    to the cells of each group, and each row receives the entry of its
    group's result at the row's rank within the group.  Rows with a
    missing key form no group and receive NaN. *)
Definition transform (keys vals : list value)
    (f : list float64 → list float64) : list value :=
  imap (λ i k,
          if isna k then VNum NaN
          else VNum (default NaN
                 (f (to_float <$> group_values keys vals k)
                    !! count_of k (take i keys))))
       keys.

Definition groupby_transform (df : DataFrame) (k c : string)
    (f : list float64 → list float64) : result (list value) :=
  keys ← getitem df k;
  vals ← getitem df c;
  Ok (transform keys vals f).

(** [x.sum()] inside a transform: missing entries are skipped.  (The sum
    and the shares below are computed without rounding.) *)
Definition nansum (x : list float64) : float64 :=
  fsum (filter (λ v, is_nan v = false) x).

(** [lambda x: x / x.sum() * 100] *)
Definition pct_of_group (x : list float64) : list float64 :=
  (λ v, fmul (fdiv v (nansum x)) (of_Z 100)) <$> x.

(** [s / d * 100] for a column [s] and a numpy scalar [d], without
    rounding. *)
Definition pct_of_total (s : list value) (d : float64) : list value :=
  (λ v, VNum (fmul (fdiv (to_float v) d) (of_Z 100))) <$> s.

(** ** Text *)

(** [s.split(sep)] for a one-character separator. *)
Fixpoint split (sep : ascii) (s : string) : list string :=
  match s with
  | EmptyString => [EmptyString]
  | String c s' =>
      if Ascii.eqb c sep then EmptyString :: split sep s'
      else match split sep s' with
           | h :: t => String c h :: t
           | [] => [String c EmptyString]
           end
  end.

(** White space as [str.strip] takes it ([str.isspace]).  A text is held
    as its UTF-8 bytes.  The white space of one byte: the characters 9
    to 13 (tab to carriage return), 28 to 31 (the separators) and 32
    (space). *)
Definition is_space (c : ascii) : bool :=
  let n := nat_of_ascii c in
  (n =? 32) || ((9 <=? n) && (n <=? 13)) || ((28 <=? n) && (n <=? 31)).

(** Of two bytes: U+0085 and U+00A0. *)
Definition is_space2 (c d : ascii) : bool :=
  (nat_of_ascii c =? 194)
  && ((nat_of_ascii d =? 133) || (nat_of_ascii d =? 160)).

(** Of three bytes: U+1680, U+2000 to U+200A, U+2028, U+2029, U+202F,
    U+205F and U+3000. *)
Definition is_space3 (c d e : ascii) : bool :=
  let a := nat_of_ascii c in
  let b := nat_of_ascii d in
  let k := nat_of_ascii e in
  ((a =? 225) && (b =? 154) && (k =? 128))
  || ((a =? 226) && (b =? 128)
      && (((128 <=? k) && (k <=? 138)) || (k =? 168) || (k =? 169) || (k =? 175)))
  || ((a =? 226) && (b =? 129) && (k =? 159))
  || ((a =? 227) && (b =? 128) && (k =? 128)).

(** The number of bytes of the white space character at the head of
    [s], and 0 when [s] begins with none.  With [backwards] set, [s] is
    a text in reverse and its head the last character of the text. *)
Definition space_width (backwards : bool) (s : string) : nat :=
  match s with
  | String c (String d (String e _)) =>
      if is_space c then 1
      else if (if backwards then is_space2 d c else is_space2 c d) then 2
      else if (if backwards then is_space3 e d c else is_space3 c d e) then 3
      else 0
  | String c (String d EmptyString) =>
      if is_space c then 1
      else if (if backwards then is_space2 d c else is_space2 c d) then 2
      else 0
  | String c EmptyString => if is_space c then 1 else 0
  | EmptyString => 0
  end.

(** The white space characters at the head of [s] removed. *)
Fixpoint lstrip_from (backwards : bool) (s : string) : string :=
  match s with
  | String c s1 =>
      match space_width backwards s, s1 with
      | 1, _ => lstrip_from backwards s1
      | 2, String _ s2 => lstrip_from backwards s2
      | 3, String _ (String _ s3) => lstrip_from backwards s3
      | _, _ => s
      end
  | EmptyString => EmptyString
  end.

(** [s.lstrip()] *)
Definition lstrip (s : string) : string := lstrip_from false s.

(** [s.strip()] *)
Definition strip (s : string) : string :=
  String.rev (lstrip_from true (String.rev (lstrip s))).

(** [s.astype(str)] on a text column: text stays, a missing cell becomes
    the text "nan".  (The printing of other numbers is not modelled; the
    script applies it to a text column.) *)
Definition astype_str (v : value) : value :=
  match v with
  | VStr s => VStr s
  | VNum NaN => VStr "nan"
  | v => v
  end.

(** The [.str] accessor: the method is applied to text cells; any other
    cell becomes missing. *)
Definition str_map (f : string → string) (v : value) : value :=
  match v with VStr s => VStr (f s) | _ => VNum NaN end.

(** [.str.split(",").str[-1].str.strip()] on one text. *)
Definition state_of_location (s : string) : string :=
  strip (default EmptyString (last (split "," s))).

(** ** Number formatting *)

Fixpoint pad_left (n : nat) (s : string) : string :=
  match n with
  | 0 => s
  | S n' => if String.length s <? S n' then String.append "0" (pad_left n' s)
            else s
  end.

(** Digits in groups of three, separated by commas. *)
Fixpoint group_thousands (fuel : nat) (n : Z) : string :=
  match fuel with
  | 0 => pretty n
  | S fuel' =>
      if (n <? 1000)%Z then pretty n
      else String.append (group_thousands fuel' (n / 1000))
             (String.append "," (pad_left 3 (pretty (n mod 1000)%Z)))
  end.

(** [f"{x:.<prec>f}"], and [f"{x:,.<prec>f}"] when [commas] is set. *)
Definition format_f (commas : bool) (prec : nat) (x : float64) : string :=
  match x with
  | NaN => "nan"
  | PInf => "inf"
  | NInf => "-inf"
  | Fin q =>
      let scale := (10 ^ Z.of_nat prec)%Z in
      let n := round_half_even (Qabs q * inject_Z scale) in
      let ip := (n / scale)%Z in
      let int_part :=
        if commas then group_thousands (Z.to_nat (Z.log2 ip)) ip else pretty ip in
      let sign := if Qltb q 0 then "-" else "" in
      String.append sign
        (String.append int_part
           (match prec with
            | 0 => ""
            | _ => String.append "." (pad_left prec (pretty (n mod scale)%Z))
            end))
  end.

(** ** Fraud page: debt-to-income risk category (app1.py, dti_category) *)

Definition dti_category (x : float64) : string :=
  if flt x (of_Z 20) then "Excellent (<20)"
  else if fle (of_Z 20) x && fle x (of_Z 35) then "Good (20–35)"
  else if fle (of_Z 36) x && fle x (of_Z 40) then "Fair (36–40)"
  else if flt (of_Z 40) x && fle x (of_Z 100) then "High Risk (40–50)"
  else "Out of Range".

(** ** The store of data-frame objects and the output of a run *)

(** What a run shows: an error box, the options offered by a sidebar
    filter, a metric with its formatted text, a chart with its title and
    its data.  Titles, rules and layout are not modelled. *)
Inductive event :=
  | StError (msg : string)
  | StMultiselect (label : string) (options : list value)
  | StMetric (label text : string)
  | StChart (title : string) (data : DataFrame).

(** A script variable holds a reference (an index into [heap]) to a
    data-frame object; objects are created by [alloc] and never freed. *)
Record world := mkWorld {
  heap : list DataFrame;
  output : list event
}.

(** A run step: it returns a value or raises, and leaves a world either
    way. *)
Definition Py (A : Type) : Type := world → result A * world.

#[export] Instance Py_ret : MRet Py := λ A a w, (Ok a, w).
#[export] Instance Py_bind : MBind Py := λ A B f m w,
  match m w with
  | (Ok a, w') => f a w'
  | (Raise e, w') => (Raise e, w')
  end.

Definition lift {A} (r : result A) : Py A := λ w, (r, w).

Definition alloc (d : DataFrame) : Py nat := λ w,
  (Ok (length (heap w)), mkWorld (heap w ++ [d]) (output w)).

(** Reading through a reference.  Every reference of the script comes
    from [alloc], so the failure case is never taken. *)
Definition deref (l : nat) : Py DataFrame := λ w,
  match heap w !! l with
  | Some d => (Ok d, w)
  | None => (Raise (ValueError "dangling reference"), w)
  end.

Definition store (l : nat) (d : DataFrame) : Py unit := λ w,
  (Ok (), mkWorld (<[l := d]> (heap w)) (output w)).

Definition emit (e : event) : Py unit := λ w,
  (Ok (), mkWorld (heap w) (output w ++ [e])).

(** [df.copy()]: a new object with the same content. *)
Definition df_copy (l : nat) : Py nat := d ← deref l; alloc d.

(** [df[c]] *)
Definition df_getitem (l : nat) (c : string) : Py (list value) :=
  d ← deref l; lift (getitem d c).

(** [df[mask]]: a new object. *)
Definition df_getitem_mask (l : nat) (mask : list bool) : Py nat :=
  d ← deref l; alloc (getitem_mask d mask).

(** [df[c] = s]: the object itself is changed. *)
Definition df_setitem (l : nat) (c : string) (s : list value) : Py unit :=
  d ← deref l; store l (setitem d c s).

(** ** The script: load, sidebar, filters *)

(** What the user has chosen when the script runs: the page, the values
    ticked in each sidebar filter, and the two ends of the date range as
    timestamps ([pd.to_datetime(date_range[i])]). *)
Record inputs := mkInputs {
  page : string;
  loan_type_filter : list value;
  employment_filter : list value;
  gender_filter : list value;
  device_filter : list value;
  state_filter : list value;
  date_range : Z * Z
}.

(** "Create State column safely": the State of each transaction, when the
    location column exists; an error box otherwise. *)
Definition state_extraction (txn_df : nat) : Py unit :=
  d ← deref txn_df;
  if bool_decide ("transaction_location" ∈ columns d) then
    loc ← df_getitem txn_df "transaction_location";
    df_setitem txn_df "State"
      (str_map state_of_location <$> (astype_str <$> loc))
  else
    emit (StError "transaction_location column not found in transactions.csv").

(** [st.sidebar.multiselect(label, df[c].unique())] *)
Definition multiselect (label : string) (df : nat) (c : string) : Py unit :=
  s ← df_getitem df c;
  emit (StMultiselect label (unique s)).

(** The sidebar: five filters and the date range, whose default ends are
    the least and the greatest application date. *)
Definition sidebar (loan_df txn_df : nat) : Py unit :=
  _ ← multiselect "Loan Type" loan_df "loan_type";
  _ ← multiselect "Employment Status" loan_df "employment_status";
  _ ← multiselect "Gender" loan_df "gender";
  _ ← multiselect "Device" txn_df "device_used";
  _ ← multiselect "State" txn_df "State";
  _ ← df_getitem loan_df "application_date";
  mret ().

(** [if sel: df = df[df[c].isin(sel)]] *)
Definition filter_isin (df : nat) (c : string) (sel : list value) : Py nat :=
  match sel with
  | [] => mret df
  | _ => s ← df_getitem df c; df_getitem_mask df (isin s sel)
  end.

(** "APPLY FILTERS": the two filtered views, as references to new
    objects. *)
Definition apply_filters (i : inputs) (loan_df txn_df : nat) : Py (nat * nat) :=
  filtered_loans ← df_copy loan_df;
  filtered_txns ← df_copy txn_df;
  filtered_loans ← filter_isin filtered_loans "loan_type" (loan_type_filter i);
  filtered_loans ← filter_isin filtered_loans "employment_status" (employment_filter i);
  filtered_loans ← filter_isin filtered_loans "gender" (gender_filter i);
  filtered_txns ← filter_isin filtered_txns "device_used" (device_filter i);
  filtered_txns ← filter_isin filtered_txns "State" (state_filter i);
  let '(start_date, end_date) := date_range i in
  d1 ← df_getitem filtered_loans "application_date";
  d2 ← df_getitem filtered_loans "application_date";
  filtered_loans ← df_getitem_mask filtered_loans
                     (mask_and (ge_time d1 start_date) (le_time d2 end_date));
  mret (filtered_loans, filtered_txns).

(** ** Python scalars *)

(** [a / b] on Python integers: ZeroDivisionError on a zero divisor. *)
Definition py_div (a b : nat) : result float64 :=
  match b with
  | 0 => Raise ZeroDivisionError
  | _ => Ok (div64 (of_nat a) (of_nat b))
  end.

(** ** Page "Executive Loan Portfolio" *)

Definition age_bins : list float64 := of_Z <$> [0; 25; 35; 45; 55; 100]%Z.
Definition age_labels : list string := ["18-25"; "26-35"; "36-45"; "46-55"; "56+"].

(** [(loan_status == 'Approved').mean() * 100 if total_apps > 0 else 0] *)
Definition approval_rate (filtered_loans : DataFrame) : result float64 :=
  if 0 <? len filtered_loans then
    st ← getitem filtered_loans "loan_status";
    Ok (mul64 (mask_mean (eq_scalar st (VStr "Approved"))) (of_Z 100))
  else Ok (Fin 0).

(** Demand by loan type: the requested amount per loan type and status,
    as a percentage of the grand total. *)
Definition demand_grouped (filtered_loans : DataFrame) (grand_total_amount : float64)
  : result DataFrame :=
  g ← groupby_sum filtered_loans ["loan_type"; "loan_status"] "loan_amount_requested";
  a ← getitem g "loan_amount_requested";
  Ok (setitem g "pct_of_total" (pct_of_total a grand_total_amount)).

(** The age column bucketed: [pd.cut(applicant_age, age_bins, age_labels)]. *)
Definition age_group (applicant_age : list value) : list value :=
  cut applicant_age age_bins age_labels.

(** Applicants per age group, and their percentage of all applicants:
    [value_counts().reindex(age_labels).reset_index()], then
    [pct = count / total_apps * 100 if total_apps > 0 else 0]. *)
Definition age_df (age_group : list value) (total_apps : nat) : result DataFrame :=
  let df := reset_index "age_group" "count"
              (reindex (value_counts_categorical age_labels age_group) age_labels) in
  count ← getitem df "count";
  Ok (setitem df "pct"
        (if 0 <? total_apps then pct_of_total count (of_nat total_apps)
         else (λ _, VNum (Fin 0)) <$> count)).

(** [s.value_counts().reset_index()] *)
Definition value_counts_frame (name : string) (s : list value) : DataFrame :=
  reset_index name "count" ((λ p, (p.1, VNum (of_nat p.2))) <$> value_counts s).

Definition executive_page (filtered_loans : nat) : Py unit :=
  fl ← deref filtered_loans;
  let total_apps := len fl in
  amount ← df_getitem filtered_loans "loan_amount_requested";
  let grand_total_amount := series_sum amount in
  cibil ← df_getitem filtered_loans "cibil_score";
  let avg_cibil := series_mean cibil in
  rate ← lift (approval_rate fl);
  income ← df_getitem filtered_loans "monthly_income";
  let avg_income := series_mean income in
  _ ← emit (StMetric "Total Applications" (format_f true 0 (of_nat total_apps)));
  _ ← emit (StMetric "Total Requested"
              (String.append "₹" (String.append
                 (format_f false 2 (div64 grand_total_amount (of_Z 10000000))) " Cr")));
  _ ← emit (StMetric "Avg CIBIL Score" (format_f false 0 avg_cibil));
  _ ← emit (StMetric "Approval Rate" (String.append (format_f false 1 rate) "%"));
  _ ← emit (StMetric "Avg Monthly Income" (String.append "₹" (format_f true 0 avg_income)));
  demand ← lift (demand_grouped fl grand_total_amount);
  _ ← emit (StChart "Demand by Loan Type (% of Grand Total Amount)" demand);
  age ← df_getitem filtered_loans "applicant_age";
  _ ← df_setitem filtered_loans "age_group" (age_group age);
  groups ← df_getitem filtered_loans "age_group";
  ages ← lift (age_df groups total_apps);
  _ ← emit (StChart "Applicant Age Demographics (% of Total Applicants)" ages);
  status ← df_getitem filtered_loans "loan_status";
  _ ← emit (StChart "Approval Status Breakdown" (value_counts_frame "loan_status" status));
  fl ← deref filtered_loans;
  emit (StChart "CIBIL Score vs. Income Analysis" fl).

(** ** Page "Fraud Intelligence & Risk Mitigation" *)

(** [df[df["fraud_flag"] == 1]] as a new frame. *)
Definition fraud_rows (df : DataFrame) : result DataFrame :=
  f ← getitem df "fraud_flag";
  Ok (getitem_mask df (eq_scalar f (VNum (of_Z 1)))).

(** [df[df[c] == v]] as a new frame. *)
Definition rows_where (df : DataFrame) (c : string) (v : value) : result DataFrame :=
  s ← getitem df c;
  Ok (getitem_mask df (eq_scalar s v)).

(** [len(part) / total if total else 0] *)
Definition guarded_rate (part total : nat) : result float64 :=
  if bool_decide (total ≠ 0) then py_div part total else Ok (Fin 0).

(** "Total Fraud Rate (%)": the loan fraud rate plus the transaction
    fraud rate, times 100. *)
Definition total_fraud_rate (filtered_loans filtered_txns : DataFrame)
  : result float64 :=
  let total_loan_apps := len filtered_loans in
  let total_txns := len filtered_txns in
  fraud_loans ← fraud_rows filtered_loans;
  fraud_txns ← fraud_rows filtered_txns;
  loan_fraud_rate ← guarded_rate (len fraud_loans) total_loan_apps;
  txn_fraud_rate ← guarded_rate (len fraud_txns) total_txns;
  Ok (mul64 (add64 loan_fraud_rate txn_fraud_rate) (of_Z 100)).

(** "Total Fraudulent Value" *)
Definition total_fraud_value (fraud_loans fraud_txns : DataFrame) : result float64 :=
  a ← getitem fraud_loans "loan_amount_requested";
  b ← getitem fraud_txns "transaction_amount";
  Ok (add64 (series_sum a) (series_sum b)).

(** "Undetected Fraud (%)":
    [len(undetected_fraud) / total_fraud * 100 if total_fraud else 0] *)
Definition undetected_pct (fraud_loans : DataFrame) : result float64 :=
  let total_fraud := len fraud_loans in
  _ ← rows_where fraud_loans "loan_status" (VStr "Fraudulent - detected");
  undetected_fraud ← rows_where fraud_loans "loan_status" (VStr "Fraudulent - Undetected");
  if bool_decide (total_fraud ≠ 0) then
    q ← py_div (len undetected_fraud) total_fraud;
    Ok (mul64 q (of_Z 100))
  else Ok (Fin 0).

(** "Risk Density (per 1000 customers)":
    [total_fraud / total_customers * 1000 if total_customers else 0] *)
Definition risk_density (filtered_loans fraud_loans : DataFrame) : result float64 :=
  let total_fraud := len fraud_loans in
  c ← getitem filtered_loans "customer_id";
  let total_customers := nunique c in
  if bool_decide (total_customers ≠ 0) then
    q ← py_div total_fraud total_customers;
    Ok (mul64 q (of_Z 1000))
  else Ok (Fin 0).

(** [g["pct"] = g.groupby(outer)[count].transform(lambda x: x / x.sum() * 100)] *)
Definition pct_within (g : DataFrame) (outer count : string) : result DataFrame :=
  p ← groupby_transform g outer count pct_of_group;
  Ok (setitem g "pct" p).

(** Row counts per [outer] and [inner], each as a percentage of its
    [outer] group: the charts by employment status, by DTI category and
    by device. *)
Definition size_pct (df : DataFrame) (outer inner : string) : result DataFrame :=
  g ← groupby_size df [outer; inner] "count";
  pct_within g outer "count".

(** Distinct customers per property ownership status and fraud flag, as
    a percentage of the status group. *)
Definition prop_fraud (filtered_loans : DataFrame) : result DataFrame :=
  g ← groupby_nunique filtered_loans ["property_ownership_status"; "fraud_flag"]
        "customer_id" "customer_count";
  pct_within g "property_ownership_status" "customer_count".

(** "Top 10 Fraudulent Transaction States":
    [fraud_txns["State"].value_counts(normalize=True).head(10).reset_index()],
    the columns renamed to State and pct, then [pct *= 100]. *)
Definition state_fraud (fraud_txns : DataFrame) : result DataFrame :=
  s ← getitem fraud_txns "State";
  let top := take 10 (value_counts_normalize s) in
  let df := reset_index "State" "pct" ((λ p, (p.1, VNum p.2)) <$> top) in
  pct ← getitem df "pct";
  Ok (setitem df "pct" ((λ v, VNum (mul64 (to_float v) (of_Z 100))) <$> pct)).

Definition fraud_page (filtered_loans filtered_txns : nat) : Py unit :=
  loc ← df_getitem filtered_txns "transaction_location";
  _ ← df_setitem filtered_txns "State" (str_map state_of_location <$> loc);
  dti ← df_getitem filtered_loans "debt_to_income_ratio";
  _ ← df_setitem filtered_loans "DTI_Risk_Category"
        ((λ x, VStr (dti_category (to_float x))) <$> dti);
  fl ← deref filtered_loans;
  ft ← deref filtered_txns;
  fraud_loans ← lift (fraud_rows fl);
  fraud_txns ← lift (fraud_rows ft);
  rate ← lift (total_fraud_rate fl ft);
  value ← lift (total_fraud_value fraud_loans fraud_txns);
  undetected ← lift (undetected_pct fraud_loans);
  density ← lift (risk_density fl fraud_loans);
  _ ← emit (StMetric "Total Fraud Rate" (String.append (format_f false 2 rate) "%"));
  _ ← emit (StMetric "Total Fraudulent Value" (String.append "₹" (format_f true 0 value)));
  _ ← emit (StMetric "Undetected Fraud (%)" (String.append (format_f false 2 undetected) "%"));
  _ ← emit (StMetric "Risk Density (per 1000)" (format_f false 2 density));
  emp_fraud ← lift (size_pct fraud_loans "employment_status" "fraud_type");
  _ ← emit (StChart "Fraud by Employment Status (%)" emp_fraud);
  dti_fraud ← lift (size_pct fl "DTI_Risk_Category" "fraud_flag");
  _ ← emit (StChart "DTI Risk Category vs Fraud (%)" dti_fraud);
  txn_amt ← lift (groupby_sum ft ["fraud_flag"] "transaction_amount");
  _ ← emit (StChart "Transaction Amount vs Fraud" txn_amt);
  states ← lift (state_fraud fraud_txns);
  _ ← emit (StChart "Top 10 Fraudulent Transaction States (%)" states);
  prop ← lift (prop_fraud fl);
  emit (StChart "Property Ownership vs Fraud (%)" prop).

(** ** Page "Behavioral Risk Analysis" *)

(** Day of the month of a timestamp ([.dt.day]), by the usual conversion
    of a day count to a civil date. *)
Definition day_of_month (t : Z) : Z :=
  let z := (t / 86400000000000 + 719468)%Z in
  let era := (z / 146097)%Z in
  let doe := (z - era * 146097)%Z in
  let yoe := ((doe - doe / 1460 + doe / 36524 - doe / 146096) / 365)%Z in
  let doy := (doe - (365 * yoe + yoe / 4 - yoe / 100))%Z in
  let mp := ((5 * doy + 2) / 153)%Z in
  (doy - (153 * mp + 2) / 5 + 1)%Z.

Definition dt_day (v : value) : value :=
  match v with
  | VTime t => VNum (of_Z (day_of_month t))
  | _ => VNum NaN
  end.

(** [pd.to_datetime] on a column that the loader has already parsed. *)
Definition to_datetime (v : value) : value :=
  match v with
  | VTime t => VTime t
  | _ => VNum NaN
  end.

(** "Success Rate":
    [filtered_txns[filtered_txns["fraud_flag"] == 0].shape[0]
       / total_transactions * 100] *)
Definition success_rate (filtered_txns : DataFrame) : result float64 :=
  let total_transactions := len filtered_txns in
  ok ← rows_where filtered_txns "fraud_flag" (VNum (of_Z 0));
  q ← py_div (len ok) total_transactions;
  Ok (mul64 q (of_Z 100)).

(** [df[c].value_counts().idxmax()] *)
Definition top_value (df : DataFrame) (c : string) : result value :=
  s ← getitem df c;
  idxmax (value_counts s).

(** A metric whose value is a cell. *)
Definition show (v : value) : string :=
  match v with
  | VStr s => s
  | VNum x => format_f false 2 x
  | VTime t => pretty t
  end.

(** [g["pct"] = g[c] / g[c].sum() * 100] *)
Definition pct_of_column (g : DataFrame) (c : string) : result DataFrame :=
  a ← getitem g c;
  Ok (setitem g "pct" (pct_of_total a (series_sum a))).

(** International against domestic, as percentages of the amount. *)
Definition intl_dom (filtered_txns : DataFrame) : result DataFrame :=
  g ← groupby_sum filtered_txns ["is_international_transaction"] "transaction_amount";
  pct_of_column g "transaction_amount".

(** Transaction velocity: the amount per day of the month, as a
    percentage of the whole amount. *)
Definition velocity (filtered_txns : DataFrame) : result DataFrame :=
  d ← getitem filtered_txns "transaction_date";
  g ← groupby_sum (setitem filtered_txns "transaction_date" (dt_day <$> d))
        ["transaction_date"] "transaction_amount";
  pct_of_column g "transaction_amount".

Definition behavioral_page (filtered_loans filtered_txns : nat) : Py unit :=
  ft ← deref filtered_txns;
  let total_transactions := len ft in
  cust ← df_getitem filtered_txns "customer_id";
  let total_customers := nunique cust in
  amount ← df_getitem filtered_txns "transaction_amount";
  let avg_transaction_value := series_mean amount in
  rate ← lift (success_rate ft);
  top_location ← lift (top_value ft "transaction_location");
  top_txn_type ← lift (top_value ft "transaction_type");
  _ ← emit (StMetric "Total Transaction"
              (String.append (format_f false 2 (div64 (of_nat total_transactions) (of_Z 1000))) "K"));
  _ ← emit (StMetric "Total Customer"
              (String.append (format_f false 2 (div64 (of_nat total_customers) (of_Z 1000))) "K"));
  _ ← emit (StMetric "Avg Transaction Value (ATV)"
              (String.append (format_f false 2 (div64 avg_transaction_value (of_Z 1000))) "K"));
  _ ← emit (StMetric "Success Rate" (String.append (format_f false 2 rate) "%"));
  _ ← emit (StMetric "Highest Transaction Location" (show top_location));
  _ ← emit (StMetric "Top Transaction Type" (show top_txn_type));
  cat_spend ← lift (groupby_sum ft ["transaction_type"] "transaction_amount");
  _ ← emit (StChart "Spending Heatmap by Category" cat_spend);
  device_risk ← lift (size_pct ft "device_used" "fraud_flag");
  _ ← emit (StChart "Device Risk Analysis (%)" device_risk);
  intl ← lift (intl_dom ft);
  _ ← emit (StChart "International vs Domestic (%)" intl);
  date ← df_getitem filtered_txns "transaction_date";
  _ ← df_setitem filtered_txns "transaction_date" (to_datetime <$> date);
  ft ← deref filtered_txns;
  vel ← lift (velocity ft);
  _ ← emit (StChart "Transaction Velocity (%)" vel);
  fraud_device ← lift (size_pct ft "device_used" "fraud_flag");
  _ ← emit (StChart "Fraud by Device (%)" fraud_device);
  fl ← deref filtered_loans;
  emit (StChart "Income vs Loan Amount (Fraud Highlighted)" fl).

(** ** The whole script *)

(** Everything after the load: sidebar, filters and the chosen page. *)
Definition body (i : inputs) (loan_df txn_df : nat) : Py unit :=
  _ ← sidebar loan_df txn_df;
  '(filtered_loans, filtered_txns) ← apply_filters i loan_df txn_df;
  if String.eqb (page i) "Executive Loan Portfolio" then
    executive_page filtered_loans
  else if String.eqb (page i) "Fraud Intelligence & Risk Mitigation" then
    fraud_page filtered_loans filtered_txns
  else if String.eqb (page i) "Behavioral Risk Analysis" then
    behavioral_page filtered_loans filtered_txns
  else mret ().

(** The load: [load_data()] is cached with [st.cache_data], which hands
    out a fresh copy of the cached tables on every run; then the State
    column is derived on the transaction table. *)
Definition load (cache_loans cache_txns : nat) : Py (nat * nat) :=
  loan_df ← df_copy cache_loans;
  txn_df ← df_copy cache_txns;
  _ ← state_extraction txn_df;
  mret (loan_df, txn_df).

(** One run of the script, after login. *)
Definition script (i : inputs) (cache_loans cache_txns : nat) : Py unit :=
  '(loan_df, txn_df) ← load cache_loans cache_txns;
  body i loan_df txn_df.

(** A session: the script runs once per interaction; a run that raises
    shows the exception and the next interaction runs the script anew. *)
Definition session (cache_loans cache_txns : nat) (runs : list inputs) (w : world)
  : world :=
  foldl (λ w i, snd (script i cache_loans cache_txns w)) w runs.

(** The world of a first run: the cache holds the two loaded tables. *)
Definition initial (loans txns : DataFrame) : world := mkWorld [loans; txns] [].

(** ** Reasoning about runs *)

(** [wp m Q E w]: run from [w], [m] returns a value and a world that
    satisfy [Q], or raises an exception [e] in a world with [E e]. *)
Definition wp {A} (m : Py A) (Q : A → world → Prop) (E : exn → world → Prop)
    (w : world) : Prop :=
  match m w with
  | (Ok a, w') => Q a w'
  | (Raise e, w') => E e w'
  end.

(** The objects of [w] are still there in [w'], unchanged, and nothing
    was shown in between. *)
Definition extends (w w' : world) : Prop :=
  heap w `prefix_of` heap w' ∧ output w' = output w.

(** ** The filters, in the words of the specification *)

(** A selection keeps a cell when nothing is selected or the cell is one
    of the selected values. *)
Definition selected (sel : list value) (v : value) : bool :=
  match sel with
  | [] => true
  | _ => existsb (same_value v) sel
  end.

Definition in_range (range : Z * Z) (v : value) : bool :=
  match v with
  | VTime t => (range.1 <=? t)%Z && (t <=? range.2)%Z
  | _ => false
  end.

(** The conjunction of the predicates on loans: loan type, employment
    status, gender, and application date within the range, ends
    included. *)
Definition keep_loan (i : inputs) (r : gmap string value) : bool :=
  selected (loan_type_filter i) (cell "loan_type" r)
  && selected (employment_filter i) (cell "employment_status" r)
  && selected (gender_filter i) (cell "gender" r)
  && in_range (date_range i) (cell "application_date" r).

(** The conjunction of the predicates on transactions: device and
    State. *)
Definition keep_txn (i : inputs) (r : gmap string value) : bool :=
  selected (device_filter i) (cell "device_used" r)
  && selected (state_filter i) (cell "State" r).

(** The objects [h] are still in the store of [w], unchanged, and what
    had been shown, [o], is still shown. *)
Definition stable (h : list DataFrame) (o : list event) (w : world) : Prop :=
  h `prefix_of` heap w ∧ o `prefix_of` output w.

(** [m] changes none of the objects [h] and withdraws nothing of the
    output [o], whether it returns or raises, and what it returns
    satisfies [P]. *)
Definition safe {A} (h : list DataFrame) (o : list event) (m : Py A)
    (P : A → Prop) : Prop :=
  ∀ w, stable h o w → wp m (λ a w', P a ∧ stable h o w') (λ _, stable h o) w.

(** ** The fraud rate, in the words of the specification *)

(** The rows flagged as fraud. *)
Definition flagged (r : gmap string value) : bool :=
  value_eqb (cell "fraud_flag" r) (VNum (of_Z 1)).

Definition nfraud (df : DataFrame) : nat :=
  length (filter (λ r, flagged r = true) (rows df)).

(** [part] over [total], and 0 when [total] is 0. *)
Definition fraction (part total : nat) : Q :=
  match total with
  | 0 => 0%Q
  | _ => (inject_Z (Z.of_nat part) / inject_Z (Z.of_nat total))%Q
  end.

(** [part / total] as Python divides two integers, rounded to binary64,
    and 0 when [total] is 0. *)
Definition fraction64 (part total : nat) : float64 :=
  match total with
  | 0 => Fin 0
  | _ => div64 (of_nat part) (of_nat total)
  end.

(** ** Ranking, in the words of the specification *)

(** [x] stands before [y] in [l]. *)
Definition before {A} (x y : A) (l : list A) : Prop :=
  ∃ i j, i < j ∧ l !! i = Some x ∧ l !! j = Some y.

(** The position at which the cell [v] first occurs in the column [s]. *)
Definition first_index (v : value) (s : list value) : option nat :=
  fst <$> list_find (λ w, same_value v w = true) s.



(** ** Shares of a group, in the words of the specification *)





(** ** Sample tables *)

Definition loan_columns : list string :=
  ["customer_id"; "loan_type"; "employment_status"; "gender";
   "property_ownership_status"; "loan_status"; "fraud_type";
   "loan_amount_requested"; "cibil_score"; "monthly_income"; "applicant_age";
   "debt_to_income_ratio"; "fraud_flag"; "application_date"].

Definition txn_columns : list string :=
  ["customer_id"; "device_used"; "transaction_type"; "transaction_location";
   "is_international_transaction"; "transaction_amount"; "fraud_flag";
   "transaction_date"].

(** Midnight of the given day, counted from 1970-01-01. *)
Definition day (n : Z) : Z := (n * 86400000000000)%Z.

Definition loan (customer loan_type employment gender status : string)
    (amount age dti : Z) (fraud : Z) (date : Z) : gmap string value :=
  list_to_map
    [("customer_id", VStr customer); ("loan_type", VStr loan_type);
     ("employment_status", VStr employment); ("gender", VStr gender);
     ("property_ownership_status", VStr "Owned"); ("loan_status", VStr status);
     ("fraud_type", VStr "Identity"); ("loan_amount_requested", VNum (of_Z amount));
     ("cibil_score", VNum (of_Z 700)); ("monthly_income", VNum (of_Z 50000));
     ("applicant_age", VNum (of_Z age)); ("debt_to_income_ratio", VNum (of_Z dti));
     ("fraud_flag", VNum (of_Z fraud)); ("application_date", VTime (day date))].

Definition txn (customer device location : string) (amount : Z) (fraud : Z)
    (date : Z) : gmap string value :=
  list_to_map
    [("customer_id", VStr customer); ("device_used", VStr device);
     ("transaction_type", VStr "POS"); ("transaction_location", VStr location);
     ("is_international_transaction", VStr "No");
     ("transaction_amount", VNum (of_Z amount)); ("fraud_flag", VNum (of_Z fraud));
     ("transaction_date", VTime (day date))].

Definition sample_loans : DataFrame :=
  mkDataFrame loan_columns
    [loan "C1" "Home" "Salaried" "F" "Approved" 500000 30 25 0 19400;
     loan "C2" "Car" "Self-employed" "M" "Fraudulent - Undetected" 200000 45 38 1 19410;
     loan "C3" "Home" "Salaried" "M" "Declined" 300000 0 41 0 19420].

Definition sample_txns : DataFrame :=
  mkDataFrame txn_columns
    [txn "C1" "Mobile" "Pune, Maharashtra" 1200 1 19401;
     txn "C2" "Web" "Delhi" 800 0 19402].

(** The same transactions in a file that has no location column. *)
Definition txns_without_location : DataFrame :=
  mkDataFrame
    ["customer_id"; "device_used"; "transaction_type";
     "is_international_transaction"; "transaction_amount"; "fraud_flag";
     "transaction_date"]
    (delete "transaction_location" <$> rows sample_txns).

(** 100 loans of which 10 are flagged, 200 transactions of which 20. *)
Definition loans_100 : DataFrame :=
  mkDataFrame loan_columns
    (replicate 10 (loan "C2" "Car" "Salaried" "M" "Fraudulent - detected" 200000 45 38 1 19410)
     ++ replicate 90 (loan "C1" "Home" "Salaried" "F" "Approved" 500000 30 25 0 19400)).

Definition txns_200 : DataFrame :=
  mkDataFrame txn_columns
    (replicate 20 (txn "C1" "Mobile" "Pune, Maharashtra" 1200 1 19401)
     ++ replicate 180 (txn "C2" "Web" "Delhi" 800 0 19402)).



Definition no_filters (page : string) : inputs :=
  mkInputs page [] [] [] [] [] (day 19000, day 20000).

(** Mobile is a device of the sample and Delhi one of its states, but no
    sample transaction has both. *)
Definition mobile_in_delhi : inputs :=
  mkInputs "Behavioral Risk Analysis" [] [] [] [VStr "Mobile"] [VStr "Delhi"]
    (day 19000, day 20000).

Definition home_loans_of_women : inputs :=
  mkInputs "Executive Loan Portfolio" [VStr "Home"] [] [VStr "F"] [] [VStr "Delhi"]
    (day 19400, day 19410).

(** The world of a run of the samples once the load is done. *)
Definition loaded : world :=
  (load 0 1 (initial sample_loans sample_txns)).2.

(** ** The login gate *)

(** [USERS = {"admin": "1234"}] *)
Definition USERS : gmap string string := {["admin" := "1234"]}.

(** [st.session_state]: the script keeps one key there, "authenticated",
    set to False when it is absent. *)
Record session_state := mkSession { authenticated : bool }.

(** What the user has entered and clicked when a run starts: the two
    text inputs of the login page, its button, and the Logout button of
    the sidebar.  A button is true in the one run that its click starts. *)
Record clicks := mkClicks {
  username : string;
  password : string;
  login_button : bool;
  logout_button : bool
}.

(** The boxes of the login page: [st.success] and [st.error]. *)
Inductive notice :=
  | st_success (msg : string)
  | st_error (msg : string).

(** How a run ends: at the end of the script, at [st.stop()], or at
    [st.rerun()], which abandons the run and starts the script anew. *)
Inductive flow := Continue | Stop | Rerun.

(** [login()]: [USERS.get(username) == password] holds when [username]
    is a key of [USERS] with that password; a text is never equal to the
    None of an unknown user. *)
Definition login (c : clicks) (s : session_state)
  : session_state * list notice * flow :=
  if login_button c then
    if bool_decide (USERS !! username c = Some (password c)) then
      (mkSession true, [st_success "Login successful!"], Rerun)
    else (s, [st_error "Invalid username or password"], Continue)
  else (s, [], Continue).

(** [logout()] *)
Definition logout (c : clicks) (s : session_state) : session_state * flow :=
  if logout_button c then (mkSession false, Rerun) else (s, Continue).

(** One run of the whole file: the login page and [st.stop()] while the
    session is not authenticated; otherwise the Logout button and then
    the dashboard script. *)
Definition app1 (c : clicks) (i : inputs) (cache_loans cache_txns : nat)
    (s : session_state) (w : world) : session_state * list notice * flow * world :=
  if negb (authenticated s) then
    let '(s', shown, f) := login c s in
    (s', shown, match f with Continue => Stop | _ => f end, w)
  else
    match logout c s with
    | (s', Continue) => (s', [], Continue, (script i cache_loans cache_txns w).2)
    | (s', f) => (s', [], f, w)
    end.

(** A visit: the runs of one browser session, each started by an
    interaction (or by [st.rerun()]) and each with the session state that
    the run before has left. *)
Definition visit (cache_loans cache_txns : nat) (runs : list (clicks * inputs))
    (s : session_state) (w : world) : session_state * world :=
  foldl (λ sw ci,
           let '(s', _, _, w') := app1 ci.1 ci.2 cache_loans cache_txns sw.1 sw.2 in
           (s', w'))
        (s, w) runs.

(** The right pair of user name and password, submitted. *)
Definition submits_credentials (c : clicks) : bool :=
  login_button c && String.eqb (username c) "admin" && String.eqb (password c) "1234".
(** ** Stripped text *)

(** No white space at the left end, and at the right end. *)
Definition trimmed_left (s : string) : Prop := space_width false s = 0.

Definition trimmed_right (s : string) : Prop :=
  space_width true (String.rev s) = 0.
(** ** What a page shows *)

(** The label of a metric or of a filter, the title of a chart, the text
    of an error box. *)
Definition event_label (e : event) : string :=
  match e with
  | StError msg => msg
  | StMultiselect label _ => label
  | StMetric label _ => label
  | StChart title _ => title
  end.

(** The metrics and charts of the three pages, in the order in which the
    script shows them. *)
Definition executive_labels : list string :=
  ["Total Applications"; "Total Requested"; "Avg CIBIL Score"; "Approval Rate";
   "Avg Monthly Income"; "Demand by Loan Type (% of Grand Total Amount)";
   "Applicant Age Demographics (% of Total Applicants)";
   "Approval Status Breakdown"; "CIBIL Score vs. Income Analysis"].


Definition behavioral_labels : list string :=
  ["Total Transaction"; "Total Customer"; "Avg Transaction Value (ATV)";
   "Success Rate"; "Highest Transaction Location"; "Top Transaction Type";
   "Spending Heatmap by Category"; "Device Risk Analysis (%)";
   "International vs Domestic (%)"; "Transaction Velocity (%)";
   "Fraud by Device (%)"; "Income vs Loan Amount (Fraud Highlighted)"].

(** ** The tables that the script expects *)

(** The columns that the script reads from the two files. *)
Definition loan_schema : list string :=
  ["loan_type"; "employment_status"; "gender"; "application_date";
   "loan_amount_requested"; "cibil_score"; "loan_status"; "monthly_income";
   "applicant_age"; "debt_to_income_ratio"; "fraud_flag"; "customer_id";
   "fraud_type"; "property_ownership_status"].

Definition txn_schema : list string :=
  ["device_used"; "transaction_location"; "fraud_flag"; "transaction_amount";
   "customer_id"; "transaction_type"; "is_international_transaction";
   "transaction_date"].

Definition is_number (v : value) : bool :=
  match v with VNum _ => true | _ => false end.

Definition is_text (v : value) : bool :=
  match v with VStr _ => true | _ => false end.

Definition is_time (v : value) : bool :=
  match v with VTime _ => true | _ => false end.

(** Every cell of column [c] satisfies [p]. *)
Definition column_of (p : value → bool) (c : string) (d : DataFrame) : Prop :=
  Forall (λ r, p (cell c r) = true) (rows d).

(** A loan table as the script expects it: the columns it reads, with
    numbers (or missing cells) where it calculates. *)
Definition loans_ok (L : DataFrame) : Prop :=
  Forall (λ c, c ∈ columns L) loan_schema ∧
  Forall (λ c, column_of is_number c L)
    ["loan_amount_requested"; "cibil_score"; "monthly_income"; "applicant_age";
     "debt_to_income_ratio"].

(** A transaction table as the script expects it: the columns it reads,
    text in the location and type columns, numbers (or missing cells) in
    the amount column and timestamps in the date column. *)
Definition txns_ok (T : DataFrame) : Prop :=
  Forall (λ c, c ∈ columns T) txn_schema ∧
  Forall (λ c, column_of is_text c T) ["transaction_location"; "transaction_type"] ∧
  column_of is_number "transaction_amount" T ∧
  column_of is_time "transaction_date" T.

(** ** The options of a sidebar filter *)

(** [opts] are the options for the column [col]: each option is a cell
    of the column, each cell of the column is one of the options, no
    option is offered twice, and the options come in the order in which
    they first occur in the column. *)
Definition offers (opts col : list value) : Prop :=
  (∀ v, v ∈ opts → v ∈ col) ∧
  (∀ v, v ∈ col → ∃ u, u ∈ opts ∧ same_value v u = true) ∧
  (∀ a b, before a b opts →
     same_value a b = false ∧
     ∃ i j, first_index a col = Some i ∧ first_index b col = Some j ∧ i < j).
(** ** Comparison lemmas *)

Lemma Qltb_lt (a b : Q) : Qltb a b = true ↔ (a < b)%Q.
Proof.
  unfold Qltb. rewrite negb_true_iff, <- not_true_iff_false, Qle_bool_iff.
  split; [apply Qnot_le_lt | apply Qlt_not_le].
Qed.

Lemma Qltb_ge (a b : Q) : Qltb a b = false ↔ (b <= a)%Q.
Proof. unfold Qltb. rewrite negb_false_iff. apply Qle_bool_iff. Qed.

Lemma Qle_bool_gt (a b : Q) : Qle_bool a b = false ↔ (b < a)%Q.
Proof.
  rewrite <- not_true_iff_false, Qle_bool_iff.
  split; [apply Qnot_le_lt | apply Qlt_not_le].
Qed.

Lemma fle_Fin (a b : Q) : fle (Fin a) (Fin b) = true ↔ (a <= b)%Q.
Proof. apply Qle_bool_iff. Qed.

(** Decide every comparison of [x] with a constant that occurs in the goal,
    keeping the outcome as a fact about rationals. *)
Ltac split_cmp :=
  repeat match goal with
  | |- context [Qltb ?a ?b] =>
      let E := fresh "E" in
      destruct (Qltb a b) eqn:E;
      [apply Qltb_lt in E | apply Qltb_ge in E]
  | |- context [Qle_bool ?a ?b] =>
      let E := fresh "E" in
      destruct (Qle_bool a b) eqn:E;
      [apply Qle_bool_iff in E | apply Qle_bool_gt in E]
  end.

(** C1. The debt-to-income category of a number [x]: below 20 it is
    "Excellent (<20)"; from 20 to 35 "Good (20–35)"; from 36 to 40
    "Fair (36–40)"; above 40 and up to 100 "High Risk (40–50)"; anything
    else, the gap between 35 and 36 included, is "Out of Range".  NaN and
    +inf fall in the last case, -inf in the first.  The listed sample
    values 19.9, 20, 35, 36, 40, 41 and 150 follow. *)
Theorem dti_category_spec :
  (∀ x : Q,
     ((x < 20)%Q → dti_category (Fin x) = "Excellent (<20)") ∧
     ((20 <= x <= 35)%Q → dti_category (Fin x) = "Good (20–35)") ∧
     ((36 <= x <= 40)%Q → dti_category (Fin x) = "Fair (36–40)") ∧
     ((40 < x <= 100)%Q → dti_category (Fin x) = "High Risk (40–50)") ∧
     ((35 < x < 36)%Q → dti_category (Fin x) = "Out of Range") ∧
     ((100 < x)%Q → dti_category (Fin x) = "Out of Range") ∧
     (dti_category (Fin x) = "Excellent (<20)" ∨
      dti_category (Fin x) = "Good (20–35)" ∨
      dti_category (Fin x) = "Fair (36–40)" ∨
      dti_category (Fin x) = "High Risk (40–50)" ∨
      (dti_category (Fin x) = "Out of Range" ∧
       ((35 < x < 36)%Q ∨ (100 < x)%Q)))) ∧
  dti_category NaN = "Out of Range" ∧
  dti_category PInf = "Out of Range" ∧
  dti_category NInf = "Excellent (<20)" ∧
  dti_category (Fin (199 # 10)) = "Excellent (<20)" ∧
  dti_category (Fin 20) = "Good (20–35)" ∧
  dti_category (Fin 35) = "Good (20–35)" ∧
  dti_category (Fin 36) = "Fair (36–40)" ∧
  dti_category (Fin 40) = "Fair (36–40)" ∧
  dti_category (Fin 41) = "High Risk (40–50)" ∧
  dti_category (Fin 150) = "Out of Range".
Proof.
  split; [|repeat split; reflexivity].
  intros x. unfold dti_category, flt, fle, of_Z.
  change (inject_Z 20) with 20%Q. change (inject_Z 35) with 35%Q.
  change (inject_Z 36) with 36%Q. change (inject_Z 40) with 40%Q.
  change (inject_Z 100) with 100%Q.
  split_cmp; cbn [andb];
    repeat split; intros; try reflexivity; try lra;
    try (left; reflexivity); try (right; left; reflexivity);
    try (right; right; left; reflexivity);
    try (right; right; right; left; reflexivity);
    try (right; right; right; right; split; [reflexivity | lra]).
Qed.

(** ** Rounding to binary64 *)

Lemma pow2_pos (e : Z) : (0 < pow2 e)%Q.
Proof. by apply Qpower_0_lt. Qed.

Lemma pow2_add (a b : Z) : (pow2 (a + b) == pow2 a * pow2 b)%Q.
Proof. by apply Qpower_plus. Qed.

Lemma pow2_le (a b : Z) : (a <= b)%Z → (pow2 a <= pow2 b)%Q.
Proof. intros H. by apply Qpower_le_compat_l. Qed.

Lemma pow2_lt (a b : Z) : (a < b)%Z → (pow2 a < pow2 b)%Q.
Proof. intros H. by apply Qpower_lt_compat_l. Qed.

Lemma pow2_Z (e : Z) : (0 <= e)%Z → (pow2 e == inject_Z (2 ^ e))%Q.
Proof. intros H. unfold pow2. by rewrite Zpower_Qpower. Qed.

Lemma pow2_succ (e : Z) : (pow2 (e + 1) == 2 * pow2 e)%Q.
Proof. rewrite pow2_add. change (pow2 1) with 2%Q. ring. Qed.

Lemma pow2_pred (e : Z) : (pow2 e == 2 * pow2 (e - 1))%Q.
Proof. rewrite <- pow2_succ. by replace (e - 1 + 1)%Z with e by lia. Qed.

(** The numerator and the denominator lie each in a binade of the
    integers; their quotient lies within two binades. *)
Lemma floor_log2_spec (q : Q) :
  (0 < q)%Q → (pow2 (floor_log2 q) <= q)%Q ∧ (q < pow2 (floor_log2 q + 1))%Q.
Proof.
  intros Hq. destruct q as [n d]. unfold floor_log2. cbn [Qnum Qden].
  assert (Hn : (0 < n)%Z).
  { unfold Qlt in Hq. cbn in Hq. lia. }
  set (a := Z.log2 n). set (b := Z.log2 (Z.pos d)).
  assert (Ha : (0 <= a)%Z) by apply Z.log2_nonneg.
  assert (Hb : (0 <= b)%Z) by apply Z.log2_nonneg.
  destruct (Z.log2_spec n Hn) as [Ha1 Ha2]. fold a in Ha1, Ha2.
  destruct (Z.log2_spec (Z.pos d)) as [Hb1 Hb2]; [lia|]. fold b in Hb1, Hb2.
  assert (Hn1 : (pow2 a <= inject_Z n)%Q).
  { rewrite pow2_Z by done. by rewrite <- Zle_Qle. }
  assert (Hn2 : (inject_Z n < pow2 (a + 1))%Q).
  { rewrite pow2_Z by lia. rewrite <- Zlt_Qlt. by rewrite <- Z.add_1_r in Ha2. }
  assert (Hd1 : (pow2 b <= inject_Z (Z.pos d))%Q).
  { rewrite pow2_Z by done. by rewrite <- Zle_Qle. }
  assert (Hd2 : (inject_Z (Z.pos d) < pow2 (b + 1))%Q).
  { rewrite pow2_Z by lia. rewrite <- Zlt_Qlt. by rewrite <- Z.add_1_r in Hb2. }
  assert (Hd : (0 < inject_Z (Z.pos d))%Q) by (by rewrite <- (Zlt_Qlt 0)).
  assert (Hq' : (n # d == inject_Z n / inject_Z (Z.pos d))%Q) by apply Qmake_Qdiv.
  (* the quotient is below [2 ^ (a - b + 1)] *)
  assert (Hup : (n # d < pow2 (a - b + 1))%Q).
  { rewrite Hq'. apply Qlt_shift_div_r; [done|].
    eapply Qlt_le_trans; [exact Hn2|].
    replace (a + 1)%Z with ((a - b + 1) + b)%Z by lia.
    rewrite pow2_add. apply Qmult_le_l; [apply pow2_pos|done]. }
  (* and not below [2 ^ (a - b - 1)] *)
  assert (Hlo : (pow2 (a - b - 1) <= n # d)%Q).
  { rewrite Hq'. apply Qle_shift_div_l; [done|].
    eapply Qle_trans; [|exact Hn1].
    replace a with ((a - b - 1) + (b + 1))%Z at 2 by lia.
    rewrite pow2_add. apply Qmult_le_l; [apply pow2_pos|].
    by apply Qlt_le_weak. }
  destruct (Qle_bool (pow2 (a - b)) (n # d)) eqn:E.
  - apply Qle_bool_iff in E. done.
  - apply Qle_bool_gt in E.
    by replace (a - b - 1 + 1)%Z with (a - b)%Z by lia.
Qed.

Lemma floor_log2_unique (q : Q) (e : Z) :
  (pow2 e <= q)%Q → (q < pow2 (e + 1))%Q → floor_log2 q = e.
Proof.
  intros H1 H2.
  assert (Hq : (0 < q)%Q) by (eapply Qlt_le_trans; [apply (pow2_pos e)|done]).
  destruct (floor_log2_spec q Hq) as [H3 H4].
  set (f := floor_log2 q) in *.
  destruct (Z.lt_trichotomy f e) as [Hlt|[->|Hgt]]; [|done|].
  - exfalso. apply (Qlt_irrefl q).
    eapply Qlt_le_trans; [exact H4|].
    eapply Qle_trans; [|exact H1]. apply pow2_le. lia.
  - exfalso. apply (Qlt_irrefl q).
    eapply Qlt_le_trans; [exact H2|].
    eapply Qle_trans; [|exact H3]. apply pow2_le. lia.
Qed.

Lemma floor_log2_mono (p q : Q) :
  (0 < p)%Q → (p <= q)%Q → (floor_log2 p <= floor_log2 q)%Z.
Proof.
  intros Hp Hpq.
  assert (Hq : (0 < q)%Q) by (by eapply Qlt_le_trans).
  destruct (floor_log2_spec p Hp) as [H1 _].
  destruct (floor_log2_spec q Hq) as [_ H2].
  destruct (Z.le_gt_cases (floor_log2 p) (floor_log2 q)) as [|Hgt]; [done|].
  exfalso. apply (Qlt_irrefl q).
  eapply Qlt_le_trans; [exact H2|].
  eapply Qle_trans; [|exact Hpq].
  eapply Qle_trans; [|exact H1]. apply pow2_le. lia.
Qed.

(** *** Rounding to the nearest integer *)

Lemma round_half_even_near (q : Q) :
  (q - (1 # 2) <= inject_Z (round_half_even q))%Q
  ∧ (inject_Z (round_half_even q) <= q + (1 # 2))%Q.
Proof.
  unfold round_half_even.
  pose proof (Qfloor_le q) as H1. pose proof (Qlt_floor q) as H2.
  set (f := Qfloor q) in *.
  rewrite inject_Z_plus in H2. change (inject_Z 1) with 1%Q in H2.
  destruct (Qltb (q - inject_Z f) (1 # 2)) eqn:E1.
  { apply Qltb_lt in E1. split; lra. }
  apply Qltb_ge in E1.
  destruct (Qltb (1 # 2) (q - inject_Z f)) eqn:E2.
  { rewrite inject_Z_plus. change (inject_Z 1) with 1%Q. split; lra. }
  apply Qltb_ge in E2.
  destruct (Z.even f); [split; lra|].
  rewrite inject_Z_plus. change (inject_Z 1) with 1%Q. split; lra.
Qed.

#[export] Instance round_half_even_proper : Proper (Qeq ==> eq) round_half_even.
Proof.
  intros p q Hpq. unfold round_half_even.
  assert (Hf : Qfloor p = Qfloor q) by (by rewrite Hpq).
  rewrite Hf.
  assert (H1 : Qltb (p - inject_Z (Qfloor q)) (1 # 2)
               = Qltb (q - inject_Z (Qfloor q)) (1 # 2)).
  { unfold Qltb. f_equal. apply eq_true_iff_eq.
    rewrite !Qle_bool_iff. by rewrite Hpq. }
  assert (H2 : Qltb (1 # 2) (p - inject_Z (Qfloor q))
               = Qltb (1 # 2) (q - inject_Z (Qfloor q))).
  { unfold Qltb. f_equal. apply eq_true_iff_eq.
    rewrite !Qle_bool_iff. by rewrite Hpq. }
  by rewrite H1, H2.
Qed.

Lemma round_half_even_Z (k : Z) : round_half_even (inject_Z k) = k.
Proof.
  unfold round_half_even. rewrite Qfloor_Z.
  assert (H : Qltb (inject_Z k - inject_Z k) (1 # 2) = true).
  { apply Qltb_lt. lra. }
  by rewrite H.
Qed.

Lemma round_half_even_mono (p q : Q) :
  (p <= q)%Q → (round_half_even p <= round_half_even q)%Z.
Proof.
  intros Hpq.
  destruct (round_half_even_near p) as [_ Hp].
  destruct (round_half_even_near q) as [Hq _].
  destruct (Z.le_gt_cases (round_half_even p) (round_half_even q)) as [|Hgt];
    [done|].
  assert (Hz : (inject_Z (round_half_even q) + 1 <= inject_Z (round_half_even p))%Q).
  { change 1%Q with (inject_Z 1). rewrite <- inject_Z_plus, <- Zle_Qle. lia. }
  assert (Heq : (p == q)%Q) by lra.
  rewrite Heq in Hgt. lia.
Qed.

(** *** Rounding to binary64 *)

Lemma ulp_exponent_mono (p q : Q) :
  (0 < p)%Q → (p <= q)%Q → (ulp_exponent p <= ulp_exponent q)%Z.
Proof.
  intros Hp Hpq. unfold ulp_exponent.
  pose proof (floor_log2_mono p q Hp Hpq). lia.
Qed.

(** Rounding on the grid of spacing [2 ^ u]. *)
Lemma round_grid_mono (u : Z) (p q : Q) :
  (p <= q)%Q →
  (inject_Z (round_half_even (p / pow2 u)) * pow2 u
   <= inject_Z (round_half_even (q / pow2 u)) * pow2 u)%Q.
Proof.
  intros Hpq. pose proof (pow2_pos u) as Hu.
  apply Qmult_le_compat_r; [|by apply Qlt_le_weak].
  rewrite <- Zle_Qle. apply round_half_even_mono.
  apply Qmult_le_compat_r; [done|].
  apply Qlt_le_weak, Qinv_lt_0_compat, Hu.
Qed.

(** A power of two on or above the grid is a point of the grid. *)
Lemma round_grid_pow2 (u e : Z) :
  (u <= e)%Z →
  (inject_Z (round_half_even (pow2 e / pow2 u)) * pow2 u == pow2 e)%Q.
Proof.
  intros Hue. pose proof (pow2_pos u) as Hu.
  assert (H : (pow2 e / pow2 u == inject_Z (2 ^ (e - u)))%Q).
  { rewrite <- pow2_Z by lia.
    replace e with ((e - u) + u)%Z at 1 by lia.
    rewrite pow2_add. field. lra. }
  rewrite H, round_half_even_Z, <- pow2_Z by lia.
  rewrite <- pow2_add. by replace (e - u + u)%Z with e by lia.
Qed.

Lemma round_pos_mono (p q : Q) :
  (0 < p)%Q → (p <= q)%Q → (round_pos p <= round_pos q)%Q.
Proof.
  intros Hp Hpq.
  assert (Hq : (0 < q)%Q) by (by eapply Qlt_le_trans).
  pose proof (floor_log2_mono p q Hp Hpq) as He.
  destruct (floor_log2_spec p Hp) as [_ Hp2].
  destruct (floor_log2_spec q Hq) as [Hq1 _].
  unfold round_pos, ulp_exponent.
  set (ep := floor_log2 p) in *. set (eq := floor_log2 q) in *.
  destruct (Z.eq_dec (Z.max (ep - 52) (-1074)) (Z.max (eq - 52) (-1074)))
    as [->|Hne].
  { by apply round_grid_mono. }
  (* the binade of [q] lies above: [2 ^ eq] separates the two *)
  assert (Hpe : (p <= pow2 eq)%Q).
  { apply Qlt_le_weak. eapply Qlt_le_trans; [exact Hp2|]. apply pow2_le. lia. }
  apply Qle_trans with (pow2 eq).
  - rewrite <- (round_grid_pow2 (Z.max (ep - 52) (-1074)) eq) by lia.
    by apply round_grid_mono.
  - rewrite <- (round_grid_pow2 (Z.max (eq - 52) (-1074)) eq) at 1 by lia.
    by apply round_grid_mono.
Qed.

Lemma round_pos_nonneg (q : Q) : (0 < q)%Q → (0 <= round_pos q)%Q.
Proof.
  intros Hq. unfold round_pos.
  pose proof (pow2_pos (ulp_exponent q)) as Hu.
  apply Qmult_le_0_compat; [|by apply Qlt_le_weak].
  rewrite <- (Zle_Qle 0).
  change 0%Z with (round_half_even (inject_Z 0)).
  apply round_half_even_mono. change (inject_Z 0) with 0%Q.
  apply Qlt_le_weak, Qlt_shift_div_l; [done|lra].
Qed.

Lemma round64_pos (q : Q) : (0 < q)%Q → round64 q = round_pos q.
Proof. intros H. unfold round64. apply Qltb_lt in H. by rewrite H. Qed.

Lemma round64_zero (q : Q) : (q == 0)%Q → round64 q = 0%Q.
Proof.
  intros H. unfold round64.
  assert (H1 : Qltb 0 q = false) by (apply Qltb_ge; lra).
  assert (H2 : Qltb q 0 = false) by (apply Qltb_ge; lra).
  by rewrite H1, H2.
Qed.

Lemma round64_nonneg (q : Q) : (0 <= q)%Q → (0 <= round64 q)%Q.
Proof.
  intros Hq. destruct (Qlt_le_dec 0 q) as [Hpos|Hle].
  - rewrite round64_pos by done. by apply round_pos_nonneg.
  - rewrite round64_zero by lra. lra.
Qed.

(** Rounding keeps the order of numbers that are not negative. *)
Lemma round64_mono (p q : Q) :
  (0 <= p)%Q → (p <= q)%Q → (round64 p <= round64 q)%Q.
Proof.
  intros Hp Hpq. destruct (Qlt_le_dec 0 p) as [Hpos|Hle].
  - rewrite !round64_pos by lra. by apply round_pos_mono.
  - rewrite (round64_zero p) by lra. apply round64_nonneg. lra.
Qed.

(** The rounding error: half a unit in the last place, which is at most
    [q * 2 ^ -53] above the subnormal range and [2 ^ -1075] inside it. *)
Lemma round_pos_error (q : Q) :
  (0 < q)%Q →
  (Qabs (round_pos q - q) <= q * pow2 (-53) + pow2 (-1075))%Q.
Proof.
  intros Hq. unfold round_pos.
  destruct (floor_log2_spec q Hq) as [He _].
  unfold ulp_exponent. set (e := floor_log2 q) in *.
  set (u := Z.max (e - 52) (-1074)).
  pose proof (pow2_pos u) as Hu.
  destruct (round_half_even_near (q / pow2 u)) as [H1 H2].
  set (m := inject_Z (round_half_even (q / pow2 u))) in *.
  assert (Hhalf : (Qabs (m * pow2 u - q) <= pow2 (u - 1))%Q).
  { assert (Hq' : (q == q / pow2 u * pow2 u)%Q) by (field; lra).
    apply Qabs_Qle_condition. rewrite (pow2_pred u) in *.
    set (v := pow2 (u - 1)) in *. set (x := (q / (2 * v))%Q) in *.
    split.
    - assert ((x - (1 # 2)) * (2 * v) <= m * (2 * v))%Q
        by (apply Qmult_le_compat_r; lra).
      lra.
    - assert (m * (2 * v) <= (x + (1 # 2)) * (2 * v))%Q
        by (apply Qmult_le_compat_r; lra).
      lra. }
  eapply Qle_trans; [exact Hhalf|].
  pose proof (pow2_pos (-53)) as H53. pose proof (pow2_pos (-1075)) as H1075.
  destruct (Z.max_spec (e - 52) (-1074)) as [[_ Hmax]|[_ Hmax]]; fold u in Hmax;
    rewrite Hmax.
  - change (-1074 - 1)%Z with (-1075)%Z.
    assert (0 <= q * pow2 (-53))%Q by (apply Qmult_le_0_compat; lra). lra.
  - replace (e - 52 - 1)%Z with (e + -53)%Z by lia. rewrite pow2_add.
    assert (pow2 e * pow2 (-53) <= q * pow2 (-53))%Q
      by (apply Qmult_le_compat_r; lra).
    lra.
Qed.

Lemma round64_error (q : Q) :
  (0 <= q)%Q →
  (Qabs (round64 q - q) <= q * pow2 (-53) + pow2 (-1075))%Q.
Proof.
  intros Hq. destruct (Qlt_le_dec 0 q) as [Hpos|Hle].
  - rewrite round64_pos by done. by apply round_pos_error.
  - rewrite round64_zero by lra.
    pose proof (pow2_pos (-1075)).
    assert (Hq0 : (q == 0)%Q) by lra.
    rewrite Hq0. vm_compute. discriminate.
Qed.

Lemma pow2_1024_large (q : Q) : (q <= 1000000)%Q → (q < pow2 1024)%Q.
Proof.
  intros H. eapply Qle_lt_trans; [exact H|]. by vm_compute.
Qed.

(** Below a binary64 number that is not huge, rounding gives a finite
    number. *)
Lemma binary64_finite (q hi : Q) :
  (0 <= q)%Q → (q <= hi)%Q → (round64 hi == hi)%Q → (hi <= 1000000)%Q →
  binary64 q = Fin (Qred (round64 q)).
Proof.
  intros H0 Hq Ehi Hbig.
  pose proof (round64_nonneg q H0) as H1.
  pose proof (round64_mono q hi H0 Hq) as H2.
  pose proof (pow2_1024_large hi Hbig) as H4.
  rewrite Ehi in H2. unfold binary64. set (r := round64 q) in *.
  assert (E1 : Qle_bool (pow2 1024) r = false) by (apply Qle_bool_gt; lra).
  assert (E2 : Qle_bool r (- pow2 1024) = false) by (apply Qle_bool_gt; lra).
  by rewrite E1, E2.
Qed.

(** Between two binary64 numbers that are not negative, rounding stays
    between them, gives a finite number, and errs by no more than the
    relative precision [2 ^ -53] of the larger one (with the spacing of
    the subnormal numbers counted in). *)
Lemma binary64_between (q lo hi : Q) :
  (0 <= lo)%Q → (lo <= q)%Q → (q <= hi)%Q →
  (round64 lo == lo)%Q → (round64 hi == hi)%Q → (hi <= 1000000)%Q →
  ∃ r, binary64 q = Fin r ∧ (lo <= r)%Q ∧ (r <= hi)%Q
       ∧ (Qabs (r - q) <= (hi + 1) * pow2 (-53))%Q.
Proof.
  intros Hlo Hq1 Hq2 Elo Ehi Hbig.
  assert (H0 : (0 <= q)%Q) by lra.
  pose proof (round64_mono lo q Hlo Hq1) as H1.
  pose proof (round64_mono q hi H0 Hq2) as H2.
  pose proof (round64_error q H0) as H3.
  rewrite Elo in H1. rewrite Ehi in H2.
  rewrite (binary64_finite q hi) by done. set (r := round64 q) in *.
  exists (Qred r). pose proof (Qred_correct r) as Hr.
  split_and!; [done|lra|lra|].
  rewrite Hr. eapply Qle_trans; [exact H3|].
  assert (Hd : (pow2 (-1075) <= pow2 (-53))%Q) by (by apply pow2_le).
  pose proof (pow2_pos (-53)) as H53.
  assert (q * pow2 (-53) <= hi * pow2 (-53))%Q
    by (apply Qmult_le_compat_r; lra).
  lra.
Qed.


(** A binary64 number that is not negative rounds to itself. *)
Lemma binary64_exact (q c : Q) :
  (0 <= c)%Q → (q == c)%Q → (round64 c == c)%Q → (c <= 1000000)%Q →
  ∃ r, binary64 q = Fin r ∧ (r == c)%Q.
Proof.
  intros Hc Hq Ec Hbig.
  destruct (binary64_between q c c) as (r & Hr & H1 & H2 & _);
    [done|lra|lra|done..|].
  exists r. split; [done|lra].
Qed.

(** What is not negative rounds to nothing negative, [+inf] included. *)
Lemma binary64_nonneg (q : Q) : (0 <= q)%Q → fle (Fin 0) (binary64 q) = true.
Proof.
  intros Hq. pose proof (round64_nonneg q Hq) as Hr.
  pose proof (pow2_pos 1024) as Hp. unfold binary64.
  destruct (Qle_bool (pow2 1024) (round64 q)); [done|].
  destruct (Qle_bool (round64 q) (- pow2 1024)) eqn:E.
  { apply Qle_bool_iff in E. lra. }
  apply fle_Fin. by rewrite Qred_correct.
Qed.
(** ** Rules for runs *)

Section wp_rules.
Context {A B : Type}.
Implicit Types (Q : A → world → Prop) (E : exn → world → Prop) (w : world).

Lemma wp_ret (a : A) Q E w : Q a w → wp (mret a) Q E w.
Proof. done. Qed.

Lemma wp_bind (m : Py A) (f : A → Py B) (R : B → world → Prop) E w :
  wp m (λ a w', wp (f a) R E w') E w → wp (m ≫= f) R E w.
Proof.
  unfold wp, mbind, Py_bind. destruct (m w) as [[a|e] w']; done.
Qed.

Lemma wp_mono (m : Py A) Q Q' E E' w :
  wp m Q E w → (∀ a w', Q a w' → Q' a w') → (∀ e w', E e w' → E' e w') →
  wp m Q' E' w.
Proof.
  unfold wp. destruct (m w) as [[a|e] w']; eauto.
Qed.

Lemma wp_lift (r : result A) Q E w :
  match r with Ok a => Q a w | Raise e => E e w end → wp (lift r) Q E w.
Proof. done. Qed.
End wp_rules.

Lemma wp_deref (l : nat) (d : DataFrame) Q E w :
  heap w !! l = Some d → Q d w → wp (deref l) Q E w.
Proof. unfold wp, deref. by intros ->. Qed.

Lemma wp_alloc (d : DataFrame) Q E w :
  Q (length (heap w)) (mkWorld (heap w ++ [d]) (output w)) → wp (alloc d) Q E w.
Proof. done. Qed.

Lemma wp_store (l : nat) (d : DataFrame) Q E w :
  Q () (mkWorld (<[l := d]> (heap w)) (output w)) → wp (store l d) Q E w.
Proof. done. Qed.

Lemma wp_emit (e : event) Q E w :
  Q () (mkWorld (heap w) (output w ++ [e])) → wp (emit e) Q E w.
Proof. done. Qed.

#[export] Instance extends_refl : Reflexive extends.
Proof. by intros w. Qed.

#[export] Instance extends_trans : Transitive extends.
Proof.
  intros w1 w2 w3 [H1 O1] [H2 O2]. split; [by etrans | congruence].
Qed.

Lemma extends_lookup w w' l d :
  extends w w' → heap w !! l = Some d → heap w' !! l = Some d.
Proof. intros [[k ->] _] Hl. by apply lookup_app_l_Some. Qed.

Lemma extends_alloc w d :
  extends w (mkWorld (heap w ++ [d]) (output w)).
Proof. split; [by apply prefix_app_r | done]. Qed.

Lemma lookup_alloc (h : list DataFrame) d : (h ++ [d]) !! length h = Some d.
Proof. by rewrite lookup_app_r, Nat.sub_diag by lia. Qed.

(** ** Row selection *)

Lemma select_fmap {A} (p : A → bool) (l : list A) :
  select l (p <$> l) = filter (λ x, p x = true) l.
Proof.
  induction l as [|x l IH]; [done|]. cbn [fmap list_fmap select].
  rewrite filter_cons. destruct (p x) eqn:Hp.
  - rewrite decide_True by done. by f_equal.
  - rewrite decide_False by congruence. done.
Qed.

Lemma mask_and_fmap {A} (f g : A → bool) (l : list A) :
  mask_and (f <$> l) (g <$> l) = (λ x, f x && g x) <$> l.
Proof. unfold mask_and. induction l; [done|]. cbn. by f_equal. Qed.

Lemma filter_andb {A} (p q : A → bool) (l : list A) :
  filter (λ x, q x = true) (filter (λ x, p x = true) l)
  = filter (λ x, p x && q x = true) l.
Proof.
  rewrite list_filter_filter. apply list_filter_iff.
  intros x. rewrite andb_true_iff. tauto.
Qed.

Lemma filter_all {A} (P : A → Prop) `{!∀ x, Decision (P x)} (l : list A) :
  (∀ x, P x) → filter P l = l.
Proof.
  intros HP. induction l as [|x l IH]; [done|].
  rewrite filter_cons_True by done. by f_equal.
Qed.

Lemma filter_all' {A} (P : A → Prop) `{!∀ x, Decision (P x)} (l : list A) :
  Forall P l → filter P l = l.
Proof.
  induction 1 as [|x l Hx Hl IH]; [done|].
  rewrite filter_cons_True by done. by f_equal.
Qed.

Lemma filter_none {A} (P : A → Prop) `{!∀ x, Decision (P x)} (l : list A) :
  (∀ x, ¬ P x) → filter P l = [].
Proof.
  intros HP. induction l as [|x l IH]; [done|].
  by rewrite filter_cons_False.
Qed.

Lemma getitem_ok (d : DataFrame) (c : string) :
  c ∈ columns d → getitem d c = Ok (cell c <$> rows d).
Proof. intros H. unfold getitem. by rewrite bool_decide_eq_true_2. Qed.

Lemma getitem_missing (d : DataFrame) (c : string) :
  c ∉ columns d → getitem d c = Raise (KeyError c).
Proof. intros H. unfold getitem. by rewrite bool_decide_eq_false_2. Qed.

(** ** Object operations *)

Lemma wp_df_copy (l : nat) (d : DataFrame) Q E w :
  heap w !! l = Some d →
  Q (length (heap w)) (mkWorld (heap w ++ [d]) (output w)) →
  wp (df_copy l) Q E w.
Proof.
  intros Hl HQ. unfold df_copy. apply wp_bind. eapply wp_deref; [done|].
  by apply wp_alloc.
Qed.

Lemma wp_df_getitem (l : nat) (d : DataFrame) (c : string) Q E w :
  heap w !! l = Some d → c ∈ columns d →
  Q (cell c <$> rows d) w →
  wp (df_getitem l c) Q E w.
Proof.
  intros Hl Hc HQ. unfold df_getitem. apply wp_bind. eapply wp_deref; [done|].
  apply wp_lift. by rewrite getitem_ok.
Qed.

Lemma wp_df_getitem_mask (l : nat) (d : DataFrame) (mask : list bool) Q E w :
  heap w !! l = Some d →
  Q (length (heap w)) (mkWorld (heap w ++ [getitem_mask d mask]) (output w)) →
  wp (df_getitem_mask l mask) Q E w.
Proof.
  intros Hl HQ. unfold df_getitem_mask. apply wp_bind.
  eapply wp_deref; [done|]. by apply wp_alloc.
Qed.

(** [filter_isin] leaves a frame with the same columns and exactly the
    rows that the selection keeps; the frame is the given object when
    nothing is selected and a new object otherwise. *)
Lemma wp_filter_isin (l : nat) (d : DataFrame) (c : string) (sel : list value) Q E w :
  heap w !! l = Some d → c ∈ columns d →
  (∀ l' w' d', heap w' !! l' = Some d' → columns d' = columns d →
     rows d' = filter (λ r, selected sel (cell c r) = true) (rows d) →
     extends w w' → l' = l ∨ length (heap w) ≤ l' → Q l' w') →
  wp (filter_isin l c sel) Q E w.
Proof.
  intros Hl Hc HQ. unfold filter_isin. destruct sel as [|v sel].
  - apply wp_ret. eapply HQ; [done..| |done|by left]. cbn.
    symmetry. by apply filter_all.
  - apply wp_bind. eapply wp_df_getitem; [done..|].
    eapply wp_df_getitem_mask; [done|].
    eapply HQ; [apply lookup_alloc | done | | apply extends_alloc | by right].
    cbn [rows getitem_mask].
    unfold isin. rewrite <- list_fmap_compose. apply select_fmap.
Qed.

(** The two filtered views after "APPLY FILTERS": new objects, distinct
    from each other, holding the rows of the loaded tables that
    [keep_loan] and [keep_txn] keep. *)
Lemma wp_apply_filters (i : inputs) (loan_df txn_df : nat) (L T : DataFrame) Q E w :
  heap w !! loan_df = Some L → heap w !! txn_df = Some T →
  "loan_type" ∈ columns L → "employment_status" ∈ columns L →
  "gender" ∈ columns L → "application_date" ∈ columns L →
  "device_used" ∈ columns T → "State" ∈ columns T →
  (∀ fl ft w' FL FT,
     heap w' !! fl = Some FL → heap w' !! ft = Some FT →
     columns FL = columns L → columns FT = columns T →
     rows FL = filter (λ r, keep_loan i r = true) (rows L) →
     rows FT = filter (λ r, keep_txn i r = true) (rows T) →
     extends w w' → length (heap w) ≤ fl → length (heap w) ≤ ft → fl ≠ ft →
     Q (fl, ft) w') →
  wp (apply_filters i loan_df txn_df) Q E w.
Proof.
  intros HL HT C1 C2 C3 C4 C5 C6 HQ. unfold apply_filters.
  apply wp_bind. eapply wp_df_copy; [done|].
  set (w1 := mkWorld (heap w ++ [L]) (output w)).
  assert (extends w w1) as X1 by apply extends_alloc.
  assert (heap w1 !! length (heap w) = Some L) as HL1 by apply lookup_alloc.
  apply wp_bind. eapply wp_df_copy; [by eapply extends_lookup|].
  set (w2 := mkWorld (heap w1 ++ [T]) (output w1)).
  assert (extends w1 w2) as X2 by apply extends_alloc.
  assert (heap w2 !! length (heap w1) = Some T) as HT2 by apply lookup_alloc.
  assert (length (heap w1) = S (length (heap w))) as Len1
    by (cbn; rewrite length_app; cbn; lia).
  apply wp_bind. eapply wp_filter_isin; [by eapply extends_lookup|done|].
  intros l3 w3 d3 H3 Cd3 R3 X3 F3.
  apply wp_bind. eapply wp_filter_isin; [done|by rewrite Cd3|].
  intros l4 w4 d4 H4 Cd4 R4 X4 F4.
  apply wp_bind. eapply wp_filter_isin; [done|by rewrite Cd4, Cd3|].
  intros l5 w5 d5 H5 Cd5 R5 X5 F5.
  assert (extends w2 w5) as X25 by (etrans; [|done]; by etrans).
  apply wp_bind. eapply wp_filter_isin; [by eapply extends_lookup|done|].
  intros l6 w6 d6 H6 Cd6 R6 X6 F6.
  apply wp_bind. eapply wp_filter_isin; [done|by rewrite Cd6|].
  intros l7 w7 d7 H7 Cd7 R7 X7 F7.
  assert (extends w5 w7) as X57 by by etrans.
  destruct (date_range i) as [start_date end_date] eqn:Hrange.
  assert (heap w7 !! l5 = Some d5) as H5' by by eapply extends_lookup.
  assert ("application_date" ∈ columns d5) as Cdate by by rewrite Cd5, Cd4, Cd3.
  apply wp_bind. eapply wp_df_getitem; [done..|].
  apply wp_bind. eapply wp_df_getitem; [done..|].
  apply wp_bind. eapply wp_df_getitem_mask; [done|].
  apply wp_ret.
  assert (length (heap w2) ≤ length (heap w5)) as Len25
    by (destruct X25 as [P _]; by apply prefix_length).
  assert (length (heap w5) ≤ length (heap w7)) as Len57
    by (destruct X57 as [P _]; by apply prefix_length).
  assert (length (heap w2) = S (S (length (heap w)))) as Len2
    by (cbn; rewrite !length_app; cbn; lia).
  assert (l7 < length (heap w7)) as Lt7 by by eapply lookup_lt_Some.
  set (w8 := mkWorld _ _).
  assert (extends w7 w8) as X8 by apply extends_alloc.
  eapply (HQ _ _ w8); [apply lookup_alloc | by eapply extends_lookup | ..].
  - cbn. by rewrite Cd5, Cd4, Cd3.
  - by rewrite Cd7, Cd6.
  - cbn [rows getitem_mask].
    unfold ge_time, le_time.
    rewrite <- !list_fmap_compose, mask_and_fmap, select_fmap.
    rewrite R5, R4, R3, !filter_andb.
    apply list_filter_iff. intros r. unfold keep_loan, in_range, compose.
    rewrite Hrange. cbn [fst snd].
    destruct (cell "application_date" r); cbn [andb];
      by rewrite ?andb_false_r, ?andb_assoc.
  - rewrite R7, R6, filter_andb. done.
  - etrans; [|done]. etrans; [|done]. etrans; [|done]. by etrans.
  - lia.
  - destruct F7 as [->|F7]; [destruct F6 as [->|F6]|]; try lia.
    assert (length (heap w5) ≤ length (heap w6))
      by (destruct X6 as [P _]; by apply prefix_length). lia.
  - lia.
Qed.

Lemma wp_run {A} (m : Py A) (Q : A → world → Prop) (w : world) :
  wp m Q (λ _ _, False) w → ∃ a w', m w = (Ok a, w') ∧ Q a w'.
Proof.
  unfold wp. destruct (m w) as [[a|e] w']; [|done]. intros HQ. by exists a, w'.
Qed.

Lemma DataFrame_eq (d d' : DataFrame) :
  columns d = columns d' → rows d = rows d' → d = d'.
Proof. destruct d, d'; cbn; by intros -> ->. Qed.

Lemma selected_spec (sel : list value) (v : value) :
  selected sel v = true ↔ sel = [] ∨ ∃ s, s ∈ sel ∧ same_value v s = true.
Proof.
  destruct sel as [|s0 sel]; [by split; [left|]|].
  unfold selected. rewrite existsb_exists. split.
  - intros (s & Hin & Hs). right. exists s. by rewrite list_elem_of_In.
  - intros [?|(s & Hin & Hs)]; [done|]. exists s. by rewrite <- list_elem_of_In.
Qed.

Lemma in_range_spec (range : Z * Z) (v : value) :
  in_range range v = true ↔ ∃ t, v = VTime t ∧ (range.1 ≤ t ≤ range.2)%Z.
Proof.
  destruct v as [s|x|t]; cbn.
  - split; [done | by intros (? & ? & _)].
  - split; [done | by intros (? & ? & _)].
  - rewrite andb_true_iff, !Z.leb_le. split.
    + intros [? ?]. by exists t.
    + intros (t' & [= <-] & ?). lia.
Qed.

(** C5. For every choice of the five selections and of the date range,
    the script's filter step returns two views whose rows are exactly the
    rows of the loaded tables that satisfy every active predicate, in the
    order of the table: a loan is kept when, for loan type, employment
    status and gender, nothing is selected or its cell is among the
    selected values, and its application timestamp lies between the two
    ends of the range, ends included; a transaction is kept when the same
    holds for device and State. *)
Theorem filtered_views_exact (i : inputs) (w : world) (loan_df txn_df : nat)
    (L T : DataFrame) :
  heap w !! loan_df = Some L → heap w !! txn_df = Some T →
  "loan_type" ∈ columns L → "employment_status" ∈ columns L →
  "gender" ∈ columns L → "application_date" ∈ columns L →
  "device_used" ∈ columns T → "State" ∈ columns T →
  ∃ fl ft w' FL FT,
    apply_filters i loan_df txn_df w = (Ok (fl, ft), w') ∧
    heap w' !! fl = Some FL ∧ heap w' !! ft = Some FT ∧
    columns FL = columns L ∧ columns FT = columns T ∧
    rows FL = filter (λ r, keep_loan i r = true) (rows L) ∧
    rows FT = filter (λ r, keep_txn i r = true) (rows T) ∧
    rows FL `sublist_of` rows L ∧ rows FT `sublist_of` rows T ∧
    (∀ r, r ∈ rows FL ↔
       r ∈ rows L ∧
       (loan_type_filter i = [] ∨
        ∃ s, s ∈ loan_type_filter i ∧ same_value (cell "loan_type" r) s = true) ∧
       (employment_filter i = [] ∨
        ∃ s, s ∈ employment_filter i ∧ same_value (cell "employment_status" r) s = true) ∧
       (gender_filter i = [] ∨
        ∃ s, s ∈ gender_filter i ∧ same_value (cell "gender" r) s = true) ∧
       (∃ t, cell "application_date" r = VTime t ∧
             ((date_range i).1 ≤ t ≤ (date_range i).2)%Z)) ∧
    (∀ r, r ∈ rows FT ↔
       r ∈ rows T ∧
       (device_filter i = [] ∨
        ∃ s, s ∈ device_filter i ∧ same_value (cell "device_used" r) s = true) ∧
       (state_filter i = [] ∨
        ∃ s, s ∈ state_filter i ∧ same_value (cell "State" r) s = true)).
Proof.
  intros HL HT C1 C2 C3 C4 C5 C6.
  destruct (wp_run (apply_filters i loan_df txn_df)
    (λ a w', ∃ FL FT,
       heap w' !! a.1 = Some FL ∧ heap w' !! a.2 = Some FT ∧
       columns FL = columns L ∧ columns FT = columns T ∧
       rows FL = filter (λ r, keep_loan i r = true) (rows L) ∧
       rows FT = filter (λ r, keep_txn i r = true) (rows T)) w)
    as ([fl ft] & w' & Hrun & FL & FT & HFL & HFT & CL & CT & RL & RT).
  { eapply wp_apply_filters; [done..|]. intros. by eexists _, _. }
  exists fl, ft, w', FL, FT. split_and!; try done.
  - rewrite RL. apply sublist_filter.
  - rewrite RT. apply sublist_filter.
  - intros r. rewrite RL, list_elem_of_filter. unfold keep_loan.
    rewrite !andb_true_iff, !selected_spec, in_range_spec. tauto.
  - intros r. rewrite RT, list_elem_of_filter. unfold keep_txn.
    rewrite !andb_true_iff, !selected_spec. tauto.
Qed.

(** C10. The two views are filtered independently: two runs of the
    filter step that agree on the device and State selections give the
    same transaction view, whatever their loan selections and date
    ranges; two runs that agree on loan type, employment status, gender
    and date range give the same loan view, whatever their device and
    State selections; and with no device and no State selected the
    transaction view is the whole transaction table for every date
    range. *)
Theorem views_filtered_independently (i j : inputs) (w : world)
    (loan_df txn_df : nat) (L T : DataFrame) :
  heap w !! loan_df = Some L → heap w !! txn_df = Some T →
  "loan_type" ∈ columns L → "employment_status" ∈ columns L →
  "gender" ∈ columns L → "application_date" ∈ columns L →
  "device_used" ∈ columns T → "State" ∈ columns T →
  ∃ fl ft w1 FL FT gl gt w2 GL GT,
    apply_filters i loan_df txn_df w = (Ok (fl, ft), w1) ∧
    heap w1 !! fl = Some FL ∧ heap w1 !! ft = Some FT ∧
    apply_filters j loan_df txn_df w = (Ok (gl, gt), w2) ∧
    heap w2 !! gl = Some GL ∧ heap w2 !! gt = Some GT ∧
    (device_filter i = device_filter j → state_filter i = state_filter j →
     FT = GT) ∧
    (loan_type_filter i = loan_type_filter j →
     employment_filter i = employment_filter j →
     gender_filter i = gender_filter j → date_range i = date_range j →
     FL = GL) ∧
    (device_filter i = [] → state_filter i = [] → FT = T).
Proof.
  intros HL HT C1 C2 C3 C4 C5 C6.
  pose (post := λ (k : inputs) (a : nat * nat) (w' : world), ∃ FL FT,
       heap w' !! a.1 = Some FL ∧ heap w' !! a.2 = Some FT ∧
       columns FL = columns L ∧ columns FT = columns T ∧
       rows FL = filter (λ r, keep_loan k r = true) (rows L) ∧
       rows FT = filter (λ r, keep_txn k r = true) (rows T)).
  destruct (wp_run (apply_filters i loan_df txn_df) (post i) w)
    as ([fl ft] & w1 & Hrun1 & FL & FT & HFL & HFT & CL & CT & RL & RT).
  { eapply wp_apply_filters; [done..|]. intros. by eexists _, _. }
  destruct (wp_run (apply_filters j loan_df txn_df) (post j) w)
    as ([gl gt] & w2 & Hrun2 & GL & GT & HGL & HGT & CL' & CT' & RL' & RT').
  { eapply wp_apply_filters; [done..|]. intros. by eexists _, _. }
  exists fl, ft, w1, FL, FT, gl, gt, w2, GL, GT.
  split_and!; try done.
  - intros Hd Hs. apply DataFrame_eq; [congruence|].
    rewrite RT, RT'. unfold keep_txn. by rewrite Hd, Hs.
  - intros H1 H2 H3 H4. apply DataFrame_eq; [congruence|].
    rewrite RL, RL'. unfold keep_loan. by rewrite H1, H2, H3, H4.
  - intros Hd Hs. apply DataFrame_eq; [done|].
    rewrite RT. unfold keep_txn. rewrite Hd, Hs. by apply filter_all.
Qed.

(** ** Frame rules: which objects a run can change *)

Section safe_rules.
Context (h : list DataFrame) (o : list event).

Lemma safe_ret {A} (a : A) (P : A → Prop) : P a → safe h o (mret a) P.
Proof. intros HP w Hw. by apply wp_ret. Qed.

Lemma safe_bind {A B} (m : Py A) (f : A → Py B) (P : A → Prop) (R : B → Prop) :
  safe h o m P → (∀ a, P a → safe h o (f a) R) → safe h o (m ≫= f) R.
Proof.
  intros Hm Hf w Hw. apply wp_bind. eapply wp_mono; [by apply Hm| |done].
  intros a w' [Ha Hw']. by apply Hf.
Qed.

Lemma safe_lift {A} (r : result A) (P : A → Prop) :
  (∀ a, P a) → safe h o (lift r) P.
Proof. intros HP w Hw. apply wp_lift. by destruct r. Qed.

Lemma safe_deref (l : nat) (P : DataFrame → Prop) :
  (∀ d, P d) → safe h o (deref l) P.
Proof.
  intros HP w Hw. unfold wp, deref. by destruct (heap w !! l).
Qed.

Lemma safe_alloc (d : DataFrame) (P : nat → Prop) :
  (∀ l, length h ≤ l → P l) → safe h o (alloc d) P.
Proof.
  intros HP w [Hw Ho]. apply wp_alloc. split.
  - apply HP. by apply prefix_length.
  - split; [by apply prefix_app_r | done].
Qed.

Lemma safe_store (l : nat) (d : DataFrame) :
  length h ≤ l → safe h o (store l d) (λ _, True).
Proof.
  intros Hl w [[k Hk] Ho]. apply wp_store. split; [done|].
  split; [|done]. cbn. rewrite Hk.
  rewrite insert_app_r_alt by done. by apply prefix_app_r.
Qed.

Lemma safe_emit (e : event) : safe h o (emit e) (λ _, True).
Proof.
  intros w [Hw Ho]. apply wp_emit. split; [done|].
  split; [done | by apply prefix_app_r].
Qed.

Lemma safe_df_copy (l : nat) (P : nat → Prop) :
  (∀ l', length h ≤ l' → P l') → safe h o (df_copy l) P.
Proof.
  intros HP. eapply safe_bind; [apply safe_deref; intros; exact I|].
  intros d _. by apply safe_alloc.
Qed.

Lemma safe_df_getitem (l : nat) (c : string) (P : list value → Prop) :
  (∀ s, P s) → safe h o (df_getitem l c) P.
Proof.
  intros HP. eapply safe_bind; [apply safe_deref; intros; exact I|].
  intros d _. by apply safe_lift.
Qed.

Lemma safe_df_getitem_mask (l : nat) (mask : list bool) (P : nat → Prop) :
  (∀ l', length h ≤ l' → P l') → safe h o (df_getitem_mask l mask) P.
Proof.
  intros HP. eapply safe_bind; [apply safe_deref; intros; exact I|].
  intros d _. by apply safe_alloc.
Qed.

Lemma safe_df_setitem (l : nat) (c : string) (s : list value) :
  length h ≤ l → safe h o (df_setitem l c s) (λ _, True).
Proof.
  intros Hl. eapply safe_bind; [apply safe_deref; intros; exact I|].
  intros d _. by apply safe_store.
Qed.
End safe_rules.

(** One step of a frame proof: split a sequence, or close a primitive
    step; a changed object must be known to lie outside [h]. *)
Ltac safe_prim :=
  first
    [ apply safe_emit
    | apply safe_df_setitem; lia
    | apply safe_df_getitem
    | apply safe_df_copy
    | apply safe_df_getitem_mask
    | apply safe_deref
    | apply safe_lift
    | apply safe_store; lia
    | apply safe_alloc
    | apply safe_ret ].

Ltac safe_seq :=
  repeat (eapply safe_bind; [safe_prim; try (intros; exact I)|intros ? _]).

Lemma safe_filter_isin h o (l : nat) (c : string) (sel : list value) :
  length h ≤ l → safe h o (filter_isin l c sel) (λ l', length h ≤ l').
Proof.
  intros Hl. unfold filter_isin. destruct sel; [by apply safe_ret|].
  eapply safe_bind; [apply safe_df_getitem; intros; exact I|]. intros s _.
  by apply safe_df_getitem_mask.
Qed.

Lemma safe_apply_filters h o (i : inputs) (loan_df txn_df : nat) :
  safe h o (apply_filters i loan_df txn_df) (λ p, length h ≤ p.1 ∧ length h ≤ p.2).
Proof.
  unfold apply_filters.
  eapply safe_bind; [apply safe_df_copy; intros l Hl; exact Hl|]. intros l1 H1.
  eapply safe_bind; [apply safe_df_copy; intros l Hl; exact Hl|]. intros t1 T1.
  eapply safe_bind; [by apply safe_filter_isin|]. intros l2 H2.
  eapply safe_bind; [by apply safe_filter_isin|]. intros l3 H3.
  eapply safe_bind; [by apply safe_filter_isin|]. intros l4 H4.
  eapply safe_bind; [by apply safe_filter_isin|]. intros t2 T2.
  eapply safe_bind; [by apply safe_filter_isin|]. intros t3 T3.
  destruct (date_range i) as [start_date end_date].
  eapply safe_bind; [apply safe_df_getitem; intros; exact I|]. intros d1 _.
  eapply safe_bind; [apply safe_df_getitem; intros; exact I|]. intros d2 _.
  eapply safe_bind; [apply safe_df_getitem_mask; intros l Hl; exact Hl|].
  intros l5 H5. by apply safe_ret.
Qed.

Lemma safe_multiselect h o (label : string) (df : nat) (c : string) :
  safe h o (multiselect label df c) (λ _, True).
Proof. unfold multiselect. safe_seq. by safe_prim. Qed.

Lemma safe_sidebar h o (loan_df txn_df : nat) :
  safe h o (sidebar loan_df txn_df) (λ _, True).
Proof.
  unfold sidebar.
  repeat (eapply safe_bind; [apply safe_multiselect|intros _ _]).
  safe_seq. by safe_prim.
Qed.

Lemma safe_executive_page h o (filtered_loans : nat) :
  length h ≤ filtered_loans → safe h o (executive_page filtered_loans) (λ _, True).
Proof. intros Hl. unfold executive_page. safe_seq. by safe_prim. Qed.

Lemma safe_fraud_page h o (filtered_loans filtered_txns : nat) :
  length h ≤ filtered_loans → length h ≤ filtered_txns →
  safe h o (fraud_page filtered_loans filtered_txns) (λ _, True).
Proof. intros Hl Ht. unfold fraud_page. safe_seq. by safe_prim. Qed.

Lemma safe_behavioral_page h o (filtered_loans filtered_txns : nat) :
  length h ≤ filtered_loans → length h ≤ filtered_txns →
  safe h o (behavioral_page filtered_loans filtered_txns) (λ _, True).
Proof. intros Hl Ht. unfold behavioral_page. safe_seq. by safe_prim. Qed.

Lemma safe_body h o (i : inputs) (loan_df txn_df : nat) :
  safe h o (body i loan_df txn_df) (λ _, True).
Proof.
  unfold body.
  eapply safe_bind; [apply safe_sidebar|]. intros _ _.
  eapply safe_bind; [apply safe_apply_filters|]. intros [fl ft] [Hl Ht].
  cbn in Hl, Ht.
  repeat case_match;
    auto using safe_executive_page, safe_fraud_page, safe_behavioral_page.
  by apply safe_ret.
Qed.

Lemma safe_state_extraction h o (txn_df : nat) :
  length h ≤ txn_df → safe h o (state_extraction txn_df) (λ _, True).
Proof.
  intros Hl. unfold state_extraction.
  eapply safe_bind; [apply safe_deref; intros; exact I|]. intros d _.
  case_match; [|apply safe_emit].
  safe_seq. by safe_prim.
Qed.

Lemma safe_script h o (i : inputs) (cache_loans cache_txns : nat) :
  safe h o (script i cache_loans cache_txns) (λ _, True).
Proof.
  unfold script, load.
  eapply (safe_bind _ _ _ _ (λ _, True)); [|intros [loan_df txn_df] _; apply safe_body].
  eapply safe_bind; [apply safe_df_copy; intros l Hl; exact Hl|]. intros l1 H1.
  eapply safe_bind; [apply safe_df_copy; intros l Hl; exact Hl|]. intros t1 T1.
  eapply safe_bind; [by apply safe_state_extraction|]. intros _ _.
  by apply safe_ret.
Qed.

Lemma safe_run {A} h o (m : Py A) (P : A → Prop) (w : world) :
  safe h o m P → stable h o w → stable h o (m w).2.
Proof.
  intros Hm Hw. specialize (Hm w Hw). unfold wp in Hm.
  destruct (m w) as [[a|e] w']; [by destruct Hm | done].
Qed.

(** C9. The loaded tables are never changed after the load.  Whatever
    the selections and the page, and whether the run ends normally or
    raises, everything after the load (sidebar, filters, page) leaves
    every object that exists after the load as it is, the two loaded
    tables included: filtered views and derived columns live in objects
    created later.  Across any sequence of runs the two cached tables
    keep their columns and rows (the State column is added to the copy
    that a run loads, not to the cached table). *)
Theorem sources_never_mutated :
  (∀ (i : inputs) (loan_df txn_df : nat) (w : world),
     heap w `prefix_of` heap (body i loan_df txn_df w).2) ∧
  (∀ (i : inputs) (loan_df txn_df : nat) (w : world) (L T : DataFrame),
     heap w !! loan_df = Some L → heap w !! txn_df = Some T →
     heap (body i loan_df txn_df w).2 !! loan_df = Some L ∧
     heap (body i loan_df txn_df w).2 !! txn_df = Some T) ∧
  (∀ (runs : list inputs) (loans txns : DataFrame),
     heap (session 0 1 runs (initial loans txns)) !! 0 = Some loans ∧
     heap (session 0 1 runs (initial loans txns)) !! 1 = Some txns).
Proof.
  assert (∀ (i : inputs) (loan_df txn_df : nat) (w : world),
     heap w `prefix_of` heap (body i loan_df txn_df w).2) as Hbody.
  { intros. eapply (safe_run (heap w) []); [apply safe_body | split; [done|apply prefix_nil]]. }
  split_and!; [done| |].
  - intros i loan_df txn_df w L T HL HT.
    destruct (Hbody i loan_df txn_df w) as [k ->].
    split; by apply lookup_app_l_Some.
  - intros runs loans txns.
    assert (∀ w, stable [loans; txns] [] w →
              stable [loans; txns] [] (session 0 1 runs w)) as Hsession.
    { unfold session. induction runs as [|i runs IH]; intros w Hw; [done|].
      cbn [foldl]. apply IH. by eapply safe_run; [apply safe_script|]. }
    destruct (Hsession (initial loans txns)) as [[k ->] _]; [by split; exists []|done].
Qed.

(** ** Running the script step by step *)

Lemma run_bind_ok {A B} (m : Py A) (f : A → Py B) (w w' : world) (a : A) :
  m w = (Ok a, w') → (m ≫= f) w = f a w'.
Proof. unfold mbind, Py_bind. by intros ->. Qed.

Lemma run_bind_raise {A B} (m : Py A) (f : A → Py B) (w w' : world) (e : exn) :
  m w = (Raise e, w') → (m ≫= f) w = (Raise e, w').
Proof. unfold mbind, Py_bind. by intros ->. Qed.

Lemma run_df_copy (l : nat) (d : DataFrame) (w : world) :
  heap w !! l = Some d →
  df_copy l w = (Ok (length (heap w)), mkWorld (heap w ++ [d]) (output w)).
Proof. intros Hl. unfold df_copy, deref, alloc, mbind, Py_bind. by rewrite Hl. Qed.

Lemma run_df_getitem (l : nat) (d : DataFrame) (c : string) (w : world) :
  heap w !! l = Some d → df_getitem l c w = (getitem d c, w).
Proof.
  intros Hl. unfold df_getitem, deref, lift, mbind, Py_bind. by rewrite Hl.
Qed.

Lemma run_multiselect (label : string) (l : nat) (d : DataFrame) (c : string)
    (w : world) :
  heap w !! l = Some d → c ∈ columns d →
  multiselect label l c w
  = (Ok (), mkWorld (heap w)
              (output w ++ [StMultiselect label (unique (cell c <$> rows d))])).
Proof.
  intros Hl Hc. unfold multiselect.
  erewrite run_bind_ok; [|erewrite run_df_getitem by done; by rewrite getitem_ok].
  done.
Qed.

Lemma run_multiselect_missing (label : string) (l : nat) (d : DataFrame)
    (c : string) (w : world) :
  heap w !! l = Some d → c ∉ columns d →
  multiselect label l c w = (Raise (KeyError c), w).
Proof.
  intros Hl Hc. unfold multiselect.
  erewrite run_bind_raise; [done|].
  erewrite run_df_getitem by done. by rewrite getitem_missing.
Qed.

(** C8, evaluated on the code.  When the transaction table has no
    transaction_location column (and no State column of its own), a run
    shows the error box once and skips the derivation of State, and then
    stops: the State filter of the sidebar reads the missing State column
    and raises KeyError.  This happens on every page and for every
    selection, before the filters are applied; no metric and no chart is
    shown. *)
Theorem missing_location_aborts (i : inputs) (L T : DataFrame) :
  "transaction_location" ∉ columns T → "State" ∉ columns T →
  "loan_type" ∈ columns L → "employment_status" ∈ columns L →
  "gender" ∈ columns L → "device_used" ∈ columns T →
  script i 0 1 (initial L T)
  = (Raise (KeyError "State"),
     mkWorld [L; T; L; T]
       [StError "transaction_location column not found in transactions.csv";
        StMultiselect "Loan Type" (unique (cell "loan_type" <$> rows L));
        StMultiselect "Employment Status"
          (unique (cell "employment_status" <$> rows L));
        StMultiselect "Gender" (unique (cell "gender" <$> rows L));
        StMultiselect "Device" (unique (cell "device_used" <$> rows T))]).
Proof.
  intros Hloc Hstate C1 C2 C3 C4. unfold script.
  erewrite run_bind_ok; cycle 1.
  { unfold load, initial.
    erewrite run_bind_ok by (by apply run_df_copy). cbn [heap output length app].
    erewrite run_bind_ok by (by apply run_df_copy). cbn [heap output length app].
    erewrite run_bind_ok; [done|].
    unfold state_extraction, deref. unfold mbind at 1, Py_bind. cbn [heap lookup list_lookup].
    by rewrite bool_decide_eq_false_2. }
  unfold body. erewrite run_bind_raise; [done|].
  unfold sidebar.
  erewrite run_bind_ok by (by apply (run_multiselect _ _ L)). cbn [heap output app].
  erewrite run_bind_ok by (by apply (run_multiselect _ _ L)). cbn [heap output app].
  erewrite run_bind_ok by (by apply (run_multiselect _ _ L)). cbn [heap output app].
  erewrite run_bind_ok by (by apply (run_multiselect _ _ T)). cbn [heap output app].
  erewrite run_bind_raise; [done|].
  by apply (run_multiselect_missing _ _ T).
Qed.

(** ** The sidebar and an empty transaction view *)

Lemma wp_raises {A} (m : Py A) (E : exn → world → Prop) (w : world) :
  wp m (λ _ _, False) E w → ∃ e w', m w = (Raise e, w') ∧ E e w'.
Proof.
  unfold wp. destruct (m w) as [[a|e] w']; [done|]. intros HE. by exists e, w'.
Qed.

Lemma wp_multiselect (label : string) (l : nat) (d : DataFrame) (c : string) Q E w :
  heap w !! l = Some d → c ∈ columns d →
  Q () (mkWorld (heap w)
          (output w ++ [StMultiselect label (unique (cell c <$> rows d))])) →
  wp (multiselect label l c) Q E w.
Proof.
  intros Hl Hc HQ. unfold wp. by erewrite run_multiselect.
Qed.

Definition sidebar_events (L T : DataFrame) : list event :=
  [StMultiselect "Loan Type" (unique (cell "loan_type" <$> rows L));
   StMultiselect "Employment Status" (unique (cell "employment_status" <$> rows L));
   StMultiselect "Gender" (unique (cell "gender" <$> rows L));
   StMultiselect "Device" (unique (cell "device_used" <$> rows T));
   StMultiselect "State" (unique (cell "State" <$> rows T))].

Lemma wp_sidebar (loan_df txn_df : nat) (L T : DataFrame) Q E w :
  heap w !! loan_df = Some L → heap w !! txn_df = Some T →
  "loan_type" ∈ columns L → "employment_status" ∈ columns L →
  "gender" ∈ columns L → "application_date" ∈ columns L →
  "device_used" ∈ columns T → "State" ∈ columns T →
  Q () (mkWorld (heap w) (output w ++ sidebar_events L T)) →
  wp (sidebar loan_df txn_df) Q E w.
Proof.
  intros HL HT C1 C2 C3 C4 C5 C6 HQ. unfold sidebar.
  apply wp_bind. eapply (wp_multiselect _ _ L); [done..|].
  apply wp_bind. eapply (wp_multiselect _ _ L); [done..|].
  apply wp_bind. eapply (wp_multiselect _ _ L); [done..|].
  apply wp_bind. eapply (wp_multiselect _ _ T); [done..|].
  apply wp_bind. eapply (wp_multiselect _ _ T); [done..|].
  apply wp_bind. eapply (wp_df_getitem _ L); [done..|].
  apply wp_ret. cbn [heap output]. by rewrite <- !(assoc_L (++)).
Qed.

Lemma success_rate_empty (ft : DataFrame) :
  rows ft = [] → "fraud_flag" ∈ columns ft →
  success_rate ft = Raise ZeroDivisionError.
Proof.
  intros Hrows Hc. unfold success_rate, rows_where, len.
  rewrite getitem_ok by done. by rewrite Hrows.
Qed.

(** C4, evaluated on the code.  On the page "Behavioral Risk Analysis", a
    selection that keeps no transaction makes the run raise
    ZeroDivisionError: the success rate divides the number of
    non-fraudulent transactions by the number of transactions, without
    the guard that the rates of the other pages have.  The run stops
    before any metric or chart: only the sidebar's filters have been
    shown. *)
Theorem empty_txn_view_raises (i : inputs) (w : world) (loan_df txn_df : nat)
    (L T : DataFrame) :
  heap w !! loan_df = Some L → heap w !! txn_df = Some T →
  "loan_type" ∈ columns L → "employment_status" ∈ columns L →
  "gender" ∈ columns L → "application_date" ∈ columns L →
  "device_used" ∈ columns T → "State" ∈ columns T →
  "customer_id" ∈ columns T → "transaction_amount" ∈ columns T →
  "fraud_flag" ∈ columns T →
  page i = "Behavioral Risk Analysis" →
  filter (λ r, keep_txn i r = true) (rows T) = [] →
  ∃ w', body i loan_df txn_df w = (Raise ZeroDivisionError, w') ∧
        output w' = output w ++ sidebar_events L T.
Proof.
  intros HL HT C1 C2 C3 C4 C5 C6 C7 C8 C9 Hpage Hempty.
  destruct (wp_raises (body i loan_df txn_df)
    (λ e w', e = ZeroDivisionError ∧ output w' = output w ++ sidebar_events L T) w)
    as (e & w' & Hrun & -> & Hout); [|by exists w'].
  unfold body. apply wp_bind. eapply wp_sidebar; [done..|].
  apply wp_bind. eapply wp_apply_filters; [done..|].
  intros fl ft w1 FL FT HFL HFT CL CT RL RT [_ Hout] _ _ _.
  rewrite Hpage. cbn [String.eqb Ascii.eqb Bool.eqb].
  unfold behavioral_page.
  apply wp_bind. eapply wp_deref; [done|].
  apply wp_bind. eapply wp_df_getitem; [done|by rewrite CT|].
  apply wp_bind. eapply wp_df_getitem; [done|by rewrite CT|].
  apply wp_bind. apply wp_lift.
  rewrite success_rate_empty; [done|by rewrite RT|by rewrite CT].
Qed.

(** ** The total fraud rate *)

Lemma len_fraud_rows (df : DataFrame) :
  "fraud_flag" ∈ columns df →
  ∃ fr, fraud_rows df = Ok fr ∧ columns fr = columns df ∧
        rows fr = filter (λ r, flagged r = true) (rows df).
Proof.
  intros Hc. unfold fraud_rows. rewrite getitem_ok by done.
  eexists. split_and!; [done..|]. cbn [rows getitem_mask].
  unfold eq_scalar. rewrite <- list_fmap_compose. apply select_fmap.
Qed.

Lemma of_nat_nonzero (n : nat) : n ≠ 0 → Qeq_bool (inject_Z (Z.of_nat n)) 0 = false.
Proof.
  intros Hn. apply not_true_iff_false. rewrite Qeq_bool_iff.
  unfold Qeq. cbn. lia.
Qed.

Lemma fraction_bounds (part total : nat) :
  part ≤ total → (0 <= fraction part total <= 1)%Q.
Proof.
  intros Hle. unfold fraction. destruct total as [|n]; [split; by unfold Qle|].
  assert (0 < inject_Z (Z.of_nat (S n)))%Q as Hpos by (unfold Qlt; cbn; lia).
  split.
  - apply Qle_shift_div_l; [done|]. unfold Qle. cbn. lia.
  - apply Qle_shift_div_r; [done|]. unfold Qle. cbn. lia.
Qed.

Lemma fraction_full (n : nat) : n ≠ 0 → (fraction n n == 1)%Q.
Proof.
  intros Hn. unfold fraction. destruct n as [|n]; [done|].
  apply Qmult_inv_r. unfold Qeq. cbn. lia.
Qed.

Lemma fraction_none (n : nat) : (fraction 0 n == 0)%Q.
Proof. unfold fraction. destruct n; [done|]. unfold Qdiv. cbn. ring. Qed.

(** *** Rounded arithmetic on fractions and percentages *)

Lemma round64_0 : (round64 0 == 0)%Q.
Proof. by vm_compute. Qed.

Lemma round64_1 : (round64 1 == 1)%Q.
Proof. by vm_compute. Qed.

Lemma round64_2 : (round64 2 == 2)%Q.
Proof. by vm_compute. Qed.

Lemma round64_100 : (round64 100 == 100)%Q.
Proof. by vm_compute. Qed.

Lemma round64_200 : (round64 200 == 200)%Q.
Proof. by vm_compute. Qed.

Lemma round64_1000 : (round64 1000 == 1000)%Q.
Proof. by vm_compute. Qed.

Lemma add64_Fin (x y : Q) : add64 (Fin x) (Fin y) = binary64 (Qred (x + y)).
Proof. done. Qed.

Lemma mul64_Fin (x y : Q) : mul64 (Fin x) (Fin y) = binary64 (Qred (x * y)).
Proof. done. Qed.

Lemma div64_nat (a b : nat) :
  b ≠ 0 →
  div64 (of_nat a) (of_nat b)
  = binary64 (Qred (inject_Z (Z.of_nat a) / inject_Z (Z.of_nat b))).
Proof. intros Hb. unfold div64, fdiv, of_nat, of_Z. by rewrite of_nat_nonzero. Qed.

(** Bounds in absolute value, as two inequalities. *)
Ltac qabs :=
  repeat match goal with
  | H : (Qabs _ <= _)%Q |- _ => apply Qabs_Qle_condition in H
  | |- (Qabs _ <= _)%Q => apply Qabs_Qle_condition
  end.

(** The rounded quotient of a part by its whole lies between 0 and 1,
    within [2 ^ -52] of the exact quotient, and is exact at both ends. *)
Lemma fraction64_value (part total : nat) :
  part ≤ total →
  ∃ a, fraction64 part total = Fin a ∧ (0 <= a <= 1)%Q
       ∧ (Qabs (a - fraction part total) <= 2 * pow2 (-53))%Q
       ∧ (part = 0 → (a == 0)%Q)
       ∧ (part = total → (a == fraction part total)%Q).
Proof.
  intros Hle. pose proof (fraction_bounds part total Hle) as [Hf0 Hf1].
  pose proof (pow2_pos (-53)) as He.
  destruct total as [|n].
  { exists 0%Q. cbn [fraction64 fraction]. split_and!; [done|lra|lra| |done..].
    qabs. split; lra. }
  unfold fraction64. rewrite div64_nat by done.
  set (q := Qred _).
  assert (Hq : (q == fraction part (S n))%Q) by apply Qred_correct.
  destruct (binary64_between q 0 1) as (a & Ha & Ha0 & Ha1 & Herr);
    [lra|lra|lra|apply round64_0|apply round64_1|lra|].
  exists a. split_and!; [done|done|done|..].
  - rewrite <- Hq. eapply Qle_trans; [exact Herr|]. lra.
  - intros ->. destruct (binary64_exact q 0) as (a' & Ha' & Ea);
      [lra|by rewrite Hq, fraction_none|apply round64_0|lra|].
    rewrite Ha in Ha'. injection Ha' as <-. done.
  - intros ->. destruct (binary64_exact q 1) as (a' & Ha' & Ea);
      [lra|by rewrite Hq, fraction_full|apply round64_1|lra|].
    rewrite Ha in Ha'. injection Ha' as <-. by rewrite fraction_full.
Qed.

(** A number between 0 and 1, times a binary64 constant [c]: the rounded
    product lies between 0 and [c], within [(c + 1) * 2 ^ -53] of the
    exact product, and is exact at both ends. *)
Lemma mul64_unit (a c : Q) :
  (0 <= a <= 1)%Q → (0 <= c)%Q → (round64 c == c)%Q → (c <= 1000000)%Q →
  ∃ x, mul64 (Fin a) (Fin c) = Fin x ∧ (0 <= x <= c)%Q
       ∧ (Qabs (x - a * c) <= (c + 1) * pow2 (-53))%Q
       ∧ ((a == 0)%Q → (x == 0)%Q)
       ∧ ((a == 1)%Q → (x == c)%Q).
Proof.
  intros [Ha0 Ha1] Hc Ec Hbig. rewrite mul64_Fin. set (q := Qred _).
  assert (Hq : (q == a * c)%Q) by apply Qred_correct.
  assert (0 <= a * c)%Q by (by apply Qmult_le_0_compat).
  assert (a * c <= 1 * c)%Q by (by apply Qmult_le_compat_r).
  destruct (binary64_between q 0 c) as (x & Hx & Hx0 & Hx1 & Herr);
    [lra|lra|lra|apply round64_0|done..|].
  exists x. split_and!; [done|done|done|..].
  - by rewrite <- Hq.
  - intros E. destruct (binary64_exact q 0) as (x' & Hx' & Ex);
      [lra|rewrite Hq, E; ring|apply round64_0|lra|].
    rewrite Hx in Hx'. injection Hx' as <-. done.
  - intros E. destruct (binary64_exact q c) as (x' & Hx' & Ex);
      [lra|rewrite Hq, E; ring|done..|].
    rewrite Hx in Hx'. injection Hx' as <-. done.
Qed.

(** A part of a whole as a percentage (or per thousand): the rounded
    quotient times the constant [c], rounded.  It lies between 0 and
    [c], within [(3 * c + 1) * 2 ^ -53] of the exact value, and is exact
    at both ends. *)
Lemma fraction64_times (n total : nat) (c : Q) :
  n ≤ total → (0 <= c)%Q → (round64 c == c)%Q → (c <= 1000000)%Q →
  ∃ x, mul64 (fraction64 n total) (Fin c) = Fin x ∧ (0 <= x <= c)%Q
       ∧ (Qabs (x - fraction n total * c) <= (3 * c + 1) * pow2 (-53))%Q
       ∧ (n = 0 → (x == 0)%Q)
       ∧ (n = total → total ≠ 0 → (x == c)%Q).
Proof.
  intros Hle Hc Ec Hbig.
  destruct (fraction64_value n total Hle) as (a & -> & Ha & Ea & Za & Fa).
  destruct (mul64_unit a c Ha Hc Ec Hbig) as (x & -> & Hx & Ex & Zx & Fx).
  pose proof (pow2_pos (-53)) as He.
  exists x. split_and!; [done|apply Hx|apply Hx|..].
  - qabs. destruct Ea as [E1 E2], Ex as [E3 E4].
    assert (- (2 * pow2 (-53)) * c <= (a - fraction n total) * c)%Q
      by (apply Qmult_le_compat_r; lra).
    assert ((a - fraction n total) * c <= 2 * pow2 (-53) * c)%Q
      by (apply Qmult_le_compat_r; lra).
    split; lra.
  - intros Hn. by apply Zx, Za.
  - intros Hn Ht. apply Fx. rewrite (Fa Hn), Hn. by apply fraction_full.
Qed.

(** The sum of two rates, times 100, with every operation rounded. *)
Lemma rate_sum_value (a b : Q) :
  (0 <= a <= 1)%Q → (0 <= b <= 1)%Q →
  ∃ x, mul64 (add64 (Fin a) (Fin b)) (of_Z 100) = Fin x ∧ (0 <= x <= 200)%Q
       ∧ (Qabs (x - (a + b) * 100) <= 501 * pow2 (-53))%Q
       ∧ ((a == 1)%Q → (b == 1)%Q → (x == 200)%Q).
Proof.
  intros [Ha0 Ha1] [Hb0 Hb1]. rewrite add64_Fin. set (q := Qred _).
  assert (Hq : (q == a + b)%Q) by apply Qred_correct.
  pose proof (pow2_pos (-53)) as He.
  destruct (binary64_between q 0 2) as (s & Hs & Hs0 & Hs1 & Herr);
    [lra|lra|lra|apply round64_0|apply round64_2|lra|].
  rewrite Hs. unfold of_Z. rewrite mul64_Fin. set (y := Qred _).
  assert (Hy : (y == s * 100)%Q) by apply Qred_correct.
  destruct (binary64_between y 0 200) as (x & Hx & Hx0 & Hx1 & Herr');
    [lra|lra|lra|apply round64_0|apply round64_200|lra|].
  exists x. split_and!; [done|done|done|..].
  - qabs. split; lra.
  - intros Ea Eb.
    destruct (binary64_exact q 2) as (s' & Hs' & Es);
      [lra|lra|apply round64_2|lra|].
    rewrite Hs in Hs'. injection Hs' as <-.
    destruct (binary64_exact y 200) as (x' & Hx' & Ex);
      [lra|lra|apply round64_200|lra|].
    rewrite Hx in Hx'. injection Hx' as <-. done.
Qed.

Lemma guarded_rate_fraction64 (part total : nat) :
  guarded_rate part total = Ok (fraction64 part total).
Proof.
  unfold guarded_rate, py_div, fraction64. destruct total as [|n].
  - by rewrite bool_decide_eq_false_2 by lia.
  - by rewrite bool_decide_eq_true_2 by lia.
Qed.

Lemma py_div_fraction64 (a b : nat) : b ≠ 0 → py_div a b = Ok (fraction64 a b).
Proof. intros Hb. by destruct b. Qed.

Lemma total_fraud_rate_counts (fl ft : DataFrame) :
  "fraud_flag" ∈ columns fl → "fraud_flag" ∈ columns ft →
  total_fraud_rate fl ft
  = Ok (mul64 (add64 (fraction64 (nfraud fl) (len fl))
                 (fraction64 (nfraud ft) (len ft))) (of_Z 100)).
Proof.
  intros Hl Ht. unfold total_fraud_rate.
  destruct (len_fraud_rows fl Hl) as (frl & -> & _ & Rl).
  destruct (len_fraud_rows ft Ht) as (frt & -> & _ & Rt).
  cbn [mbind result_bind]. rewrite !guarded_rate_fraction64.
  cbn [mbind result_bind]. unfold nfraud, len. by rewrite Rl, Rt.
Qed.

(** The rate is a number between 0 and 200, within [10 ^ -12] of the
    exact value of the formula. *)
Lemma total_fraud_rate_value (fl ft : DataFrame) :
  "fraud_flag" ∈ columns fl → "fraud_flag" ∈ columns ft →
  ∃ x, total_fraud_rate fl ft = Ok (Fin x) ∧ (0 <= x <= 200)%Q
       ∧ (Qabs (x - (fraction (nfraud fl) (len fl)
                     + fraction (nfraud ft) (len ft)) * 100)
          <= 1 # 1000000000000)%Q
       ∧ (len fl ≠ 0 → len ft ≠ 0 → nfraud fl = len fl → nfraud ft = len ft →
          (x == 200)%Q).
Proof.
  intros Hl Ht. rewrite total_fraud_rate_counts by done.
  destruct (fraction64_value (nfraud fl) (len fl)) as (a & -> & Ha & Ea & _ & Fa);
    [apply length_filter|].
  destruct (fraction64_value (nfraud ft) (len ft)) as (b & -> & Hb & Eb & _ & Fb);
    [apply length_filter|].
  destruct (rate_sum_value a b Ha Hb) as (x & -> & Hx & Ex & Fx).
  exists x. split_and!; [done|apply Hx|apply Hx|..].
  - change (pow2 (-53)) with (1 # 9007199254740992)%Q in *.
    qabs. split; lra.
  - intros N1 N2 F1 F2. apply Fx.
    + rewrite (Fa F1), F1. by apply fraction_full.
    + rewrite (Fb F2), F2. by apply fraction_full.
Qed.

Lemma total_fraud_rate_20 (fl ft : DataFrame) :
  "fraud_flag" ∈ columns fl → "fraud_flag" ∈ columns ft →
  len fl = 100 → nfraud fl = 10 → len ft = 200 → nfraud ft = 20 →
  total_fraud_rate fl ft = Ok (Fin 20).
Proof.
  intros Hl Ht L1 L2 T1 T2. rewrite total_fraud_rate_counts by done.
  rewrite L1, L2, T1, T2. by vm_compute.
Qed.

(** Rounding shows: 23 fraudulent transactions of 160, and no loan,
    give the binary64 number next below 14.375, which prints as 14.37,
    where the exact value of the formula prints as 14.38. *)
Lemma total_fraud_rate_23_of_160 (fl ft : DataFrame) :
  "fraud_flag" ∈ columns fl → "fraud_flag" ∈ columns ft →
  len fl = 0 → nfraud fl = 0 → len ft = 160 → nfraud ft = 23 →
  total_fraud_rate fl ft = Ok (Fin (8092405580431359 # 562949953421312))
  ∧ format_f false 2 (Fin (8092405580431359 # 562949953421312)) = "14.37"
  ∧ ((fraction 0 0 + fraction 23 160) * 100 == 115 # 8)%Q
  ∧ format_f false 2 (Fin (115 # 8)) = "14.38".
Proof.
  intros Hl Ht L1 L2 T1 T2. rewrite total_fraud_rate_counts by done.
  rewrite L1, L2, T1, T2. by vm_compute.
Qed.

(** *** Adding a column *)

Lemma setitem_columns (d : DataFrame) (c c' : string) (s : list value) :
  c' ∈ columns d → c' ∈ columns (setitem d c s).
Proof.
  intros Hc. unfold setitem. cbn. case_bool_decide; [done|].
  apply elem_of_app. by left.
Qed.

Lemma setitem_column_new (d : DataFrame) (c : string) (s : list value) :
  c ∈ columns (setitem d c s).
Proof.
  unfold setitem. cbn. case_bool_decide; [done|].
  apply elem_of_app. right. by apply list_elem_of_singleton.
Qed.

Lemma cell_insert_ne (r : gmap string value) (c c' : string) (v : value) :
  c ≠ c' → cell c' (<[c := v]> r) = cell c' r.
Proof. intros H. unfold cell. by rewrite lookup_insert_ne. Qed.

Lemma cell_insert_eq (r : gmap string value) (c : string) (v : value) :
  cell c (<[c := v]> r) = v.
Proof. unfold cell. by rewrite lookup_insert_eq. Qed.

Lemma setitem_other_column (d : DataFrame) (c c' : string) (f : gmap string value → value) :
  c ≠ c' →
  cell c' <$> rows (setitem d c (f <$> rows d)) = cell c' <$> rows d.
Proof.
  intros H. unfold setitem. cbn [rows]. induction (rows d) as [|r l IH]; [done|].
  cbn. rewrite cell_insert_ne by done. by f_equal.
Qed.

Lemma setitem_this_column (d : DataFrame) (c : string) (f : gmap string value → value) :
  cell c <$> rows (setitem d c (f <$> rows d)) = f <$> rows d.
Proof.
  unfold setitem. cbn [rows]. induction (rows d) as [|r l IH]; [done|].
  cbn. rewrite cell_insert_eq. by f_equal.
Qed.

Lemma filter_length_fmap {A B} (g : A → B) (p : B → bool) (l : list A) :
  length (filter (λ x, p (g x) = true) l) = length (filter (λ y, p y = true) (g <$> l)).
Proof.
  induction l as [|x l IH]; [done|]. cbn [fmap list_fmap].
  rewrite !filter_cons. destruct (p (g x)) eqn:Hp.
  - rewrite !decide_True by done. cbn. by rewrite IH.
  - rewrite !decide_False by congruence. done.
Qed.

Lemma nfraud_column (d : DataFrame) :
  nfraud d = length (filter (λ v, value_eqb v (VNum (of_Z 1)) = true)
                       (cell "fraud_flag" <$> rows d)).
Proof.
  unfold nfraud, flagged.
  apply (filter_length_fmap (cell "fraud_flag") (λ v, value_eqb v (VNum (of_Z 1)))).
Qed.

Lemma nfraud_setitem (d : DataFrame) (c : string) (f : gmap string value → value) :
  c ≠ "fraud_flag" → nfraud (setitem d c (f <$> rows d)) = nfraud d.
Proof. intros H. by rewrite !nfraud_column, setitem_other_column. Qed.

Lemma len_setitem (d : DataFrame) (c : string) (f : gmap string value → value) :
  len (setitem d c (f <$> rows d)) = len d.
Proof.
  unfold len. rewrite <- (length_fmap (cell c)), setitem_this_column.
  by rewrite length_fmap.
Qed.

Lemma wp_df_setitem (l : nat) (d : DataFrame) (c : string) (s : list value) Q E w :
  heap w !! l = Some d →
  Q () (mkWorld (<[l := setitem d c s]> (heap w)) (output w)) →
  wp (df_setitem l c s) Q E w.
Proof.
  intros Hl HQ. unfold df_setitem. apply wp_bind. eapply wp_deref; [done|].
  by apply wp_store.
Qed.

Lemma wp_safe {A} h o (m : Py A) (P : A → Prop) Q E w :
  safe h o m P → stable h o w →
  (∀ a w', P a → stable h o w' → Q a w') →
  (∀ e w', stable h o w' → E e w') →
  wp m Q E w.
Proof.
  intros Hm Hw HQ HE. eapply wp_mono; [by apply Hm|..].
  - intros a w' [Ha Hs]. by apply HQ.
  - intros e w' Hs. by apply HE.
Qed.

(** *** The metrics of the fraud page are computed without exception *)

Lemma py_div_ok (a b : nat) : b ≠ 0 → ∃ x, py_div a b = Ok x.
Proof. intros Hb. destruct b; [done|]. by eexists. Qed.

Lemma rows_where_ok (d : DataFrame) (c : string) (v : value) :
  c ∈ columns d → ∃ d', rows_where d c v = Ok d' ∧ columns d' = columns d.
Proof.
  intros Hc. unfold rows_where. rewrite getitem_ok by done. by eexists.
Qed.

Lemma total_fraud_value_ok (a b : DataFrame) :
  "loan_amount_requested" ∈ columns a → "transaction_amount" ∈ columns b →
  ∃ x, total_fraud_value a b = Ok x.
Proof.
  intros Ha Hb. unfold total_fraud_value. rewrite !getitem_ok by done.
  by eexists.
Qed.

Lemma undetected_pct_ok (d : DataFrame) :
  "loan_status" ∈ columns d → ∃ x, undetected_pct d = Ok x.
Proof.
  intros Hc. unfold undetected_pct.
  destruct (rows_where_ok d "loan_status" (VStr "Fraudulent - detected") Hc)
    as (d1 & -> & _).
  destruct (rows_where_ok d "loan_status" (VStr "Fraudulent - Undetected") Hc)
    as (d2 & -> & _).
  cbn [mbind result_bind]. case_bool_decide as Hn; [|by eexists].
  destruct (py_div_ok (len d2) (len d) Hn) as (q & ->). by eexists.
Qed.

Lemma risk_density_ok (d fr : DataFrame) :
  "customer_id" ∈ columns d → ∃ x, risk_density d fr = Ok x.
Proof.
  intros Hc. unfold risk_density. rewrite getitem_ok by done.
  cbn [mbind result_bind]. case_bool_decide as Hn; [|by eexists].
  destruct (py_div_ok (len fr) _ Hn) as (q & ->). by eexists.
Qed.

(** The fraud page shows the metric "Total Fraud Rate" with the rate of
    the two views it is given, whatever happens in the rest of the
    page. *)
Lemma wp_fraud_page_rate (fl ft : nat) (FL FT : DataFrame) (x : float64) w :
  heap w !! fl = Some FL → heap w !! ft = Some FT → fl ≠ ft →
  "debt_to_income_ratio" ∈ columns FL → "fraud_flag" ∈ columns FL →
  "loan_amount_requested" ∈ columns FL → "loan_status" ∈ columns FL →
  "customer_id" ∈ columns FL →
  "transaction_location" ∈ columns FT → "fraud_flag" ∈ columns FT →
  "transaction_amount" ∈ columns FT →
  total_fraud_rate FL FT = Ok x →
  let shown w' :=
    StMetric "Total Fraud Rate" (String.append (format_f false 2 x) "%") ∈ output w' in
  wp (fraud_page fl ft) (λ _, shown) (λ _, shown) w.
Proof.
  intros HFL HFT Hne C1 C2 C3 C4 C5 D1 D2 D3 Hrate shown. unfold fraud_page.
  assert (fl < length (heap w)) as Lfl by by eapply lookup_lt_Some.
  assert (ft < length (heap w)) as Lft by by eapply lookup_lt_Some.
  apply wp_bind. eapply wp_df_getitem; [done..|].
  apply wp_bind. eapply wp_df_setitem; [done|].
  apply wp_bind. eapply wp_df_getitem;
    [cbn [heap]; by rewrite list_lookup_insert_ne|done|].
  apply wp_bind. eapply wp_df_setitem;
    [cbn [heap]; by rewrite list_lookup_insert_ne|].
  rewrite <- !list_fmap_compose.
  set (FT1 := setitem FT "State" _). set (FL1 := setitem FL "DTI_Risk_Category" _).
  apply wp_bind. eapply (wp_deref _ FL1);
    [cbn [heap]; rewrite list_lookup_insert_eq; [done|by rewrite length_insert]|].
  apply wp_bind. eapply (wp_deref _ FT1);
    [cbn [heap]; rewrite list_lookup_insert_ne by done;
     by rewrite list_lookup_insert_eq|].
  assert ("fraud_flag" ∈ columns FL1) as E2 by by apply setitem_columns.
  assert ("fraud_flag" ∈ columns FT1) as F2 by by apply setitem_columns.
  destruct (len_fraud_rows FL1 E2) as (frl & Hfrl & Cfrl & _).
  destruct (len_fraud_rows FT1 F2) as (frt & Hfrt & Cfrt & _).
  apply wp_bind, wp_lift. rewrite Hfrl.
  apply wp_bind, wp_lift. rewrite Hfrt.
  apply wp_bind, wp_lift.
  assert (total_fraud_rate FL1 FT1 = Ok x) as ->.
  { rewrite total_fraud_rate_counts by done.
    rewrite total_fraud_rate_counts in Hrate by done.
    unfold FL1, FT1. by rewrite !nfraud_setitem, !len_setitem. }
  destruct (total_fraud_value_ok frl frt) as (v & ->);
    [rewrite Cfrl; by apply setitem_columns
    |rewrite Cfrt; by apply setitem_columns|].
  apply wp_bind, wp_lift.
  destruct (undetected_pct_ok frl) as (u & ->);
    [rewrite Cfrl; by apply setitem_columns|].
  apply wp_bind, wp_lift.
  destruct (risk_density_ok FL1 frl) as (rd & ->); [by apply setitem_columns|].
  apply wp_bind, wp_lift.
  apply wp_bind, wp_emit.
  eapply (wp_safe [] (output w ++
            [StMetric "Total Fraud Rate" (String.append (format_f false 2 x) "%")])).
  - safe_seq. safe_prim.
  - split; [apply prefix_nil | done].
  - intros _ w' _ [_ [k Hk]]. unfold shown. rewrite Hk. set_solver.
  - intros _ w' [_ [k Hk]]. unfold shown. rewrite Hk. set_solver.
Qed.

(** The State column as the load derives it. *)
Definition with_state (T : DataFrame) : DataFrame :=
  setitem T "State"
    ((λ r, str_map state_of_location (astype_str (cell "transaction_location" r)))
       <$> rows T).

Lemma wp_load (cache_loans cache_txns : nat) (L T : DataFrame) Q E w :
  heap w !! cache_loans = Some L → heap w !! cache_txns = Some T →
  "transaction_location" ∈ columns T →
  Q (length (heap w), S (length (heap w)))
    (mkWorld (heap w ++ [L; with_state T]) (output w)) →
  wp (load cache_loans cache_txns) Q E w.
Proof.
  intros HL HT Hc HQ. unfold load.
  apply wp_bind. eapply wp_df_copy; [done|].
  apply wp_bind. eapply wp_df_copy; [cbn; by apply lookup_app_l_Some|].
  cbn [heap output]. rewrite length_app, Nat.add_1_r.
  apply wp_bind. unfold state_extraction.
  assert (((heap w ++ [L]) ++ [T]) !! S (length (heap w)) = Some T) as HT'.
  { rewrite lookup_app_r; rewrite length_app, Nat.add_1_r; [|done].
    by rewrite Nat.sub_diag. }
  apply wp_bind. eapply wp_deref; [done|].
  rewrite bool_decide_eq_true_2 by done.
  apply wp_bind. eapply wp_df_getitem; [done..|].
  eapply wp_df_setitem; [done|]. apply wp_ret.
  cbn [heap output]. rewrite <- !list_fmap_compose.
  replace (<[S (length (heap w)):=_]> ((heap w ++ [L]) ++ [T]))
    with (heap w ++ [L; with_state T]); [done|].
  rewrite insert_app_r_alt; rewrite length_app, Nat.add_1_r; [|done].
  rewrite Nat.sub_diag. cbn. by rewrite <- (assoc_L (++)).
Qed.

Lemma wp_final {A} (m : Py A) (R : world → Prop) (w : world) :
  wp m (λ _, R) (λ _, R) w → R (m w).2.
Proof. unfold wp. by destruct (m w) as [[a|e] w']. Qed.

Lemma filter_keep_all {A} (p : A → bool) (l : list A) :
  Forall (λ x, p x = true) l → filter (λ x, p x = true) l = l.
Proof.
  induction 1 as [|x l Hx Hl IH]; [done|].
  rewrite filter_cons_True by done. by f_equal.
Qed.

(** C7. The metric "Total Fraud Rate" is the fraction of fraudulent
    loans (0 when the loan view is empty) plus the fraction of
    fraudulent transactions (0 when the transaction view is empty),
    times 100, computed as Python computes it: the two quotients, their
    sum and the product by 100 are each rounded to binary64.  The result
    is a number within 10^-12 of the exact value of the formula.  For
    views of 100 loans with 10 flagged and 200 transactions with 20
    flagged it is exactly 20, shown as "20.00%"; and a run of the whole
    script on such tables, on the fraud page, with nothing selected and
    a date range that holds every application date, shows the metric
    "Total Fraud Rate" as "20.00%". *)
Theorem total_fraud_rate_spec :
  (∀ fl ft : DataFrame,
     "fraud_flag" ∈ columns fl → "fraud_flag" ∈ columns ft →
     ∃ x, total_fraud_rate fl ft = Ok (Fin x) ∧
          Fin x = mul64 (add64 (fraction64 (nfraud fl) (len fl))
                           (fraction64 (nfraud ft) (len ft))) (of_Z 100) ∧
          (Qabs (x - (fraction (nfraud fl) (len fl)
                      + fraction (nfraud ft) (len ft)) * 100)
           <= 1 # 1000000000000)%Q) ∧
  (∀ fl ft : DataFrame,
     "fraud_flag" ∈ columns fl → "fraud_flag" ∈ columns ft →
     len fl = 100 → nfraud fl = 10 → len ft = 200 → nfraud ft = 20 →
     total_fraud_rate fl ft = Ok (Fin 20) ∧
     String.append (format_f false 2 (Fin 20)) "%" = "20.00%") ∧
  (∀ (i : inputs) (L T : DataFrame),
     page i = "Fraud Intelligence & Risk Mitigation" →
     loan_type_filter i = [] → employment_filter i = [] →
     gender_filter i = [] → device_filter i = [] → state_filter i = [] →
     Forall (λ r, in_range (date_range i) (cell "application_date" r) = true)
       (rows L) →
     "loan_type" ∈ columns L → "employment_status" ∈ columns L →
     "gender" ∈ columns L → "application_date" ∈ columns L →
     "debt_to_income_ratio" ∈ columns L → "fraud_flag" ∈ columns L →
     "loan_amount_requested" ∈ columns L → "loan_status" ∈ columns L →
     "customer_id" ∈ columns L →
     "device_used" ∈ columns T → "transaction_location" ∈ columns T →
     "fraud_flag" ∈ columns T → "transaction_amount" ∈ columns T →
     len L = 100 → nfraud L = 10 → len T = 200 → nfraud T = 20 →
     StMetric "Total Fraud Rate" "20.00%"
       ∈ output (script i 0 1 (initial L T)).2).
Proof.
  split_and!.
  { intros fl ft Hl Ht.
    destruct (total_fraud_rate_value fl ft Hl Ht) as (x & Hx & _ & Herr & _).
    exists x. split_and!; [done| |done].
    rewrite total_fraud_rate_counts in Hx by done. by injection Hx as <-. }
  { intros fl ft Hl Ht L1 L2 T1 T2. split; [by apply total_fraud_rate_20|done]. }
  intros i L T Hpage S1 S2 S3 S4 S5 Hdates C1 C2 C3 C4 C5 C6 C7 C8 C9
    D1 D2 D3 D4 N1 N2 N3 N4.
  apply wp_final. unfold script.
  apply wp_bind. eapply (wp_load _ _ L T); [done..|]. cbn [initial heap length].
  assert ("State" ∈ columns (with_state T)) as D5 by apply setitem_column_new.
  unfold body. apply wp_bind.
  eapply (wp_sidebar _ _ L (with_state T)); [done..| by apply setitem_columns|done|].
  apply wp_bind.
  eapply (wp_apply_filters _ _ _ L (with_state T));
    [done..| by apply setitem_columns|done|].
  intros fl ft w' FL FT HFL HFT CL CT RL RT _ _ _ Hne.
  rewrite Hpage. cbn [String.eqb Ascii.eqb Bool.eqb].
  assert (rows FL = rows L) as RL'.
  { rewrite RL. apply filter_keep_all. eapply Forall_impl; [done|].
    intros r Hr. unfold keep_loan. by rewrite S1, S2, S3, Hr. }
  assert (rows FT = rows (with_state T)) as RT'.
  { rewrite RT. apply filter_all. intros r. unfold keep_txn. by rewrite S4, S5. }
  eapply (wp_fraud_page_rate fl ft FL FT (Fin 20));
    try done; rewrite ?CL, ?CT; try done; try by apply setitem_columns.
  apply total_fraud_rate_20.
  - by rewrite CL.
  - rewrite CT. by apply setitem_columns.
  - unfold len. by rewrite RL'.
  - unfold nfraud. by rewrite RL'.
  - unfold len. rewrite RT'. change (len (with_state T) = 200).
    unfold with_state. by rewrite len_setitem.
  - unfold nfraud. rewrite RT'. change (nfraud (with_state T) = 20).
    unfold with_state. by rewrite nfraud_setitem.
Qed.

(** ** Cells as keys *)

Lemma feqb_sym (x y : float64) : feqb x y = feqb y x.
Proof.
  destruct x, y; try done. cbn. apply eq_true_iff_eq.
  rewrite !Qeq_bool_iff. split; intros H; by symmetry.
Qed.

Lemma feqb_trans (x y z : float64) :
  feqb x y = true → feqb y z = true → feqb x z = true.
Proof.
  destruct x, y, z; try done. cbn. rewrite !Qeq_bool_iff.
  intros H1 H2. by rewrite H1.
Qed.

Lemma same_value_refl (v : value) : same_value v v = true.
Proof.
  destruct v as [s|x|t]; unfold same_value; cbn.
  - apply String.eqb_refl.
  - destruct x; cbn; try done. apply Qeq_bool_iff. reflexivity.
  - apply Z.eqb_refl.
Qed.

Lemma same_value_sym (v w : value) : same_value v w = same_value w v.
Proof.
  destruct v as [s|[]|t], w as [s'|[]|t']; unfold same_value; cbn; try done;
    first [apply String.eqb_sym | apply Z.eqb_sym
          | apply (feqb_sym (Fin _) (Fin _))].
Qed.

Lemma same_value_trans (u v w : value) :
  same_value u v = true → same_value v w = true → same_value u w = true.
Proof.
  destruct u as [s|[]|t], v as [s'|[]|t'], w as [s''|[]|t''];
    unfold same_value; cbn; try done.
  - rewrite !String.eqb_eq. congruence.
  - apply (feqb_trans (Fin _) (Fin _) (Fin _)).
  - rewrite !Z.eqb_eq. congruence.
Qed.

Lemma same_value_VStr (l : string) (w : value) :
  same_value (VStr l) w = true ↔ w = VStr l.
Proof.
  destruct w as [s|x|t]; unfold same_value; cbn; try (split; [done|by intros ?]).
  rewrite String.eqb_eq. split; congruence.
Qed.

(** ** Sorting by count *)

Lemma insert_desc_perm {A} (x : A * nat) (l : list (A * nat)) :
  insert_desc x l ≡ₚ x :: l.
Proof.
  induction l as [|y l IH]; [done|]. cbn. case_match; [|done].
  rewrite IH. apply Permutation_swap.
Qed.

Lemma sort_desc_perm {A} (l : list (A * nat)) : sort_desc l ≡ₚ l.
Proof.
  induction l as [|x l IH]; [done|]. cbn.
  rewrite insert_desc_perm. by f_equiv.
Qed.

(** ** Age groups *)

Lemma count_of_dropna_VStr (l : string) (s : list value) :
  count_of (VStr l) (dropna s) = length (filter (λ v, v = VStr l) s).
Proof.
  unfold count_of, dropna. rewrite list_filter_filter. f_equal.
  apply list_filter_iff. intros w. rewrite same_value_VStr.
  split; [tauto|]. by intros ->.
Qed.

Lemma filter_fmap_length {A B} (g : A → B) (P : B → Prop) `{!∀ y, Decision (P y)}
    (l : list A) :
  length (filter P (g <$> l)) = length (filter (λ x, P (g x)) l).
Proof.
  induction l as [|x l IH]; [done|]. cbn [fmap list_fmap].
  rewrite !filter_cons. case_decide; cbn; by rewrite IH.
Qed.

Lemma reindex_lookup (cats : list string) (count : string → nat) (l : string) :
  l ∈ cats →
  ∃ i, list_find (λ p : value * nat, same_value p.1 (VStr l) = true)
         (sort_desc ((λ c, (VStr c, count c)) <$> cats))
       = Some (i, (VStr l, count l)).
Proof.
  intros Hl.
  destruct (list_find (λ p : value * nat, same_value p.1 (VStr l) = true)
              (sort_desc ((λ c, (VStr c, count c)) <$> cats)))
    as [[i [v n]]|] eqn:Hfind.
  - apply list_find_Some in Hfind as (Hi & Hp & _). cbn in Hp.
    apply list_elem_of_lookup_2 in Hi. rewrite sort_desc_perm in Hi.
    apply list_elem_of_fmap in Hi as (c & [= -> ->] & _).
    rewrite same_value_sym, same_value_VStr in Hp. injection Hp as ->.
    by exists i.
  - exfalso. eapply list_find_None in Hfind. rewrite Forall_forall in Hfind.
    apply (Hfind (VStr l, count l)); [|apply same_value_refl].
    rewrite sort_desc_perm. apply list_elem_of_fmap. by exists l.
Qed.

Lemma setitem_keeps_column (d : DataFrame) (c c' : string) (s : list value) :
  c ≠ c' → length s = length (rows d) →
  cell c' <$> rows (setitem d c s) = cell c' <$> rows d.
Proof.
  intros Hne. unfold setitem. cbn [rows]. revert s.
  induction (rows d) as [|r l IH]; intros [|v s] Hlen; try done.
  cbn. rewrite cell_insert_ne by done. f_equal. apply IH. by injection Hlen.
Qed.

(** The rows of [age_df]: one per label, in the order of the labels,
    with the number of cells of the column that carry the label. *)
Lemma age_df_rows (groups : list value) (total_apps : nat) :
  ∃ df, age_df groups total_apps = Ok df ∧
    cell "age_group" <$> rows df = VStr <$> age_labels ∧
    cell "count" <$> rows df
    = (λ l, VNum (of_nat (length (filter (λ v, v = VStr l) groups)))) <$> age_labels.
Proof.
  unfold age_df. rewrite getitem_ok by (cbn; set_solver).
  cbn [mbind result_bind]. eexists. split; [done|].
  set (df := reset_index _ _ _).
  assert (cell "age_group" <$> rows df = VStr <$> age_labels ∧
          cell "count" <$> rows df
          = (λ l, VNum (of_nat (length (filter (λ v, v = VStr l) groups))))
              <$> age_labels) as [Hg Hc].
  { unfold df, reset_index, reindex, value_counts_categorical. cbn [rows].
    rewrite <- !list_fmap_compose. split.
    - apply list_fmap_ext. intros _ l _. unfold compose. cbn [fst snd].
      rewrite cell_insert_ne by done. unfold cell.
      by rewrite lookup_singleton_eq.
    - apply list_fmap_ext. intros _ l Hl%list_elem_of_lookup_2.
      unfold compose. cbn [fst snd]. rewrite cell_insert_eq.
      destruct (reindex_lookup age_labels
                  (λ c, count_of (VStr c) (dropna groups)) l Hl) as [i ->].
      by rewrite count_of_dropna_VStr. }
  assert (length (cell "count" <$> rows df) = length (rows df)) as Hlen
    by apply length_fmap.
  split.
  - rewrite setitem_keeps_column; [done..|].
    case_match; unfold pct_of_total; by rewrite !length_fmap.
  - rewrite setitem_keeps_column; [done..|].
    case_match; unfold pct_of_total; by rewrite !length_fmap.
Qed.

Lemma cut1_age (a : Q) :
  cut1 age_bins age_labels (VNum (Fin a))
  = if Qle_bool a 0 then VNum NaN
    else if Qle_bool a 25 then VStr "18-25"
    else if Qle_bool a 35 then VStr "26-35"
    else if Qle_bool a 45 then VStr "36-45"
    else if Qle_bool a 55 then VStr "46-55"
    else if Qle_bool a 100 then VStr "56+"
    else VNum NaN.
Proof.
  unfold cut1, searchsorted_left, age_bins, to_float, is_nan.
  cbn [fmap list_fmap orb]. rewrite !filter_cons, filter_nil.
  unfold flt, of_Z, Qltb.
  change (inject_Z 0) with 0%Q. change (inject_Z 25) with 25%Q.
  change (inject_Z 35) with 35%Q. change (inject_Z 45) with 45%Q.
  change (inject_Z 55) with 55%Q. change (inject_Z 100) with 100%Q.
  destruct (Qle_bool a 0) eqn:E0; destruct (Qle_bool a 25) eqn:E1;
    destruct (Qle_bool a 35) eqn:E2; destruct (Qle_bool a 45) eqn:E3;
    destruct (Qle_bool a 55) eqn:E4; destruct (Qle_bool a 100) eqn:E5;
    try reflexivity;
    repeat match goal with
    | H : Qle_bool _ _ = true |- _ => apply Qle_bool_iff in H
    | H : Qle_bool _ _ = false |- _ => apply Qle_bool_gt in H
    end; lra.
Qed.

(** C2, as the code has it.  [pd.cut] on the edges 0, 25, 35, 45, 55,
    100 gives an age the label of the bin it falls in, each bin open on
    the left and closed on the right: (0,25] "18-25", (25,35] "26-35",
    (35,45] "36-45", (45,55] "46-55", (55,100] "56+".  So 25 is "18-25",
    26 is "26-35", 100 is "56+"; an age of 0 or less, or above 100, or
    missing, gets no label.  In the bucketed table each of the five
    labels counts the ages that carry it, so an age without label is
    counted nowhere. *)
Theorem age_bucketing_spec :
  (∀ a : Q,
     ((0 < a <= 25)%Q → cut1 age_bins age_labels (VNum (Fin a)) = VStr "18-25") ∧
     ((25 < a <= 35)%Q → cut1 age_bins age_labels (VNum (Fin a)) = VStr "26-35") ∧
     ((35 < a <= 45)%Q → cut1 age_bins age_labels (VNum (Fin a)) = VStr "36-45") ∧
     ((45 < a <= 55)%Q → cut1 age_bins age_labels (VNum (Fin a)) = VStr "46-55") ∧
     ((55 < a <= 100)%Q → cut1 age_bins age_labels (VNum (Fin a)) = VStr "56+") ∧
     ((a <= 0)%Q ∨ (100 < a)%Q →
      cut1 age_bins age_labels (VNum (Fin a)) = VNum NaN)) ∧
  cut1 age_bins age_labels (VNum (Fin 25)) = VStr "18-25" ∧
  cut1 age_bins age_labels (VNum (Fin 26)) = VStr "26-35" ∧
  cut1 age_bins age_labels (VNum (Fin 100)) = VStr "56+" ∧
  cut1 age_bins age_labels (VNum (Fin 0)) = VNum NaN ∧
  cut1 age_bins age_labels (VNum (Fin (-1))) = VNum NaN ∧
  cut1 age_bins age_labels (VNum (Fin 101)) = VNum NaN ∧
  cut1 age_bins age_labels (VNum NaN) = VNum NaN ∧
  (∀ (ages : list value) (total_apps : nat),
     ∃ df, age_df (age_group ages) total_apps = Ok df ∧
       cell "age_group" <$> rows df = VStr <$> age_labels ∧
       cell "count" <$> rows df
       = (λ l, VNum (of_nat (length
                 (filter (λ v, cut1 age_bins age_labels v = VStr l) ages))))
           <$> age_labels).
Proof.
  split_and!; try reflexivity.
  - intros a. rewrite cut1_age.
    destruct (Qle_bool a 0) eqn:E0; destruct (Qle_bool a 25) eqn:E1;
      destruct (Qle_bool a 35) eqn:E2; destruct (Qle_bool a 45) eqn:E3;
      destruct (Qle_bool a 55) eqn:E4; destruct (Qle_bool a 100) eqn:E5;
      repeat match goal with
      | H : Qle_bool _ _ = true |- _ => apply Qle_bool_iff in H
      | H : Qle_bool _ _ = false |- _ => apply Qle_bool_gt in H
      end;
      split_and!; intros; try reflexivity; exfalso; lra.
  - intros ages total_apps.
    destruct (age_df_rows (age_group ages) total_apps) as (df & Hdf & Hg & Hc).
    exists df. split_and!; [done..|]. rewrite Hc.
    apply list_fmap_ext. intros _ l _. do 2 f_equal.
    unfold age_group, cut. apply filter_fmap_length.
Qed.

(** C2 as worded gives every age of [0,100] a label; the age 0 has
    none. *)
Lemma age_zero_has_no_label :
  ¬ (∀ a : Q, (0 <= a <= 100)%Q →
       ∃ l, l ∈ age_labels ∧ cut1 age_bins age_labels (VNum (Fin a)) = VStr l).
Proof.
  intros H. destruct (H 0%Q) as (l & _ & Hl); [lra|]. by vm_compute in Hl.
Qed.

(** ** Order of a list *)

Lemma before_cons {A} (x y z : A) (l : list A) :
  before x y (z :: l) ↔ (x = z ∧ y ∈ l) ∨ before x y l.
Proof.
  split.
  - intros (i & j & Hij & Hi & Hj). destruct j as [|j]; [lia|].
    destruct i as [|i].
    + left. cbn in Hi, Hj. split; [congruence|]. by eapply list_elem_of_lookup_2.
    + right. exists i, j. cbn in Hi, Hj. split_and!; [lia|done..].
  - intros [[-> Hy]|(i & j & Hij & Hi & Hj)].
    + apply list_elem_of_lookup_1 in Hy as [j Hj]. exists 0, (S j).
      split_and!; [lia|done..].
    + exists (S i), (S j). split_and!; [lia|done..].
Qed.

Lemma before_nil {A} (x y : A) : ¬ before x y [].
Proof. by intros (i & j & _ & Hi & _). Qed.

Lemma before_in_r {A} (x y : A) (l : list A) : before x y l → y ∈ l.
Proof. intros (i & j & _ & _ & Hj). by eapply list_elem_of_lookup_2. Qed.

Lemma before_in_l {A} (x y : A) (l : list A) : before x y l → x ∈ l.
Proof. intros (i & j & _ & Hi & _). by eapply list_elem_of_lookup_2. Qed.

Lemma before_filter {A} (P : A → Prop) `{!∀ x, Decision (P x)} (x y : A) (l : list A) :
  before x y (filter P l) → before x y l.
Proof.
  induction l as [|z l IH]; [done|]. rewrite filter_cons.
  case_decide.
  - rewrite !before_cons. intros [[-> Hy]|H'].
    + left. split; [done|]. by apply list_elem_of_filter in Hy as [_ ?].
    + right. by apply IH.
  - intros H'. apply before_cons. right. by apply IH.
Qed.



(** ** The sort by descending count *)

Lemma insert_desc_sorted {A} (z : A * nat) (l : list (A * nat)) :
  (∀ x y, before x y l → y.2 ≤ x.2) →
  ∀ x y, before x y (insert_desc z l) → y.2 ≤ x.2.
Proof.
  induction l as [|w l IH]; intros Hl x y; cbn [insert_desc].
  - intros H'. apply before_cons in H' as [[_ H']|H']; [by apply elem_of_nil in H'|].
    by apply before_nil in H'.
  - assert (∀ x y, before x y l → y.2 ≤ x.2) as Hl'.
    { intros a b Hab. apply Hl, before_cons. by right. }
    assert (∀ y, y ∈ l → y.2 ≤ w.2) as Hw.
    { intros b Hb. apply Hl, before_cons. by left. }
    destruct (z.2 <? w.2) eqn:Hlt.
    + apply Nat.ltb_lt in Hlt. intros H'.
      apply before_cons in H' as [[-> Hy]|H']; [|by apply IH].
      rewrite insert_desc_perm in Hy. apply elem_of_cons in Hy as [->|Hy]; [lia|].
      by apply Hw.
    + apply Nat.ltb_ge in Hlt. intros H'.
      apply before_cons in H' as [[-> Hy]|H']; [|by apply Hl].
      apply elem_of_cons in Hy as [->|Hy]; [done|]. specialize (Hw y Hy). lia.
Qed.

(** The sort puts larger counts first. *)
Lemma sort_desc_sorted {A} (x y : A * nat) (l : list (A * nat)) :
  before x y (sort_desc l) → y.2 ≤ x.2.
Proof.
  revert x y. induction l as [|z l IH]; intros x y.
  - intros H'. by apply before_nil in H'.
  - change (sort_desc (z :: l)) with (insert_desc z (sort_desc l)).
    by apply insert_desc_sorted.
Qed.

(** ** Distinct cells and their counts *)

Lemma unique_subset (v : value) (s : list value) : v ∈ unique s → v ∈ s.
Proof.
  induction s as [|w s IH]; [done|]. cbn [unique].
  rewrite !elem_of_cons, list_elem_of_filter. intros [->|[_ Hv]]; auto.
Qed.

Lemma unique_distinct (a b : value) (s : list value) :
  before a b (unique s) → same_value a b = false.
Proof.
  induction s as [|w s IH]; cbn [unique]; [by intros H%before_nil|].
  intros [[-> Hb]|H']%before_cons.
  - by apply list_elem_of_filter in Hb as [? _].
  - by apply before_filter in H'; auto.
Qed.

Lemma unique_NoDup (s : list value) : NoDup (unique s).
Proof.
  induction s as [|w s IH]; cbn [unique]; [constructor|].
  constructor; [|by apply NoDup_filter].
  rewrite list_elem_of_filter, same_value_refl. by intros [? _].
Qed.

Lemma first_index_cons (v w : value) (s : list value) :
  first_index v (w :: s)
  = if same_value v w then Some 0 else S <$> first_index v s.
Proof.
  unfold first_index. cbn [list_find]. destruct (same_value v w) eqn:Hvw.
  - by rewrite decide_True.
  - rewrite decide_False by congruence.
    by destruct (list_find _ s) as [[i x]|].
Qed.

Lemma first_index_elem (v : value) (s : list value) :
  v ∈ s → ∃ i, first_index v s = Some i.
Proof.
  induction 1 as [v s|v w s Hv [i IH]]; rewrite first_index_cons.
  - rewrite same_value_refl. by exists 0.
  - destruct (same_value v w); [by exists 0|]. rewrite IH. by exists (S i).
Qed.

(** The distinct cells stand in the order of their first occurrence. *)
Lemma unique_first_occurrence (a b : value) (s : list value) :
  before a b (unique s) →
  ∃ i j, first_index a s = Some i ∧ first_index b s = Some j ∧ i < j.
Proof.
  induction s as [|w s IH]; cbn [unique]; [by intros H%before_nil|].
  intros [[-> Hb]|H']%before_cons.
  - apply list_elem_of_filter in Hb as [Hwb Hb]. apply unique_subset in Hb.
    destruct (first_index_elem b s Hb) as [j Hj].
    exists 0, (S j). rewrite !first_index_cons, same_value_refl.
    rewrite same_value_sym, Hwb, Hj. split_and!; [done..|lia].
  - assert (same_value w a = false ∧ same_value w b = false) as [Ha Hb].
    { split.
      - apply before_in_l, list_elem_of_filter in H'. tauto.
      - apply before_in_r, list_elem_of_filter in H'. tauto. }
    apply before_filter, IH in H' as (i & j & Hi & Hj & Hij).
    exists (S i), (S j). rewrite !first_index_cons.
    rewrite (same_value_sym a), Ha, (same_value_sym b), Hb, Hi, Hj.
    split_and!; [done..|lia].
Qed.

Lemma sum_list_perm (l k : list nat) : l ≡ₚ k → sum_list l = sum_list k.
Proof. induction 1; cbn; lia. Qed.

Lemma count_of_same (a b : value) (s : list value) :
  same_value a b = true → count_of a s = count_of b s.
Proof.
  intros Hab. unfold count_of. f_equal. apply list_filter_iff. intros w.
  split; intros Hw.
  - eapply same_value_trans; [|done]. by rewrite same_value_sym.
  - by eapply same_value_trans.
Qed.





Lemma tally_NoDup (s : list value) : NoDup (tally s).
Proof.
  unfold tally. apply NoDup_fmap_2_strong; [|apply unique_NoDup].
  by intros x y _ _ [= ->].
Qed.

(** ** Percentages *)




(** ** The top fraudulent states *)


(** ** Sums of finite numbers *)




(** ** Rows and their rank within their group *)











(** ** The share of a row in its group *)









(** ** Groups of rows *)

Lemma insert_key_perm (k : list value) (l : list (list value)) :
  insert_key k l ≡ₚ k :: l.
Proof.
  induction l as [|k' l IH]; [done|]. cbn. case_match; [|done].
  rewrite IH. apply Permutation_swap.
Qed.

Lemma unique_keys_subset (k : list value) (l : list (list value)) :
  k ∈ unique_keys l → k ∈ l.
Proof.
  induction l as [|k' l IH]; [done|]. cbn [unique_keys].
  rewrite !elem_of_cons, list_elem_of_filter. intros [->|[_ Hk]]; auto.
Qed.

Lemma group_keys_elem (ks : list string) (rs : list (gmap string value))
    (k : list value) :
  k ∈ group_keys ks rs → key_present k = true ∧ ∃ r, r ∈ rs ∧ k = key_of ks r.
Proof.
  unfold group_keys. intros Hk.
  assert (k ∈ unique_keys (filter (λ k, key_present k = true) (key_of ks <$> rs)))
    as Hk'.
  { revert Hk. generalize (unique_keys (filter (λ k, key_present k = true)
                                          (key_of ks <$> rs))).
    intros l. induction l as [|k' l IH]; [done|]. cbn [foldr].
    rewrite insert_key_perm, !elem_of_cons. intros [?|?]; auto. }
  apply unique_keys_subset, list_elem_of_filter in Hk' as [Hp Hk'].
  apply list_elem_of_fmap in Hk' as (r & -> & Hr). eauto.
Qed.

Lemma same_key_refl (k : list value) : same_key k k = true.
Proof. induction k as [|v k IH]; [done|]. cbn. by rewrite same_value_refl. Qed.

Lemma group_rows_nonempty (ks : list string) (rs : list (gmap string value))
    (k : list value) :
  k ∈ group_keys ks rs → 1 ≤ length (group_rows ks k rs).
Proof.
  intros (_ & r & Hr & ->)%group_keys_elem.
  assert (r ∈ group_rows ks (key_of ks r) rs) as Hin.
  { unfold group_rows. apply list_elem_of_filter. split; [apply same_key_refl|done]. }
  destruct (group_rows _ _ _); [by apply elem_of_nil in Hin|cbn; lia].
Qed.







(** ** The theorems at the sample tables *)

(** Decide a closed fact by evaluation. *)
Ltac by_evaluation := refine (bool_decide_unpack _ _); vm_compute; exact I.

(** Discharge a hypothesis of a theorem at a sample: an equation by
    evaluating both sides, anything else by deciding it. *)
Ltac at_sample :=
  lazymatch goal with
  | |- _ = _ => vm_compute; reflexivity
  | |- _ => by_evaluation
  end.

Lemma dti_category_spec_witness : dti_category (Fin 30) = "Good (20–35)".
Proof.
  destruct (proj1 dti_category_spec 30%Q) as (_ & Hgood & _).
  apply Hgood. split; unfold Qle; cbn; lia.
Defined.

Lemma age_bucketing_spec_witness :
  cut1 age_bins age_labels (VNum (Fin 30)) = VStr "26-35".
Proof.
  destruct (proj1 age_bucketing_spec 30%Q) as (_ & Hbin & _).
  apply Hbin. split; [unfold Qlt | unfold Qle]; cbn; lia.
Defined.


Lemma empty_txn_view_raises_witness :
  ∃ w', body mobile_in_delhi 2 3 loaded = (Raise ZeroDivisionError, w') ∧
        output w' = output loaded
                    ++ sidebar_events sample_loans (with_state sample_txns).
Proof.
  apply (empty_txn_view_raises mobile_in_delhi loaded 2 3
           sample_loans (with_state sample_txns)); at_sample.
Defined.

Lemma filtered_views_exact_witness :
  ∃ fl ft w' FL FT,
    apply_filters home_loans_of_women 2 3 loaded = (Ok (fl, ft), w') ∧
    heap w' !! fl = Some FL ∧ heap w' !! ft = Some FT ∧
    rows FL = filter (λ r, keep_loan home_loans_of_women r = true) (rows sample_loans) ∧
    rows FT = filter (λ r, keep_txn home_loans_of_women r = true)
                (rows (with_state sample_txns)).
Proof.
  destruct (filtered_views_exact home_loans_of_women loaded 2 3
              sample_loans (with_state sample_txns))
    as (fl & ft & w' & FL & FT & Hrun & HFL & HFT & _ & _ & RL & RT & _);
    try at_sample.
  exists fl, ft, w', FL, FT. split_and!; assumption.
Defined.

Lemma total_fraud_rate_spec_witness :
  StMetric "Total Fraud Rate" "20.00%"
    ∈ output (script (no_filters "Fraud Intelligence & Risk Mitigation") 0 1
                (initial loans_100 txns_200)).2.
Proof.
  apply (proj2 (proj2 total_fraud_rate_spec)); at_sample.
Defined.

Lemma missing_location_aborts_witness :
  (script (no_filters "Behavioral Risk Analysis") 0 1
     (initial sample_loans txns_without_location)).1
  = Raise (KeyError "State").
Proof.
  rewrite (missing_location_aborts (no_filters "Behavioral Risk Analysis")
             sample_loans txns_without_location);
    [reflexivity | by_evaluation..].
Defined.

Lemma sources_never_mutated_witness :
  heap (body home_loans_of_women 2 3 loaded).2 !! 2 = Some sample_loans ∧
  heap (body home_loans_of_women 2 3 loaded).2 !! 3 = Some (with_state sample_txns).
Proof.
  apply (proj1 (proj2 sources_never_mutated)); at_sample.
Defined.

Lemma views_filtered_independently_witness :
  ∃ fl ft w1 FT gl gt w2 GT,
    apply_filters home_loans_of_women 2 3 loaded = (Ok (fl, ft), w1) ∧
    heap w1 !! ft = Some FT ∧
    apply_filters (no_filters "Executive Loan Portfolio") 2 3 loaded
    = (Ok (gl, gt), w2) ∧
    heap w2 !! gt = Some GT ∧
    GT = with_state sample_txns.
Proof.
  destruct (views_filtered_independently
              (no_filters "Executive Loan Portfolio") home_loans_of_women
              loaded 2 3 sample_loans (with_state sample_txns))
    as (gl & gt & w2 & GL & GT & fl & ft & w1 & FL & FT
        & Hrun2 & _ & HGT & Hrun1 & _ & HFT & _ & _ & Hall);
    try at_sample.
  exists fl, ft, w1, FT, gl, gt, w2, GT.
  split_and!; [assumption..|]. apply Hall; reflexivity.
Defined.

(** ** The two failing runs, evaluated *)

(** A run of the page "Behavioral Risk Analysis" with the device Mobile
    and the state Delhi selected, both offered by the sidebar: no
    transaction is left and the run raises. *)
Example behavioral_run_raises :
  (script mobile_in_delhi 0 1 (initial sample_loans sample_txns)).1
  = Raise ZeroDivisionError.
Proof. by vm_compute. Qed.

(** The same selection on the fraud page runs to the end: its rates are
    guarded. *)
Example fraud_run_returns :
  (script (mkInputs "Fraud Intelligence & Risk Mitigation" [] [] []
             [VStr "Mobile"] [VStr "Delhi"] (day 19000, day 20000))
     0 1 (initial sample_loans sample_txns)).1
  = Ok ().
Proof. by vm_compute. Qed.

(** A run on a transaction file without location column raises on every
    page. *)
Example missing_location_run_raises :
  (script (no_filters "Executive Loan Portfolio") 0 1
     (initial sample_loans txns_without_location)).1
  = Raise (KeyError "State").
Proof. by vm_compute. Qed.

(** The load derives State on the copy that it hands to the run; the
    cached table keeps its columns. *)
Example load_derives_state_on_copy :
  heap loaded = [sample_loans; sample_txns; sample_loans; with_state sample_txns] ∧
  "State" ∈ columns (with_state sample_txns) ∧
  "State" ∉ columns sample_txns.
Proof. split_and!; [by vm_compute | by_evaluation | by_evaluation]. Qed.

(** With no loan left, the executive page still runs to the end; its two
    means are NaN. *)
Example executive_run_without_loans :
  let i := mkInputs "Executive Loan Portfolio" [VStr "Car"] [] [VStr "F"] [] []
             (day 19000, day 20000) in
  (script i 0 1 (initial sample_loans sample_txns)).1 = Ok () ∧
  StMetric "Avg CIBIL Score" "nan"
    ∈ output (script i 0 1 (initial sample_loans sample_txns)).2.
Proof.
  split; [by vm_compute|]. vm_compute. do 7 apply list_elem_of_further.
  apply list_elem_of_here.
Qed.

(** ** The login gate *)

Lemma USERS_lookup (u p : string) :
  USERS !! u = Some p ↔ u = "admin" ∧ p = "1234".
Proof.
  unfold USERS. rewrite lookup_singleton_Some. split; intros [? ?]; by subst.
Qed.

Lemma login_spec (c : clicks) (s : session_state) :
  login c s
  = if submits_credentials c
    then (mkSession true, [st_success "Login successful!"], Rerun)
    else (s, if login_button c then [st_error "Invalid username or password"] else [],
          Continue).
Proof.
  unfold login, submits_credentials. destruct (login_button c); [|done]. cbn [andb].
  case_bool_decide as H.
  - apply USERS_lookup in H as [-> ->]. done.
  - destruct (String.eqb_spec (username c) "admin") as [Hu|]; [|done].
    destruct (String.eqb_spec (password c) "1234") as [Hp|]; [|done].
    destruct H. by apply USERS_lookup.
Qed.

Ltac gate_cases :=
  split; intros; repeat lazymatch goal with
  | H : _ ∧ _ |- _ => destruct H
  | H : _ ∨ _ |- _ => destruct H
  end; try done; try congruence; auto; try tauto.

(** X1. One run of the file.  The session is authenticated after the run
    exactly when it was authenticated before and Logout was not clicked,
    or it was not and the Login button was clicked with the user name
    "admin" and the password "1234".  The dashboard script (load,
    sidebar, filters, page) runs exactly when the session was
    authenticated before the run and Logout was not clicked; in every
    other run no table is read and nothing of the dashboard is shown.  A
    run that changes the authentication ends in a rerun, and a run of
    the login page otherwise stops. *)
Theorem app1_gate (c : clicks) (i : inputs) (cache_loans cache_txns : nat)
    (s : session_state) (w : world) :
  let '(s', shown, f, w') := app1 c i cache_loans cache_txns s w in
  (authenticated s' = true ↔
     (authenticated s = true ∧ logout_button c = false) ∨
     (authenticated s = false ∧ login_button c = true ∧
      username c = "admin" ∧ password c = "1234")) ∧
  w' = (if authenticated s && negb (logout_button c)
        then (script i cache_loans cache_txns w).2 else w) ∧
  (f = Rerun ↔ authenticated s' ≠ authenticated s) ∧
  (f = Continue ↔ authenticated s = true ∧ logout_button c = false) ∧
  (shown = [st_error "Invalid username or password"] ↔
     authenticated s = false ∧ login_button c = true ∧
     ¬ (username c = "admin" ∧ password c = "1234")).
Proof.
  unfold app1. destruct s as [[|]]; cbn [authenticated negb andb].
  - unfold logout. destruct (logout_button c); cbn; split_and!; gate_cases.
  - rewrite login_spec. unfold submits_credentials.
    destruct (login_button c); cbn [andb].
    + destruct (String.eqb_spec (username c) "admin") as [Hu|Hu]; cbn [andb].
      * destruct (String.eqb_spec (password c) "1234") as [Hp|Hp]; cbn;
          split_and!; gate_cases.
      * cbn; split_and!; gate_cases.
    + cbn; split_and!; gate_cases.
Qed.

Lemma visit_cons cl ct ci runs s w :
  visit cl ct (ci :: runs) s w
  = let '(s', _, _, w') := app1 ci.1 ci.2 cl ct s w in visit cl ct runs s' w'.
Proof.
  unfold visit. cbn [foldl fst snd].
  by destruct (app1 ci.1 ci.2 cl ct s w) as [[[s' sh] f] w'].
Qed.

(** X2. Without the credentials there is no dashboard: in a visit that
    starts unauthenticated and in which no run submits the user name
    "admin" with the password "1234", however many runs it has and
    whatever else is entered or clicked, the session stays
    unauthenticated, no table is copied or changed and nothing of the
    dashboard is shown. *)
Theorem no_dashboard_without_login (cache_loans cache_txns : nat)
    (runs : list (clicks * inputs)) (w : world) :
  Forall (λ ci, submits_credentials ci.1 = false) runs →
  visit cache_loans cache_txns runs (mkSession false) w = (mkSession false, w).
Proof.
  induction 1 as [|[c i] runs Hc _ IH]; [done|].
  rewrite visit_cons. cbn [fst snd] in *. unfold app1. cbn [authenticated negb].
  rewrite login_spec, Hc. exact IH.
Qed.

Lemma no_dashboard_without_login_witness :
  visit 0 1
    [(mkClicks "admin" "12345" true false, no_filters "Executive Loan Portfolio");
     (mkClicks "root" "1234" true true, no_filters "Behavioral Risk Analysis");
     (mkClicks "admin" "1234" false false, no_filters "Executive Loan Portfolio")]
    (mkSession false) (initial sample_loans sample_txns)
  = (mkSession false, initial sample_loans sample_txns).
Proof.
  apply no_dashboard_without_login. repeat constructor.
Defined.
(** ** The State of a location *)

Lemma string_append_nil_l (t : string) : ("" +:+ t = t)%string.
Proof. reflexivity. Qed.

Lemma string_append_cons (c : ascii) (s t : string) :
  (String c s +:+ t = String c (s +:+ t))%string.
Proof. reflexivity. Qed.

Lemma string_append_assoc (s t u : string) : ((s +:+ t) +:+ u = s +:+ t +:+ u)%string.
Proof.
  induction s as [|c s IH]; [done|]. by rewrite !string_append_cons, IH.
Qed.

Lemma string_append_nil_r (s : string) : (s +:+ "" = s)%string.
Proof. induction s as [|c s IH]; [done|]. by rewrite string_append_cons, IH. Qed.

Lemma split_nonempty (sep : ascii) (s : string) : split sep s ≠ [].
Proof.
  destruct s as [|c s]; [done|]. cbn [split].
  destruct (Ascii.eqb c sep); [done|]. by destruct (split sep s).
Qed.

Lemma split_app (sep : ascii) (a b : string) :
  split sep (a +:+ String sep b) = split sep a ++ split sep b.
Proof.
  induction a as [|c a IH]; rewrite ?string_append_nil_l, ?string_append_cons; cbn [split].
  - by rewrite Ascii.eqb_refl.
  - rewrite IH. destruct (Ascii.eqb c sep); [done|].
    pose proof (split_nonempty sep a). by destruct (split sep a).
Qed.

Lemma split_without (sep : ascii) (b : string) :
  sep ∉ String.list_ascii_of_string b → split sep b = [b].
Proof.
  induction b as [|c b IH]; [done|]. cbn [String.list_ascii_of_string split].
  rewrite not_elem_of_cons. intros [Hc Hb].
  destruct (Ascii.eqb_spec c sep) as [->|_]; [done|]. by rewrite IH.
Qed.

Lemma last_split_without (sep : ascii) (s : string) :
  ∃ b, last (split sep s) = Some b ∧ sep ∉ String.list_ascii_of_string b.
Proof.
  induction s as [|c s (b & Hb & Hsep)]; cbn [split].
  - exists ""%string. split; [done|]. cbn. apply not_elem_of_nil.
  - destruct (Ascii.eqb_spec c sep) as [->|Hc].
    + exists b. split; [|done]. pose proof (split_nonempty sep s).
      by destruct (split sep s).
    + destruct (split sep s) as [|h [|h' t]] eqn:Hs; [done|..].
      * injection Hb as ->. exists (String c b). split; [done|].
        cbn. by apply not_elem_of_cons.
      * exists b. by split.
Qed.

Lemma space_width_le (b : bool) (s : string) : space_width b s ≤ 3.
Proof.
  destruct s as [|c [|d [|e s]]]; cbn [space_width];
    repeat match goal with |- context [if ?x then _ else _] => destruct x end; lia.
Qed.

Lemma space_width_1 (b : bool) (c : ascii) (s : string) :
  space_width b (String c s) = 1 ↔ is_space c = true.
Proof.
  destruct s as [|d [|e s]]; cbn [space_width];
    destruct (is_space c); split; try done;
    repeat match goal with |- context [if ?x then _ else _] => destruct x end; done.
Qed.

(** The white space of two and of three bytes needs as many bytes. *)
Lemma space_width_short (b : bool) (c : ascii) : space_width b (String c "") ≤ 1.
Proof. cbn. destruct (is_space c); lia. Qed.

Lemma space_width_short2 (b : bool) (c d : ascii) :
  space_width b (String c (String d "")) ≤ 2.
Proof.
  cbn [space_width].
  repeat match goal with |- context [if ?x then _ else _] => destruct x end; lia.
Qed.

(** Induction along the characters that [lstrip_from] removes. *)
Lemma lstrip_from_ind (b : bool) (P : string → string → Prop) :
  (∀ s, space_width b s = 0 → P s s) →
  (∀ c s r, space_width b (String c s) = 1 → P s r → P (String c s) r) →
  (∀ c d s r, space_width b (String c (String d s)) = 2 → P s r →
     P (String c (String d s)) r) →
  (∀ c d e s r, space_width b (String c (String d (String e s))) = 3 → P s r →
     P (String c (String d (String e s))) r) →
  ∀ s, P s (lstrip_from b s).
Proof.
  intros H0 H1 H2 H3 s.
  assert (∀ n s, String.length s < n → P s (lstrip_from b s)) as Hind;
    [|apply (Hind (S (String.length s))); lia].
  clear s. induction n as [|n IH]; intros s Hn; [lia|].
  destruct s as [|c s1]; [by apply H0|].
  pose proof (space_width_le b (String c s1)) as Hle.
  unfold lstrip_from; fold lstrip_from.
  destruct (space_width b (String c s1)) as [|[|[|[|k]]]] eqn:W; [..|lia].
  - by apply H0.
  - apply H1; [done|]. apply IH. cbn in Hn. lia.
  - destruct s1 as [|d s2].
    { pose proof (space_width_short b c). lia. }
    apply H2; [done|]. apply IH. cbn in Hn. lia.
  - destruct s1 as [|d [|e s3]].
    { pose proof (space_width_short b c). lia. }
    { pose proof (space_width_short2 b c d). lia. }
    apply H3; [done|]. apply IH. cbn in Hn. lia.
Qed.

Lemma lstrip_from_trimmed (b : bool) (s : string) :
  space_width b (lstrip_from b s) = 0.
Proof. by apply (lstrip_from_ind b (λ _ r, space_width b r = 0)). Qed.

Lemma lstrip_from_id (b : bool) (s : string) :
  space_width b s = 0 → lstrip_from b s = s.
Proof.
  intros W. destruct s as [|c s]; [done|].
  unfold lstrip_from; fold lstrip_from. by rewrite W.
Qed.

Lemma lstrip_from_suffix (b : bool) (s : string) :
  ∃ p, s = (p +:+ lstrip_from b s)%string.
Proof.
  apply (lstrip_from_ind b (λ s r, ∃ p, s = (p +:+ r)%string)).
  - intros t _. by exists ""%string.
  - intros c t r _ [p ->]. by exists (String c p).
  - intros c d t r _ [p ->]. by exists (String c (String d p)).
  - intros c d e t r _ [p ->]. by exists (String c (String d (String e p))).
Qed.

(** The white space at the head of a text is at the head of every text
    that it begins. *)
Lemma space_width_prefix (b : bool) (t u : string) :
  space_width b (t +:+ u) = 0 → space_width b t = 0.
Proof.
  destruct t as [|c [|d [|e t]]]; [done|..];
    rewrite ?string_append_cons, ?string_append_nil_l.
  - destruct u as [|d [|e u]]; cbn [space_width]; destruct (is_space c); try done;
      repeat match goal with |- context [if ?x then _ else _] => destruct x end;
      done.
  - destruct u as [|e u]; cbn [space_width]; destruct (is_space c); try done;
      repeat match goal with |- context [if ?x then _ else _] => destruct x end;
      done.
  - done.
Qed.

Lemma string_rev_app_acc (s t : string) :
  String.rev_app s t = (String.rev_app s "" +:+ t)%string.
Proof.
  revert t. induction s as [|c s IH]; intros t; [done|]. cbn [String.rev_app].
  rewrite IH, (IH (String c "")). by rewrite string_append_assoc.
Qed.

Lemma string_rev_cons (c : ascii) (s : string) :
  String.rev (String c s) = (String.rev s +:+ String c "")%string.
Proof. unfold String.rev. cbn [String.rev_app]. apply string_rev_app_acc. Qed.

Lemma string_rev_app (s t : string) :
  String.rev (s +:+ t) = (String.rev t +:+ String.rev s)%string.
Proof.
  induction s as [|c s IH]; rewrite ?string_append_nil_l, ?string_append_cons.
  - change (String.rev "") with ""%string. by rewrite string_append_nil_r.
  - by rewrite !string_rev_cons, IH, string_append_assoc.
Qed.

Lemma string_rev_involutive (s : string) : String.rev (String.rev s) = s.
Proof.
  induction s as [|c s IH]; [done|]. by rewrite string_rev_cons, string_rev_app, IH.
Qed.

(** What [strip] leaves begins and ends without white space. *)
Lemma strip_trimmed (s : string) :
  trimmed_left (strip s) ∧ trimmed_right (strip s).
Proof.
  unfold trimmed_left, trimmed_right, strip.
  rewrite string_rev_involutive. split; [|apply lstrip_from_trimmed].
  destruct (lstrip_from_suffix true (String.rev (lstrip s))) as [p Hp].
  set (t := lstrip_from true (String.rev (lstrip s))) in *.
  apply (f_equal String.rev) in Hp. rewrite string_rev_involutive, string_rev_app in Hp.
  apply (space_width_prefix false _ (String.rev p)). rewrite <- Hp.
  apply lstrip_from_trimmed.
Qed.

Lemma strip_id (s : string) : trimmed_left s → trimmed_right s → strip s = s.
Proof.
  intros H1 H2. unfold strip, lstrip.
  by rewrite (lstrip_from_id false s), (lstrip_from_id true _ H2), string_rev_involutive.
Qed.

Lemma list_ascii_app (s t : string) :
  String.list_ascii_of_string (s +:+ t) = String.list_ascii_of_string s ++ String.list_ascii_of_string t.
Proof.
  induction s as [|c s IH]; [done|]. rewrite string_append_cons. cbn. by f_equal.
Qed.

Lemma list_ascii_rev (s : string) :
  String.list_ascii_of_string (String.rev s) = reverse (String.list_ascii_of_string s).
Proof.
  induction s as [|c s IH]; [done|].
  rewrite string_rev_cons, list_ascii_app, IH.
  change (String.list_ascii_of_string (String c s))
    with (c :: String.list_ascii_of_string s).
  by rewrite reverse_cons.
Qed.

Lemma lstrip_chars (b : bool) (c : ascii) (s : string) :
  c ∈ String.list_ascii_of_string (lstrip_from b s) →
  c ∈ String.list_ascii_of_string s.
Proof.
  destruct (lstrip_from_suffix b s) as [p Hp]. rewrite Hp at 2.
  rewrite list_ascii_app, elem_of_app. auto.
Qed.

Lemma strip_chars (c : ascii) (s : string) :
  c ∈ String.list_ascii_of_string (strip s) → c ∈ String.list_ascii_of_string s.
Proof.
  unfold strip, lstrip. rewrite list_ascii_rev, elem_of_reverse.
  intros H%lstrip_chars. rewrite list_ascii_rev, elem_of_reverse in H.
  by apply lstrip_chars in H.
Qed.

(** X3. The State of a location text is its part after the last comma
    (the whole text when it has no comma), without the white space at
    its two ends: for every text [b] without a comma and every text [a],
    the State of [a,b] and of [b] is [b] stripped.  White space is what
    Python's [str.strip] removes: the characters 9 to 13, 28 to 31 and
    32, and U+0085, U+00A0, U+1680, U+2000 to U+200A, U+2028, U+2029,
    U+202F, U+205F and U+3000, in the UTF-8 bytes of the text.  For
    every location text the State holds no comma and neither begins nor
    ends with white space, so deriving it again from itself changes
    nothing. *)
Theorem state_of_location_spec :
  (∀ a b : string, ((","%char) ∉ String.list_ascii_of_string b) →
     state_of_location (a +:+ String "," b) = strip b ∧
     state_of_location b = strip b) ∧
  (∀ s : string,
     ((","%char) ∉ String.list_ascii_of_string (state_of_location s)) ∧
     trimmed_left (state_of_location s) ∧
     trimmed_right (state_of_location s) ∧
     state_of_location (state_of_location s) = state_of_location s).
Proof.
  split.
  - intros a b Hb. unfold state_of_location.
    rewrite split_app, (split_without _ b) by done.
    split; [by rewrite last_snoc | done].
  - intros s. unfold state_of_location.
    destruct (last_split_without "," s) as (b & -> & Hb). cbn [default].
    assert ((","%char) ∉ String.list_ascii_of_string (strip b)) as Hs
      by (intros H; by apply Hb, strip_chars).
    destruct (strip_trimmed b) as [H1 H2]. split_and!; try done.
    rewrite split_without by done. cbn [last default]. by apply strip_id.
Qed.

(** The separator 31 and the no-break space U+00A0 (the bytes 194 and
    160) are stripped like the blank. *)
Lemma state_of_location_spec_witness :
  state_of_location "Pune, Maharashtra" = "Maharashtra" ∧
  state_of_location " Goa " = "Goa" ∧
  state_of_location
    ("Panaji, Goa"
     +:+ String.string_of_list_ascii (ascii_of_nat <$> [31; 194; 160]))
  = "Goa".
Proof.
  destruct (proj1 state_of_location_spec "Pune" " Maharashtra") as [H1 _];
    [by_evaluation|].
  destruct (proj1 state_of_location_spec "" " Goa ") as [_ H2]; [by_evaluation|].
  destruct (proj1 state_of_location_spec "Panaji"
              (" Goa" +:+ String.string_of_list_ascii (ascii_of_nat <$> [31; 194; 160])))
    as [H3 _]; [by_evaluation|].
  split_and!; [exact H1 | exact H2 | exact H3].
Defined.

(** ** The State column of the load *)

(** X4. "Create State column safely".  On a transaction table that has
    the location column, the derivation returns without exception and
    shows nothing; it changes the loaded table only: the table gets the
    column State (in place of an older State column, if there was one)
    and keeps its rows and every cell of its other columns.  A
    transaction whose location is a text gets the State of that text; a
    transaction whose location is missing gets the text "nan" as its
    State, not a missing State, because the column is converted to text
    before it is split. *)
Theorem state_extraction_spec (txn_df : nat) (T : DataFrame) (w : world) :
  heap w !! txn_df = Some T → "transaction_location" ∈ columns T →
  ∃ T',
    state_extraction txn_df w
    = (Ok (), mkWorld (<[txn_df := T']> (heap w)) (output w)) ∧
    "State" ∈ columns T' ∧ (∀ c, c ∈ columns T → c ∈ columns T') ∧
    length (rows T') = length (rows T) ∧
    (∀ c, c ≠ "State" → cell c <$> rows T' = cell c <$> rows T) ∧
    (∀ i r, rows T !! i = Some r →
       ∃ st, (cell "State" <$> rows T') !! i = Some st ∧
         (∀ s, cell "transaction_location" r = VStr s →
               st = VStr (state_of_location s)) ∧
         (isna (cell "transaction_location" r) = true → st = VStr "nan")).
Proof.
  intros HT Hc. exists (with_state T).
  destruct (wp_run (state_extraction txn_df)
    (λ _ w', w' = mkWorld (<[txn_df := with_state T]> (heap w)) (output w)) w)
    as ([] & w' & Hrun & ->).
  { unfold state_extraction. apply wp_bind. eapply wp_deref; [done|].
    rewrite bool_decide_eq_true_2 by done.
    apply wp_bind. eapply wp_df_getitem; [done..|].
    eapply wp_df_setitem; [done|]. by rewrite <- !list_fmap_compose. }
  split; [done|]. unfold with_state. split_and!.
  - apply setitem_column_new.
  - intros c. apply setitem_columns.
  - apply len_setitem.
  - intros c Hne. by apply setitem_other_column.
  - intros i r Hr. rewrite setitem_this_column, list_lookup_fmap, Hr.
    eexists. split; [done|]. split.
    + by intros s ->.
    + by destruct (cell "transaction_location" r) as [|[]|].
Qed.

Lemma state_extraction_spec_witness :
  ∃ T',
    state_extraction 1 (initial sample_loans sample_txns)
    = (Ok (), mkWorld (<[1 := T']> [sample_loans; sample_txns]) []) ∧
    "State" ∈ columns T' ∧ length (rows T') = length (rows sample_txns).
Proof.
  destruct (state_extraction_spec 1 sample_txns (initial sample_loans sample_txns))
    as (T' & Hrun & Hstate & _ & Hlen & _); [reflexivity | by_evaluation |].
  exists T'. split_and!; assumption.
Defined.
(** ** The options of the sidebar filters *)

Lemma unique_covers (w : value) (s : list value) :
  w ∈ s → ∃ u, u ∈ unique s ∧ same_value w u = true.
Proof.
  induction s as [|v s IH]; [by intros ?%elem_of_nil|].
  cbn [unique]. destruct (same_value v w) eqn:Hvw.
  - intros _. exists v. split; [by left|]. by rewrite same_value_sym.
  - intros [->|Hw]%elem_of_cons; [by rewrite same_value_refl in Hvw|].
    destruct (IH Hw) as (u & Hu & Hwu). exists u. split; [|done].
    right. apply list_elem_of_filter. split; [|done].
    destruct (same_value v u) eqn:Hvu; [|done].
    rewrite <- Hvw. symmetry. eapply same_value_trans; [done|].
    by rewrite same_value_sym.
Qed.

Lemma first_index_same (a b : value) (s : list value) :
  same_value a b = true → first_index a s = first_index b s.
Proof.
  intros Hab. induction s as [|w s IH]; [done|]. rewrite !first_index_cons, IH.
  destruct (same_value a w) eqn:Haw, (same_value b w) eqn:Hbw; try done.
  - assert (same_value b w = true); [|congruence].
    eapply same_value_trans; [|done]. by rewrite same_value_sym.
  - assert (same_value a w = true); [|congruence].
    by eapply same_value_trans.
Qed.

Lemma unique_offers (col : list value) : offers (unique col) col.
Proof.
  split_and!.
  - intros v. apply unique_subset.
  - intros v. apply unique_covers.
  - intros a b Hab. split; [by eapply unique_distinct|].
    by apply unique_first_occurrence.
Qed.

(** X5. The sidebar.  For tables that have the five filtered columns
    and the application date, the sidebar returns without exception,
    changes no table, and shows the five filters Loan Type, Employment
    Status, Gender, Device and State, in this order.  Each filter offers
    the distinct cells of its column in the loaded table: every cell of
    the column is offered, nothing else is, nothing is offered twice (a
    missing cell counts as one value), and the options come in the order
    in which they first occur in the table. *)
Theorem sidebar_options_spec (loan_df txn_df : nat) (L T : DataFrame) (w : world) :
  heap w !! loan_df = Some L → heap w !! txn_df = Some T →
  "loan_type" ∈ columns L → "employment_status" ∈ columns L →
  "gender" ∈ columns L → "application_date" ∈ columns L →
  "device_used" ∈ columns T → "State" ∈ columns T →
  ∃ o1 o2 o3 o4 o5,
    sidebar loan_df txn_df w
    = (Ok (), mkWorld (heap w)
                (output w ++ [StMultiselect "Loan Type" o1;
                              StMultiselect "Employment Status" o2;
                              StMultiselect "Gender" o3;
                              StMultiselect "Device" o4;
                              StMultiselect "State" o5])) ∧
    offers o1 (cell "loan_type" <$> rows L) ∧
    offers o2 (cell "employment_status" <$> rows L) ∧
    offers o3 (cell "gender" <$> rows L) ∧
    offers o4 (cell "device_used" <$> rows T) ∧
    offers o5 (cell "State" <$> rows T).
Proof.
  intros HL HT C1 C2 C3 C4 C5 C6.
  destruct (wp_run (sidebar loan_df txn_df)
    (λ _ w', w' = mkWorld (heap w) (output w ++ sidebar_events L T)) w)
    as ([] & w' & Hrun & ->); [by eapply wp_sidebar|].
  eexists _, _, _, _, _. split; [exact Hrun|].
  split_and!; apply unique_offers.
Qed.

Lemma sidebar_options_spec_witness :
  ∃ o1 o2 o3 o4 o5,
    sidebar 2 3 loaded
    = (Ok (), mkWorld (heap loaded)
                (output loaded ++ [StMultiselect "Loan Type" o1;
                                   StMultiselect "Employment Status" o2;
                                   StMultiselect "Gender" o3;
                                   StMultiselect "Device" o4;
                                   StMultiselect "State" o5])) ∧
    offers o5 (cell "State" <$> rows (with_state sample_txns)).
Proof.
  destruct (sidebar_options_spec 2 3 sample_loans (with_state sample_txns) loaded)
    as (o1 & o2 & o3 & o4 & o5 & Hrun & _ & _ & _ & _ & H5);
    [reflexivity | reflexivity | by_evaluation..|].
  exists o1, o2, o3, o4, o5. split; assumption.
Defined.

Lemma selected_unique (s : list value) (v : value) :
  v ∈ s → selected (unique s) v = true.
Proof.
  intros Hv. apply selected_spec. right.
  destruct (unique_covers v s Hv) as (u & Hu & Hvu). by exists u.
Qed.

Lemma filter_ext_elem {A} (P Q : A → Prop) `{!∀ x, Decision (P x)}
    `{!∀ x, Decision (Q x)} (l : list A) :
  (∀ x, x ∈ l → P x ↔ Q x) → filter P l = filter Q l.
Proof.
  induction l as [|x l IH]; [done|]. intros Hl.
  rewrite !filter_cons, IH by (intros y Hy; apply Hl; by right).
  destruct (decide (P x)) as [HP|HP], (decide (Q x)) as [HQ|HQ]; try done.
  - destruct HQ. apply Hl; [by left|done].
  - destruct HP. apply Hl; [by left|done].
Qed.

Lemma selected_all_or_none (sel : list value) (c : string)
    (rs : list (gmap string value)) (r : gmap string value) :
  sel = [] ∨ unique (cell c <$> rs) ⊆ sel → r ∈ rs → selected sel (cell c r) = true.
Proof.
  intros [->|Hsub] Hr; [done|]. apply selected_spec. right.
  destruct (unique_covers (cell c r) (cell c <$> rs)) as (u & Hu & Hvu);
    [apply list_elem_of_fmap; by exists r|].
  exists u. split; [by apply Hsub|done].
Qed.

(** X6. Ticking every value that a sidebar filter offers is the same as
    ticking none.  When each of the five selections is empty or holds
    every value that the sidebar offers for its column (the distinct
    cells of the column in the loaded table), ticked in any order, the
    transaction view is the whole transaction table, and the loan view
    holds exactly the loans whose application date lies in the date
    range. *)
Theorem all_options_is_no_filter (i : inputs) (w : world) (loan_df txn_df : nat)
    (L T : DataFrame) :
  heap w !! loan_df = Some L → heap w !! txn_df = Some T →
  "loan_type" ∈ columns L → "employment_status" ∈ columns L →
  "gender" ∈ columns L → "application_date" ∈ columns L →
  "device_used" ∈ columns T → "State" ∈ columns T →
  let offered (c : string) (d : DataFrame) := unique (cell c <$> rows d) in
  loan_type_filter i = [] ∨ offered "loan_type" L ⊆ loan_type_filter i →
  employment_filter i = [] ∨ offered "employment_status" L ⊆ employment_filter i →
  gender_filter i = [] ∨ offered "gender" L ⊆ gender_filter i →
  device_filter i = [] ∨ offered "device_used" T ⊆ device_filter i →
  state_filter i = [] ∨ offered "State" T ⊆ state_filter i →
  ∃ fl ft w' FL,
    apply_filters i loan_df txn_df w = (Ok (fl, ft), w') ∧
    heap w' !! fl = Some FL ∧ heap w' !! ft = Some T ∧
    columns FL = columns L ∧
    rows FL = filter (λ r, in_range (date_range i) (cell "application_date" r) = true)
                (rows L).
Proof.
  intros HL HT C1 C2 C3 C4 C5 C6 offered S1 S2 S3 S4 S5.
  destruct (wp_run (apply_filters i loan_df txn_df)
    (λ a w', ∃ FL FT,
       heap w' !! a.1 = Some FL ∧ heap w' !! a.2 = Some FT ∧
       columns FL = columns L ∧ columns FT = columns T ∧
       rows FL = filter (λ r, keep_loan i r = true) (rows L) ∧
       rows FT = filter (λ r, keep_txn i r = true) (rows T)) w)
    as ([fl ft] & w' & Hrun & FL & FT & HFL & HFT & CL & CT & RL & RT).
  { eapply wp_apply_filters; [done..|]. intros. by eexists _, _. }
  exists fl, ft, w', FL. cbn [fst snd] in *. split_and!; try done.
  - rewrite HFT. f_equal. apply DataFrame_eq; [done|]. rewrite RT.
    apply filter_all'. apply Forall_forall. intros r Hr. unfold keep_txn.
    by rewrite (selected_all_or_none _ _ (rows T)), (selected_all_or_none _ _ (rows T)).
  - rewrite RL. apply filter_ext_elem. intros r Hr. unfold keep_loan.
    by rewrite !(selected_all_or_none _ _ (rows L)).
Qed.

(** The loan types and the devices of the sample, ticked in the reverse
    of the order in which the sidebar offers them. *)
Lemma all_options_is_no_filter_witness :
  ∃ fl ft w' FL,
    apply_filters
      (mkInputs "Executive Loan Portfolio" [VStr "Car"; VStr "Home"] [] []
         [VStr "Web"; VStr "Mobile"] [] (day 19400, day 19410))
      2 3 loaded
    = (Ok (fl, ft), w') ∧
    heap w' !! fl = Some FL ∧ heap w' !! ft = Some (with_state sample_txns) ∧
    columns FL = columns sample_loans ∧
    rows FL = filter (λ r, in_range (day 19400, day 19410)
                             (cell "application_date" r) = true)
                (rows sample_loans).
Proof.
  apply (all_options_is_no_filter
           (mkInputs "Executive Loan Portfolio" [VStr "Car"; VStr "Home"] [] []
              [VStr "Web"; VStr "Mobile"] [] (day 19400, day 19410))
           loaded 2 3 sample_loans (with_state sample_txns));
    first [ reflexivity | by_evaluation
          | (left; reflexivity) | (right; by_evaluation) ].
Defined.
(** ** The rates of the three pages *)

Lemma rows_where_rows (d : DataFrame) (c : string) (v : value) :
  c ∈ columns d →
  ∃ d', rows_where d c v = Ok d' ∧ columns d' = columns d ∧
        rows d' = filter (λ r, value_eqb (cell c r) v = true) (rows d).
Proof.
  intros Hc. unfold rows_where. rewrite getitem_ok by done.
  eexists. split_and!; [done..|]. cbn [rows getitem_mask].
  unfold eq_scalar. rewrite <- list_fmap_compose. apply select_fmap.
Qed.

Lemma value_eqb_VStr (v : value) (s : string) :
  value_eqb v (VStr s) = true ↔ v = VStr s.
Proof.
  destruct v as [t|x|t]; cbn; [|split; by intros ?..].
  rewrite String.eqb_eq. split; congruence.
Qed.

Lemma mask_mean_fraction64 {A} (p : A → bool) (l : list A) :
  l ≠ [] →
  mask_mean (p <$> l)
  = fraction64 (length (filter (λ a, p a = true) l)) (length l).
Proof.
  intros Hl. destruct l as [|a l]; [done|].
  change (mask_mean (p <$> a :: l))
    with (div64 (of_nat (length (filter (λ b, b = true) (p <$> a :: l))))
            (of_nat (length (p <$> a :: l)))).
  pose proof (filter_length_fmap p (λ b, b) (a :: l)) as Hf. cbn beta in Hf.
  by rewrite <- Hf, length_fmap.
Qed.

Lemma filter_length_le {A} (P : A → Prop) `{!∀ x, Decision (P x)} (l : list A) :
  length (filter P l) ≤ length l.
Proof. apply length_filter. Qed.

(** A percentage of a part of a whole, as the pages compute it. *)
Lemma percentage_value (n total : nat) :
  n ≤ total →
  ∃ x, mul64 (fraction64 n total) (of_Z 100) = Fin x ∧ (0 <= x <= 100)%Q
       ∧ (Qabs (x - fraction n total * 100) <= 1 # 1000000000000)%Q
       ∧ (n = 0 → (x == 0)%Q)
       ∧ (n = total → total ≠ 0 → (x == 100)%Q).
Proof.
  intros Hle.
  destruct (fraction64_times n total 100 Hle) as (x & Hx & Hb & Ex & Zx & Fx);
    [done|apply round64_100|done|].
  exists x. split_and!; [done|apply Hb|apply Hb| |done..].
  change (pow2 (-53)) with (1 # 9007199254740992)%Q in *.
  qabs. split; lra.
Qed.

Lemma approval_rate_fraction64 (filtered_loans : DataFrame) :
  "loan_status" ∈ columns filtered_loans →
  approval_rate filtered_loans
  = Ok (mul64 (fraction64
                 (length (filter (λ r, cell "loan_status" r = VStr "Approved")
                            (rows filtered_loans)))
                 (len filtered_loans)) (of_Z 100)).
Proof.
  intros Hc. unfold approval_rate, len.
  destruct (rows filtered_loans) as [|r rs] eqn:Hrows; [by vm_compute|].
  cbn [length Nat.ltb Nat.leb]. rewrite getitem_ok by done.
  cbn [mbind result_bind]. unfold eq_scalar. rewrite <- list_fmap_compose, Hrows.
  rewrite mask_mean_fraction64 by done. do 3 f_equal.
  apply (f_equal length), list_filter_iff. intros a. unfold compose.
  apply value_eqb_VStr.
Qed.

(** X7. "Approval Rate" of the Executive page: the number of loans of
    the view whose status is the text Approved, over the number of loans
    of the view, times 100, and 0 for an empty view, where the guard of
    the script applies.  The quotient and the product are rounded to
    binary64, as numpy and Python compute them: the rate is a number
    between 0 and 100, within 10^-12 of the exact percentage, exactly 0
    when no loan is approved and exactly 100 when every loan is. *)
Theorem approval_rate_spec (filtered_loans : DataFrame) :
  "loan_status" ∈ columns filtered_loans →
  let approved :=
    length (filter (λ r, cell "loan_status" r = VStr "Approved")
              (rows filtered_loans)) in
  ∃ x, approval_rate filtered_loans = Ok (Fin x) ∧
       Fin x = mul64 (fraction64 approved (len filtered_loans)) (of_Z 100) ∧
       (0 <= x <= 100)%Q ∧
       (Qabs (x - fraction approved (len filtered_loans) * 100)
        <= 1 # 1000000000000)%Q ∧
       (approved = 0 → (x == 0)%Q) ∧
       (approved = len filtered_loans → len filtered_loans ≠ 0 → (x == 100)%Q).
Proof.
  intros Hc approved. rewrite approval_rate_fraction64 by done. fold approved.
  destruct (percentage_value approved (len filtered_loans)) as (x & -> & H);
    [apply length_filter|].
  by exists x.
Qed.

Lemma clean_or_flagged (rs : list (gmap string value)) :
  let clean (r : gmap string value) :=
    value_eqb (cell "fraud_flag" r) (VNum (of_Z 0)) in
  Forall (λ r, clean r = true ∨ flagged r = true) rs →
  length (filter (λ r, clean r = true) rs)
  + length (filter (λ r, flagged r = true) rs) = length rs.
Proof.
  intros clean Hflags. induction Hflags as [|r rs Hr _ IH]; [done|].
  rewrite !filter_cons. unfold clean, flagged in *.
  destruct (cell "fraud_flag" r) as [s|[q| | |]|t]; cbn in *;
    try (exfalso; destruct Hr; discriminate).
  destruct (Qeq_bool q (inject_Z 0)) eqn:E0, (Qeq_bool q (inject_Z 1)) eqn:E1.
  - apply Qeq_bool_iff in E0, E1. rewrite E0 in E1. done.
  - rewrite decide_True, decide_False by done. cbn. lia.
  - rewrite decide_False, decide_True by done. cbn. lia.
  - exfalso. destruct Hr; discriminate.
Qed.

Lemma fraction_complement (a b total : nat) :
  a + b = total → total ≠ 0 → (fraction a total == 1 - fraction b total)%Q.
Proof.
  intros Hsum Ht. unfold fraction. destruct total as [|n]; [done|].
  rewrite <- Hsum. rewrite Nat2Z.inj_add, inject_Z_plus.
  assert (¬ (inject_Z (Z.of_nat a) + inject_Z (Z.of_nat b) == 0)%Q) as Hnz.
  { rewrite <- inject_Z_plus, <- Nat2Z.inj_add, Hsum. unfold Qeq. cbn. lia. }
  field. done.
Qed.

(** X8. "Success Rate" of the Behavioral page.  For a view with at least
    one transaction it is the number of transactions whose fraud flag
    equals 0, over the number of transactions, times 100, the quotient
    and the product rounded to binary64: a number between 0 and 100,
    within 10^-12 of the exact percentage; and when every flag of the
    view is 0 or 1 it is within 10^-12 of 100 minus the percentage of
    flagged transactions.  For an empty view the division raises
    ZeroDivisionError. *)
Theorem success_rate_spec (filtered_txns : DataFrame) :
  "fraud_flag" ∈ columns filtered_txns →
  let clean (r : gmap string value) :=
    value_eqb (cell "fraud_flag" r) (VNum (of_Z 0)) in
  let nclean := length (filter (λ r, clean r = true) (rows filtered_txns)) in
  (len filtered_txns = 0 → success_rate filtered_txns = Raise ZeroDivisionError) ∧
  (len filtered_txns ≠ 0 →
   ∃ x, success_rate filtered_txns = Ok (Fin x) ∧
        Fin x = mul64 (fraction64 nclean (len filtered_txns)) (of_Z 100) ∧
        (0 <= x <= 100)%Q ∧
        (Qabs (x - fraction nclean (len filtered_txns) * 100)
         <= 1 # 1000000000000)%Q ∧
        (Forall (λ r, clean r = true ∨ flagged r = true) (rows filtered_txns) →
         (Qabs (x - (100 - fraction (nfraud filtered_txns) (len filtered_txns) * 100))
          <= 1 # 1000000000000)%Q)).
Proof.
  intros Hc clean nclean. split.
  - intros Hlen. apply success_rate_empty; [|done].
    unfold len in Hlen. by destruct (rows filtered_txns).
  - intros Hlen. unfold success_rate.
    destruct (rows_where_rows filtered_txns "fraud_flag" (VNum (of_Z 0)) Hc)
      as (ok & -> & _ & Rok).
    cbn [mbind result_bind]. rewrite py_div_fraction64 by done.
    cbn [mbind result_bind].
    assert (len ok = nclean) as -> by (unfold len; by rewrite Rok).
    destruct (percentage_value nclean (len filtered_txns))
      as (x & -> & Hb & Ex & _); [apply length_filter|].
    exists x. split_and!; [done|done|apply Hb|apply Hb|done|].
    intros Hflags.
    pose proof (fraction_complement nclean (nfraud filtered_txns)
                  (len filtered_txns) (clean_or_flagged _ Hflags) Hlen) as Hcomp.
    qabs. split; lra.
Qed.

(** X9. "Undetected Fraud (%)" and "Risk Density (per 1000)" of the
    Fraud page, computed from the loans of the view whose fraud flag
    equals 1.  The first is the number of flagged loans whose status is
    "Fraudulent - Undetected", over the number of flagged loans, times
    100, and 0 when no loan is flagged.  The second is the number of
    flagged loans over the number of distinct customer identifiers of
    the loan view (missing identifiers not counted), times 1000, and 0
    when there is none.  Quotients and products are rounded to binary64:
    the first is a number between 0 and 100, within 10^-12 of the exact
    percentage; the second is never negative, and when there are no more
    flagged loans than customers it is a number between 0 and 1000,
    within 10^-11 of the exact value. *)
Theorem fraud_kpis_spec (filtered_loans : DataFrame) :
  "fraud_flag" ∈ columns filtered_loans →
  "loan_status" ∈ columns filtered_loans →
  "customer_id" ∈ columns filtered_loans →
  let fraud := filter (λ r, flagged r = true) (rows filtered_loans) in
  let undetected :=
    length (filter (λ r, cell "loan_status" r = VStr "Fraudulent - Undetected")
              fraud) in
  let total_customers := nunique (cell "customer_id" <$> rows filtered_loans) in
  ∃ fraud_loans,
    fraud_rows filtered_loans = Ok fraud_loans ∧ rows fraud_loans = fraud ∧
    (∃ x, undetected_pct fraud_loans = Ok (Fin x) ∧
          Fin x = mul64 (fraction64 undetected (length fraud)) (of_Z 100) ∧
          (0 <= x <= 100)%Q ∧
          (Qabs (x - fraction undetected (length fraud) * 100)
           <= 1 # 1000000000000)%Q) ∧
    (∃ y, risk_density filtered_loans fraud_loans = Ok y ∧
          y = mul64 (fraction64 (length fraud) total_customers) (of_Z 1000) ∧
          fle (Fin 0) y = true ∧
          (length fraud ≤ total_customers →
           ∃ q, y = Fin q ∧ (0 <= q <= 1000)%Q ∧
                (Qabs (q - fraction (length fraud) total_customers * 1000)
                 <= 1 # 100000000000)%Q)).
Proof.
  intros Hf Hs Hc fraud undetected total_customers.
  destruct (len_fraud_rows filtered_loans Hf) as (fraud_loans & Hfr & Cfr & Rfr).
  exists fraud_loans. split_and!; [done|done|..].
  - unfold undetected_pct. rewrite <- Cfr in Hs.
    destruct (rows_where_rows fraud_loans "loan_status" (VStr "Fraudulent - detected") Hs)
      as (d1 & -> & _ & _).
    destruct (rows_where_rows fraud_loans "loan_status" (VStr "Fraudulent - Undetected") Hs)
      as (d2 & -> & _ & R2).
    cbn [mbind result_bind].
    assert (len d2 = undetected) as ->.
    { unfold len, undetected. rewrite R2, Rfr. f_equal. apply list_filter_iff.
      intros r. apply value_eqb_VStr. }
    assert (len fraud_loans = length fraud) as -> by (unfold len; by rewrite Rfr).
    destruct (percentage_value undetected (length fraud))
      as (x & Hx & Hb & Ex & _); [apply length_filter|].
    exists x. rewrite <- Hx. split_and!; [|done|apply Hb|apply Hb|done].
    case_bool_decide as Hz.
    + by rewrite py_div_fraction64 by done.
    + assert (length fraud = 0) as Hz' by lia.
      assert (undetected = 0) as ->.
      { unfold undetected. apply length_zero_iff_nil in Hz'. by rewrite Hz'. }
      rewrite Hz'. by vm_compute.
  - unfold risk_density. rewrite getitem_ok by done. cbn [mbind result_bind].
    fold total_customers.
    assert (len fraud_loans = length fraud) as -> by (unfold len; by rewrite Rfr).
    eexists. split_and!.
    + case_bool_decide as Hz.
      * rewrite py_div_fraction64 by done. reflexivity.
      * assert (total_customers = 0) as -> by lia. by vm_compute.
    + reflexivity.
    + unfold fraction64. destruct total_customers as [|n]; [by vm_compute|].
      rewrite div64_nat by done. set (q := Qred _).
      assert (0 <= q)%Q as Hq.
      { unfold q. rewrite Qred_correct. apply Qle_shift_div_l.
        - unfold Qlt. cbn. lia.
        - unfold Qle. cbn. lia. }
      pose proof (binary64_nonneg q Hq) as Hn.
      destruct (binary64 q) as [a| | |] eqn:Ea; try done.
      apply fle_Fin in Hn. unfold of_Z. rewrite mul64_Fin.
      apply binary64_nonneg. rewrite Qred_correct.
      apply Qmult_le_0_compat; [done|by unfold Qle].
    + intros Hle.
      destruct (fraction64_times (length fraud) total_customers 1000 Hle)
        as (q & Hq & Hb & Eq & _); [done|apply round64_1000|done|].
      exists q. split_and!; [done|apply Hb|apply Hb|].
      change (pow2 (-53)) with (1 # 9007199254740992)%Q in *.
      qabs. split; lra.
Qed.

(** X10. "Total Fraud Rate" is a sum of two percentages, not a percentage
    of a whole: it lies between 0 and 200, and when both views are not
    empty and every loan and every transaction is flagged it is 200. *)
Theorem total_fraud_rate_bounds (filtered_loans filtered_txns : DataFrame) :
  "fraud_flag" ∈ columns filtered_loans → "fraud_flag" ∈ columns filtered_txns →
  ∃ x, total_fraud_rate filtered_loans filtered_txns = Ok (Fin x) ∧
       (0 <= x <= 200)%Q ∧
       (len filtered_loans ≠ 0 → len filtered_txns ≠ 0 →
        nfraud filtered_loans = len filtered_loans →
        nfraud filtered_txns = len filtered_txns → (x == 200)%Q).
Proof.
  intros Hl Ht.
  destruct (total_fraud_rate_value filtered_loans filtered_txns Hl Ht)
    as (x & Hx & Hb & _ & Hfull).
  by exists x.
Qed.

Lemma approval_rate_spec_witness :
  ∃ x, approval_rate sample_loans = Ok (Fin x) ∧ (0 <= x <= 100)%Q ∧
       (Qabs (x - (100 # 3)) <= 1 # 1000000000000)%Q.
Proof.
  destruct (approval_rate_spec sample_loans) as (x & Hx & _ & Hb & Herr & _);
    [by_evaluation|].
  exists x. split_and!; [exact Hx|apply Hb|apply Hb|exact Herr].
Defined.

Lemma success_rate_spec_witness :
  ∃ x, success_rate sample_txns = Ok (Fin x) ∧ (0 <= x <= 100)%Q.
Proof.
  destruct (proj2 (success_rate_spec sample_txns ltac:(by_evaluation)))
    as (x & Hx & _ & Hb & _); [vm_compute; discriminate|].
  exists x. split; assumption.
Defined.

Lemma fraud_kpis_spec_witness :
  ∃ fraud_loans,
    fraud_rows sample_loans = Ok fraud_loans ∧ len fraud_loans = 1 ∧
    (∃ x, undetected_pct fraud_loans = Ok (Fin x) ∧ (0 <= x <= 100)%Q) ∧
    (∃ y, risk_density sample_loans fraud_loans = Ok y ∧ fle (Fin 0) y = true).
Proof.
  destruct (fraud_kpis_spec sample_loans)
    as (fr & Hfr & Rfr & (x & Hx & _ & Hb & _) & (y & Hy & _ & Hp & _));
    [by_evaluation..|].
  exists fr. split_and!; [exact Hfr| |exists x|exists y].
  - unfold len. rewrite Rfr. reflexivity.
  - split; assumption.
  - split; assumption.
Defined.

Lemma total_fraud_rate_bounds_witness :
  ∃ x, total_fraud_rate sample_loans sample_txns = Ok (Fin x) ∧ (0 <= x <= 200)%Q.
Proof.
  destruct (total_fraud_rate_bounds sample_loans sample_txns) as (x & Hx & Hb & _);
    [by_evaluation..|].
  exists x. split; assumption.
Defined.
(** ** The most frequent value *)

Lemma argmax_head {A} (x : A * nat) (l : list (A * nat)) :
  (∀ y, y ∈ l → y.2 ≤ x.2) → argmax x l = x.1.
Proof.
  induction l as [|y l IH]; [done|]. intros Hl. cbn [argmax].
  assert ((x.2 <? y.2) = false) as ->
    by (apply Nat.ltb_ge, Hl; by left).
  apply IH. intros z Hz. apply Hl. by right.
Qed.

Lemma before_head {A} (x y : A) (l : list A) : y ∈ l → before x y (x :: l).
Proof. intros Hy. apply before_cons. by left. Qed.

(** X11. "Highest Transaction Location" and "Top Transaction Type":
    [df[c].value_counts().idxmax()].  When the column has a present
    cell, the result is a present cell of the column that occurs at
    least as often as every other; which one of several values that
    occur equally often it is, is left to pandas' sort of the counts.
    When every cell of the column is missing, or the view has no row,
    the call raises ValueError. *)
Theorem top_value_spec (df : DataFrame) (c : string) :
  c ∈ columns df →
  let s := dropna (cell c <$> rows df) in
  (s = [] →
   top_value df c = Raise (ValueError "attempt to get argmax of an empty sequence")) ∧
  (s ≠ [] →
   ∃ v, top_value df c = Ok v ∧ v ∈ s ∧
        ∀ w, w ∈ s → count_of w s ≤ count_of v s).
Proof.
  intros Hc s. unfold top_value. rewrite getitem_ok by done.
  cbn [mbind result_bind]. unfold value_counts, tally. fold s. split.
  - by intros ->.
  - intros Hs.
    set (t := (λ k, (k, count_of k s)) <$> unique s).
    destruct (sort_desc t) as [|x l] eqn:Hsort.
    { exfalso. assert (t ≡ₚ []) as Ht by (by rewrite <- Hsort, sort_desc_perm).
      apply Permutation_nil_r in Ht. unfold t in Ht. apply fmap_nil_inv in Ht.
      destruct s as [|v0 s']; [done|]. discriminate. }
    cbn [idxmax].
    assert (∀ y, y ∈ l → y.2 ≤ x.2) as Hmax.
    { intros y Hy. apply (sort_desc_sorted x y t). rewrite Hsort.
      by apply before_head. }
    rewrite argmax_head by done.
    assert (x ∈ t) as Hx by (rewrite <- (sort_desc_perm t), Hsort; by left).
    apply list_elem_of_fmap in Hx as (v & -> & Hv). cbn [fst snd] in *.
    exists v. split; [done|]. split; [by apply unique_subset|].
    intros w Hw. destruct (unique_covers w s Hw) as (u & Hu & Hwu).
    rewrite (count_of_same w u) by done.
    assert ((u, count_of u s) ∈ (v, count_of v s) :: l) as Hin.
    { rewrite <- Hsort, sort_desc_perm. unfold t. apply list_elem_of_fmap.
      by exists u. }
    apply elem_of_cons in Hin as [[= -> _]|Hin]; [done|].
    by apply (Hmax _ Hin).
Qed.

Lemma top_value_spec_witness :
  ∃ v, top_value sample_txns "transaction_location" = Ok v ∧
       v ∈ dropna (cell "transaction_location" <$> rows sample_txns).
Proof.
  destruct (proj2 (top_value_spec sample_txns "transaction_location"
                     ltac:(by_evaluation)))
    as (v & Hv & Hin & _); [vm_compute; discriminate|].
  exists v. split; assumption.
Defined.
(** ** Groups partition the rows *)

Lemma same_key_sym (a b : list value) : same_key a b = same_key b a.
Proof.
  revert b. induction a as [|x a IH]; intros [|y b]; try done.
  cbn. by rewrite same_value_sym, IH.
Qed.

Lemma same_key_trans (a b c : list value) :
  same_key a b = true → same_key b c = true → same_key a c = true.
Proof.
  revert b c. induction a as [|x a IH]; intros [|y b] [|z c]; try done.
  cbn. rewrite !andb_true_iff. intros [H1 H2] [H3 H4].
  split; [by eapply same_value_trans | by eapply IH].
Qed.

Lemma same_value_present (x y : value) :
  same_value x y = true → isna x = isna y.
Proof. destruct x as [|[]|], y as [|[]|]; by cbn. Qed.

Lemma same_key_present (a b : list value) :
  same_key a b = true → key_present a = key_present b.
Proof.
  unfold key_present. revert b. induction a as [|x a IH]; intros [|y b]; try done.
  cbn. rewrite andb_true_iff. intros [H1 H2].
  by rewrite (same_value_present x y), (IH b).
Qed.

(** The number of keys of [m] that equal [k]. *)
Lemma count_keys_filter (k0 : list value) (l m : list (list value)) :
  sum_list ((λ k, length (filter (λ k', same_key k' k = true) m))
              <$> filter (λ k', same_key k0 k' = false) l)
  = sum_list ((λ k, length (filter (λ k', same_key k' k = true)
                              (filter (λ k', same_key k0 k' = false) m))) <$> l).
Proof.
  induction l as [|k l IHl]; [done|].
  rewrite filter_cons. cbn [fmap list_fmap sum_list sum_list_with].
  destruct (same_key k0 k) eqn:Hk.
  - rewrite decide_False by congruence. rewrite IHl.
    assert (length (filter (λ k', same_key k' k = true)
                      (filter (λ k', same_key k0 k' = false) m)) = 0) as ->; [|done].
    rewrite list_filter_filter, filter_none; [done|].
    intros k' [Hk' Hk0]. rewrite (same_key_trans k0 k k') in Hk0; [done..|].
    by rewrite same_key_sym.
  - rewrite decide_True by done. cbn [fmap list_fmap sum_list sum_list_with].
    rewrite IHl. f_equal. rewrite list_filter_filter.
    apply (f_equal length), list_filter_iff. intros k'. split; [|tauto].
    intros Hk'. split; [done|]. apply not_true_iff_false. intros Hk0.
    rewrite (same_key_trans k0 k' k) in Hk; done.
Qed.

Lemma count_keys (s m : list (list value)) :
  sum_list ((λ k, length (filter (λ k', same_key k' k = true) m)) <$> unique_keys s)
  = length (filter (λ k', existsb (λ k, same_key k k') s = true) m).
Proof.
  revert m. induction s as [|k0 s IH]; intros m.
  - cbn. by rewrite filter_none.
  - cbn [unique_keys fmap list_fmap sum_list sum_list_with existsb].
    rewrite count_keys_filter, IH. rewrite list_filter_filter.
    clear IH. unfold id. induction m as [|k' m IHm]; [done|].
    rewrite !filter_cons, (same_key_sym k' k0).
    destruct (same_key k0 k') eqn:Hk;
      destruct (existsb (λ k, same_key k k') s) eqn:Hex; cbn [orb];
      repeat case_decide; cbn [length]; try lia; exfalso; intuition congruence.
Qed.

Lemma group_rows_length (ks : list string) (k : list value)
    (rs : list (gmap string value)) :
  length (group_rows ks k rs)
  = length (filter (λ k', same_key k' k = true) (key_of ks <$> rs)).
Proof.
  unfold group_rows.
  apply (filter_length_fmap (key_of ks) (λ k', same_key k' k)).
Qed.

Lemma group_keys_perm (ks : list string) (rs : list (gmap string value)) :
  group_keys ks rs
  ≡ₚ unique_keys (filter (λ k, key_present k = true) (key_of ks <$> rs)).
Proof.
  unfold group_keys. generalize (unique_keys (filter (λ k, key_present k = true)
                                                (key_of ks <$> rs))).
  intros l. induction l as [|k l IH]; [done|]. cbn [foldr].
  by rewrite insert_key_perm, IH.
Qed.

(** The sizes of the groups add up to the number of rows that have all
    their key cells. *)
Lemma group_sizes_total (ks : list string) (rs : list (gmap string value)) :
  sum_list ((λ k, length (group_rows ks k rs)) <$> group_keys ks rs)
  = length (filter (λ r, key_present (key_of ks r) = true) rs).
Proof.
  rewrite (sum_list_perm _ _ (fmap_Permutation _ _ _ (group_keys_perm ks rs))).
  rewrite (list_fmap_ext (λ k, length (group_rows ks k rs))
             (λ k, length (filter (λ k', same_key k' k = true) (key_of ks <$> rs))))
    by (intros; apply group_rows_length).
  rewrite count_keys.
  rewrite (filter_length_fmap (key_of ks) key_present).
  f_equal. apply filter_ext_elem. intros k' Hin. rewrite existsb_exists. split.
  - intros (k & Hk & Hsame). apply list_elem_of_In, list_elem_of_filter in Hk as [Hp _].
    by rewrite <- (same_key_present k k').
  - intros Hp. exists k'. split; [|apply same_key_refl].
    apply list_elem_of_In, list_elem_of_filter. by split.
Qed.

(** X12. [groupby(keys).size()]: the table of group sizes of a frame that
    has the key columns.  Every size is a count of at least 1, and the
    sizes add up to the number of rows of the frame that have all their
    key cells: each such row is counted in exactly one group and a row
    with a missing key cell in none.  When no key cell is missing the
    sizes add up to the number of rows. *)
Theorem groupby_size_partition (df : DataFrame) (ks : list string) (name : string) :
  Forall (λ k, k ∈ columns df) ks →
  ∃ (g : DataFrame) (counts : list nat),
    groupby_size df ks name = Ok g ∧
    columns g = ks ++ [name] ∧
    cell name <$> rows g = (λ n, VNum (of_nat n)) <$> counts ∧
    Forall (λ n, 1 ≤ n) counts ∧
    sum_list counts
    = length (filter (λ r, key_present (key_of ks r) = true) (rows df)) ∧
    (Forall (λ r, key_present (key_of ks r) = true) (rows df) →
     sum_list counts = len df).
Proof.
  intros Hks. unfold groupby_size.
  assert (require df ks = Ok ()) as ->.
  { unfold require. induction Hks as [|k ks Hk _ IH]; [done|].
    cbn [missing_column]. by rewrite bool_decide_eq_true_2. }
  cbn [mbind result_bind].
  eexists _, ((λ k, length (group_rows ks k (rows df))) <$> group_keys ks (rows df)).
  split_and!; [done|done|..].
  - unfold aggregate. cbn [rows]. rewrite <- !list_fmap_compose.
    apply list_fmap_ext. intros _ k _. unfold compose. by rewrite cell_insert_eq.
  - apply Forall_fmap, Forall_forall. intros k Hk. by apply group_rows_nonempty.
  - apply group_sizes_total.
  - intros Hall. rewrite group_sizes_total. unfold len.
    by rewrite filter_all'.
Qed.

Lemma groupby_size_partition_witness :
  ∃ (g : DataFrame) (counts : list nat),
    groupby_size sample_loans ["employment_status"; "fraud_type"] "count" = Ok g ∧
    cell "count" <$> rows g = (λ n, VNum (of_nat n)) <$> counts ∧
    sum_list counts = 3.
Proof.
  destruct (groupby_size_partition sample_loans ["employment_status"; "fraud_type"] "count")
    as (g & counts & Hg & _ & Hc & _ & _ & Hsum).
  { repeat constructor; by_evaluation. }
  exists g, counts. split_and!; [exact Hg | exact Hc |].
  apply Hsum. repeat constructor.
Defined.
(** ** Shares of the whole amount *)



Lemma require_ok (df : DataFrame) (cs : list string) :
  Forall (λ c, c ∈ columns df) cs → require df cs = Ok ().
Proof.
  intros Hcs. unfold require. induction Hcs as [|c cs Hc _ IH]; [done|].
  cbn [missing_column]. by rewrite bool_decide_eq_true_2.
Qed.






(** ** Shares of the grand total *)













(** ** Shares of the age groups *)






(** ** The pages run to their end *)

Lemma approval_rate_ok (d : DataFrame) :
  "loan_status" ∈ columns d →
  ∃ x, approval_rate d = Ok x ∧ (rows d = [] → x = Fin 0).
Proof.
  intros Hc. unfold approval_rate, len. destruct (rows d) as [|r rs].
  - by exists (Fin 0).
  - cbn [length Nat.ltb Nat.leb]. rewrite getitem_ok by done.
    eexists. split; [done|]. by intros ?.
Qed.

Lemma groupby_sum_ok (df : DataFrame) (ks : list string) (c : string) :
  Forall (λ k, k ∈ columns df) (ks ++ [c]) →
  ∃ g, groupby_sum df ks c = Ok g ∧ columns g = ks ++ [c].
Proof.
  intros Hcs. unfold groupby_sum. rewrite require_ok by done. by eexists.
Qed.

Lemma demand_grouped_ok (d : DataFrame) (total : float64) :
  "loan_type" ∈ columns d → "loan_status" ∈ columns d →
  "loan_amount_requested" ∈ columns d →
  ∃ g, demand_grouped d total = Ok g.
Proof.
  intros C1 C2 C3. unfold demand_grouped.
  destruct (groupby_sum_ok d ["loan_type"; "loan_status"] "loan_amount_requested")
    as (g & -> & Cg); [by repeat constructor|].
  cbn [mbind result_bind]. rewrite getitem_ok by (rewrite Cg; set_solver).
  by eexists.
Qed.

Lemma lookup_store (h : list DataFrame) (l : nat) (d d' : DataFrame) :
  h !! l = Some d → <[l := d']> h !! l = Some d'.
Proof.
  intros Hl. apply list_lookup_insert_eq. by eapply lookup_lt_Some.
Qed.

(** The Executive page on a loan view with the columns it reads: it
    returns, having shown its five metrics and four charts; for a view
    without rows the metrics are those of [Hempty]. *)
Lemma wp_executive_page (fl : nat) (FL : DataFrame) (Q : unit → world → Prop) w :
  heap w !! fl = Some FL →
  Forall (λ c, c ∈ columns FL) loan_schema →
  (∀ w' shown,
     output w' = output w ++ shown →
     event_label <$> shown = executive_labels →
     (rows FL = [] →
      take 5 shown = [StMetric "Total Applications" "0";
                      StMetric "Total Requested" "₹0.00 Cr";
                      StMetric "Avg CIBIL Score" "nan";
                      StMetric "Approval Rate" "0.0%";
                      StMetric "Avg Monthly Income" "₹nan"]) →
     Q () w') →
  wp (executive_page fl) Q (λ _ _, False) w.
Proof.
  intros HFL Hcols HQ. rewrite Forall_forall in Hcols.
  assert (∀ c, c ∈ loan_schema → c ∈ columns FL) as Hc by done.
  unfold executive_page.
  apply wp_bind. eapply wp_deref; [done|].
  apply wp_bind. eapply wp_df_getitem; [done|apply Hc; by_evaluation|].
  apply wp_bind. eapply wp_df_getitem; [done|apply Hc; by_evaluation|].
  destruct (approval_rate_ok FL) as (rate & Hrate & Hrate0); [apply Hc; by_evaluation|].
  apply wp_bind, wp_lift. rewrite Hrate.
  apply wp_bind. eapply wp_df_getitem; [done|apply Hc; by_evaluation|].
  do 5 (apply wp_bind, wp_emit).
  destruct (demand_grouped_ok FL
              (series_sum (cell "loan_amount_requested" <$> rows FL)))
    as (demand & Hdemand); [apply Hc; by_evaluation..|].
  apply wp_bind, wp_lift. rewrite Hdemand.
  apply wp_bind, wp_emit.
  apply wp_bind. eapply wp_df_getitem; [done|apply Hc; by_evaluation|].
  apply wp_bind. eapply wp_df_setitem; [done|].
  set (FL1 := setitem FL "age_group" _).
  assert (∀ o, heap (mkWorld (<[fl := FL1]> (heap w)) o) !! fl = Some FL1) as HFL1
    by (intros o; by eapply lookup_store).
  apply wp_bind. eapply wp_df_getitem; [apply HFL1|apply setitem_column_new|].
  destruct (age_df_rows (cell "age_group" <$> rows FL1) (len FL))
    as (ages & Hages & _).
  apply wp_bind, wp_lift. rewrite Hages.
  apply wp_bind, wp_emit.
  apply wp_bind. eapply wp_df_getitem;
    [apply HFL1|apply setitem_columns, Hc; by_evaluation|].
  apply wp_bind, wp_emit.
  apply wp_bind. eapply wp_deref; [apply HFL1|].
  apply wp_emit. cbn [heap output].
  eapply HQ.
  - cbn [output]. rewrite <- !(assoc_L (++)). cbn [app]. reflexivity.
  - reflexivity.
  - intros Hempty. cbn [take]. rewrite (Hrate0 Hempty). unfold len.
    rewrite Hempty. reflexivity.
Qed.





Lemma groupby_size_ok (df : DataFrame) (ks : list string) (name : string) :
  Forall (λ k, k ∈ columns df) ks →
  ∃ g, groupby_size df ks name = Ok g ∧ columns g = ks ++ [name].
Proof.
  intros Hks. unfold groupby_size. rewrite require_ok by done. by eexists.
Qed.

Lemma pct_within_ok (g : DataFrame) (outer count : string) :
  outer ∈ columns g → count ∈ columns g → ∃ g', pct_within g outer count = Ok g'.
Proof.
  intros Ho Hc. unfold pct_within, groupby_transform.
  rewrite !getitem_ok by done. by eexists.
Qed.

Lemma size_pct_ok (df : DataFrame) (outer inner : string) :
  outer ∈ columns df → inner ∈ columns df → ∃ g, size_pct df outer inner = Ok g.
Proof.
  intros Ho Hi. unfold size_pct.
  destruct (groupby_size_ok df [outer; inner] "count") as (g & -> & Cg);
    [by repeat constructor|].
  cbn [mbind result_bind]. apply pct_within_ok; rewrite Cg; set_solver.
Qed.






Lemma success_rate_ok (d : DataFrame) :
  "fraud_flag" ∈ columns d → rows d ≠ [] → ∃ x, success_rate d = Ok x.
Proof.
  intros Hc Hd. unfold success_rate.
  destruct (rows_where_ok d "fraud_flag" (VNum (of_Z 0)) Hc) as (d' & -> & _).
  cbn [mbind result_bind].
  destruct (py_div_ok (len d') (len d)) as (q & ->); [|by eexists].
  unfold len. by destruct (rows d).
Qed.

Lemma value_counts_nonempty (s : list value) :
  dropna s ≠ [] → value_counts s ≠ [].
Proof.
  intros Hs Hvc. assert (tally s ≡ₚ []) as Ht
    by (rewrite <- Hvc; unfold value_counts; by rewrite sort_desc_perm).
  apply Permutation_nil_r in Ht. unfold tally in Ht. apply fmap_nil_inv in Ht.
  by destruct (dropna s).
Qed.

Lemma top_value_ok (d : DataFrame) (c : string) :
  c ∈ columns d → dropna (cell c <$> rows d) ≠ [] → ∃ v, top_value d c = Ok v.
Proof.
  intros Hc Hs. unfold top_value. rewrite getitem_ok by done.
  cbn [mbind result_bind]. pose proof (value_counts_nonempty _ Hs) as Hvc.
  destruct (value_counts _); [done|]. by eexists.
Qed.

Lemma dropna_text (c : string) (d : DataFrame) :
  column_of is_text c d → rows d ≠ [] → dropna (cell c <$> rows d) ≠ [].
Proof.
  unfold column_of. intros Hd Hne. destruct (rows d) as [|r rs]; [done|].
  apply Forall_cons in Hd as [Hr _]. cbn [fmap list_fmap]. unfold dropna.
  rewrite filter_cons_True; [done|]. by destruct (cell c r) as [|[]|].
Qed.

Lemma pct_of_column_ok (g : DataFrame) (c : string) :
  c ∈ columns g → ∃ g', pct_of_column g c = Ok g'.
Proof.
  intros Hc. unfold pct_of_column. rewrite getitem_ok by done. by eexists.
Qed.

Lemma intl_dom_ok (d : DataFrame) :
  "is_international_transaction" ∈ columns d → "transaction_amount" ∈ columns d →
  ∃ g, intl_dom d = Ok g.
Proof.
  intros C1 C2. unfold intl_dom.
  destruct (groupby_sum_ok d ["is_international_transaction"] "transaction_amount")
    as (g & -> & Cg); [by repeat constructor|].
  cbn [mbind result_bind]. apply pct_of_column_ok. rewrite Cg. set_solver.
Qed.

Lemma velocity_ok (d : DataFrame) :
  "transaction_date" ∈ columns d → "transaction_amount" ∈ columns d →
  ∃ g, velocity d = Ok g.
Proof.
  intros C1 C2. unfold velocity. rewrite getitem_ok by done.
  cbn [mbind result_bind].
  destruct (groupby_sum_ok (setitem d "transaction_date"
                              (dt_day <$> (cell "transaction_date" <$> rows d)))
              ["transaction_date"] "transaction_amount") as (g & -> & Cg).
  { repeat constructor; [apply setitem_column_new | by apply setitem_columns]. }
  cbn [mbind result_bind]. apply pct_of_column_ok. rewrite Cg. set_solver.
Qed.

(** The Behavioral page on a transaction view that has a row, with the
    columns it reads and text in the location and type columns: it
    returns, having shown its six metrics and six charts. *)
Lemma wp_behavioral_page (fl ft : nat) (FL FT : DataFrame)
    (Q : unit → world → Prop) w :
  heap w !! fl = Some FL → heap w !! ft = Some FT → fl ≠ ft →
  Forall (λ c, c ∈ columns FT) txn_schema →
  column_of is_text "transaction_location" FT →
  column_of is_text "transaction_type" FT →
  rows FT ≠ [] →
  (∀ w' shown,
     output w' = output w ++ shown →
     event_label <$> shown = behavioral_labels →
     Q () w') →
  wp (behavioral_page fl ft) Q (λ _ _, False) w.
Proof.
  intros HFL HFT Hne HcT Hloc Htype Hrows HQ. rewrite Forall_forall in HcT.
  assert (∀ c, c ∈ txn_schema → c ∈ columns FT) as Ht by done.
  assert (ft < length (heap w)) as Lft by by eapply lookup_lt_Some.
  unfold behavioral_page.
  apply wp_bind. eapply wp_deref; [done|].
  apply wp_bind. eapply wp_df_getitem; [done|apply Ht; by_evaluation|].
  apply wp_bind. eapply wp_df_getitem; [done|apply Ht; by_evaluation|].
  destruct (success_rate_ok FT) as (rate & ->); [apply Ht; by_evaluation|done|].
  apply wp_bind, wp_lift.
  destruct (top_value_ok FT "transaction_location") as (top_location & ->);
    [apply Ht; by_evaluation|by apply dropna_text|].
  apply wp_bind, wp_lift.
  destruct (top_value_ok FT "transaction_type") as (top_txn_type & ->);
    [apply Ht; by_evaluation|by apply dropna_text|].
  apply wp_bind, wp_lift.
  do 6 (apply wp_bind, wp_emit).
  destruct (groupby_sum_ok FT ["transaction_type"] "transaction_amount")
    as (g1 & -> & _); [repeat constructor; apply Ht; by_evaluation|].
  apply wp_bind, wp_lift. apply wp_bind, wp_emit.
  destruct (size_pct_ok FT "device_used" "fraud_flag") as (g2 & ->);
    [apply Ht; by_evaluation..|].
  apply wp_bind, wp_lift. apply wp_bind, wp_emit.
  destruct (intl_dom_ok FT) as (g3 & ->); [apply Ht; by_evaluation..|].
  apply wp_bind, wp_lift. apply wp_bind, wp_emit.
  apply wp_bind. eapply wp_df_getitem; [done|apply Ht; by_evaluation|].
  apply wp_bind. eapply wp_df_setitem; [done|].
  set (FT1 := setitem FT "transaction_date" _).
  assert (∀ c, c ∈ txn_schema → c ∈ columns FT1) as Ht1
    by (intros c Hc; by apply setitem_columns, Ht).
  apply wp_bind. eapply (wp_deref _ FT1); [cbn [heap]; by eapply lookup_store|].
  destruct (velocity_ok FT1) as (g4 & ->); [apply Ht1; by_evaluation..|].
  apply wp_bind, wp_lift. apply wp_bind, wp_emit.
  destruct (size_pct_ok FT1 "device_used" "fraud_flag") as (g5 & ->);
    [apply Ht1; by_evaluation..|].
  apply wp_bind, wp_lift. apply wp_bind, wp_emit.
  apply wp_bind. eapply (wp_deref _ FL);
    [cbn [heap]; by rewrite list_lookup_insert_ne|].
  apply wp_emit. cbn [heap output].
  eapply HQ.
  - rewrite <- !(assoc_L (++)). cbn [app]. reflexivity.
  - reflexivity.
Qed.
(** ** Whole runs *)

Lemma column_of_with_state (p : value → bool) (c : string) (T : DataFrame) :
  c ≠ "State" → column_of p c T → column_of p c (with_state T).
Proof.
  intros Hne HT. unfold column_of in *.
  apply (Forall_fmap (cell c) (λ v, p v = true)). unfold with_state.
  rewrite setitem_other_column by done. by apply Forall_fmap.
Qed.

Lemma column_of_filter (p : value → bool) (c : string) (d d' : DataFrame)
    (P : gmap string value → Prop) `{!∀ r, Decision (P r)} :
  rows d' = filter P (rows d) → column_of p c d → column_of p c d'.
Proof.
  unfold column_of. intros -> Hd. rewrite Forall_forall in *.
  intros r [_ Hr]%list_elem_of_filter. by apply Hd.
Qed.

(** A run up to the page: the load, the sidebar and the filters return,
    and the page starts with the two views in objects of their own and
    with the sidebar's filters as the only output. *)
Lemma wp_script (i : inputs) (L T : DataFrame) (Q : unit → world → Prop)
    (E : exn → world → Prop) :
  Forall (λ c, c ∈ columns L) loan_schema →
  Forall (λ c, c ∈ columns T) txn_schema →
  (∀ fl ft w' FL FT,
     heap w' !! fl = Some FL → heap w' !! ft = Some FT → fl ≠ ft →
     columns FL = columns L → columns FT = columns (with_state T) →
     rows FL = filter (λ r, keep_loan i r = true) (rows L) →
     rows FT = filter (λ r, keep_txn i r = true) (rows (with_state T)) →
     output w' = sidebar_events L (with_state T) →
     wp (if String.eqb (page i) "Executive Loan Portfolio" then
           executive_page fl
         else if String.eqb (page i) "Fraud Intelligence & Risk Mitigation" then
           fraud_page fl ft
         else if String.eqb (page i) "Behavioral Risk Analysis" then
           behavioral_page fl ft
         else mret ()) Q E w') →
  wp (script i 0 1) Q E (initial L T).
Proof.
  intros HcL HcT Hpage. rewrite Forall_forall in HcL, HcT.
  assert (∀ c, c ∈ loan_schema → c ∈ columns L) as Hl by done.
  assert (∀ c, c ∈ txn_schema → c ∈ columns T) as Ht by done.
  unfold script.
  apply wp_bind. eapply (wp_load _ _ L T); [done|done|apply Ht; by_evaluation|].
  cbn [initial heap length output].
  unfold body. apply wp_bind.
  eapply (wp_sidebar _ _ L (with_state T));
    [done|done|apply Hl; by_evaluation..|
     apply setitem_columns, Ht; by_evaluation|apply setitem_column_new|].
  apply wp_bind.
  eapply (wp_apply_filters _ _ _ L (with_state T));
    [done|done|apply Hl; by_evaluation..|
     apply setitem_columns, Ht; by_evaluation|apply setitem_column_new|].
  intros fl ft w' FL FT HFL HFT CL CT RL RT [_ Hout] _ _ Hne.
  by eapply Hpage.
Qed.

Lemma schema_view (schema : list string) (d d' : DataFrame) :
  columns d' = columns d →
  Forall (λ c, c ∈ columns d) schema → Forall (λ c, c ∈ columns d') schema.
Proof. by intros ->. Qed.

Lemma schema_with_state (T : DataFrame) :
  Forall (λ c, c ∈ columns T) txn_schema →
  Forall (λ c, c ∈ columns (with_state T)) txn_schema.
Proof.
  intros HT. eapply Forall_impl; [done|]. intros c Hc. by apply setitem_columns.
Qed.

(** X16. The Executive page never fails.  For a loan table and a
    transaction table with the columns that the script reads, a run of
    the whole script on the page "Executive Loan Portfolio" returns
    without exception for every selection of the filters and every date
    range: after the sidebar's filters it shows the five metrics and the
    four charts of the page, in the order of the script.  When the
    filters keep no loan, the metrics read 0 applications, "₹0.00 Cr"
    requested, an approval rate of "0.0%" (the guarded division) and
    "nan" for the two averages. *)
Theorem executive_run_completes (i : inputs) (L T : DataFrame) :
  page i = "Executive Loan Portfolio" → loans_ok L → txns_ok T →
  ∃ w' shown,
    script i 0 1 (initial L T) = (Ok (), w') ∧
    output w' = sidebar_events L (with_state T) ++ shown ∧
    event_label <$> shown = executive_labels ∧
    (filter (λ r, keep_loan i r = true) (rows L) = [] →
     take 5 shown = [StMetric "Total Applications" "0";
                     StMetric "Total Requested" "₹0.00 Cr";
                     StMetric "Avg CIBIL Score" "nan";
                     StMetric "Approval Rate" "0.0%";
                     StMetric "Avg Monthly Income" "₹nan"]).
Proof.
  intros Hpage [HcL _] [HcT _].
  destruct (wp_run (script i 0 1)
    (λ _ w', ∃ shown,
       output w' = sidebar_events L (with_state T) ++ shown ∧
       event_label <$> shown = executive_labels ∧
       (filter (λ r, keep_loan i r = true) (rows L) = [] →
        take 5 shown = [StMetric "Total Applications" "0";
                        StMetric "Total Requested" "₹0.00 Cr";
                        StMetric "Avg CIBIL Score" "nan";
                        StMetric "Approval Rate" "0.0%";
                        StMetric "Avg Monthly Income" "₹nan"]))
    (initial L T)) as ([] & w' & Hrun & shown & H1 & H2 & H3);
    [|by exists w', shown].
  apply wp_script; [done..|].
  intros fl ft w1 FL FT HFL HFT Hne CL CT RL RT Hout.
  rewrite Hpage. cbn [String.eqb Ascii.eqb Bool.eqb].
  eapply wp_executive_page; [done|by eapply schema_view|].
  intros w2 shown Hshown Hlabels Hempty. exists shown.
  split_and!; [by rewrite Hshown, Hout|done|].
  intros Hnone. apply Hempty. by rewrite RL.
Qed.


(** X18. The Behavioral page fails exactly on an empty transaction
    view.  For tables with the columns that the script reads and text
    in the location and type columns, a run of the whole script on the
    page "Behavioral Risk Analysis" returns without exception when the
    device and State selections keep at least one transaction, and then
    shows the six metrics and the six charts of the page; when they keep
    none, the run raises ZeroDivisionError with the sidebar's filters as
    its only output.  The loan selections and the date range do not
    matter. *)
Theorem behavioral_run_spec (i : inputs) (L T : DataFrame) :
  page i = "Behavioral Risk Analysis" → loans_ok L → txns_ok T →
  let kept := filter (λ r, keep_txn i r = true) (rows (with_state T)) in
  (kept ≠ [] →
   ∃ w' shown,
     script i 0 1 (initial L T) = (Ok (), w') ∧
     output w' = sidebar_events L (with_state T) ++ shown ∧
     event_label <$> shown = behavioral_labels) ∧
  (kept = [] →
   ∃ w',
     script i 0 1 (initial L T) = (Raise ZeroDivisionError, w') ∧
     output w' = sidebar_events L (with_state T)).
Proof.
  intros Hpage [HcL _] (HcT & Htext & _) kept.
  apply Forall_cons in Htext as [Hloc Htype%Forall_cons_1].
  destruct Htype as [Htype _].
  assert (Forall (λ c, c ∈ columns (with_state T)) txn_schema) as HcT'
    by by apply schema_with_state.
  split.
  - intros Hkept.
    destruct (wp_run (script i 0 1)
      (λ _ w', ∃ shown,
         output w' = sidebar_events L (with_state T) ++ shown ∧
         event_label <$> shown = behavioral_labels)
      (initial L T)) as ([] & w' & Hrun & shown & H1 & H2);
      [|by exists w', shown].
    apply wp_script; [done..|].
    intros fl ft w1 FL FT HFL HFT Hne CL CT RL RT Hout.
    rewrite Hpage. cbn [String.eqb Ascii.eqb Bool.eqb].
    eapply wp_behavioral_page; [done|done|done|by eapply schema_view|..].
    + eapply column_of_filter; [done|]. by apply column_of_with_state.
    + eapply column_of_filter; [done|]. by apply column_of_with_state.
    + by rewrite RT.
    + intros w2 shown Hshown Hlabels. exists shown. by rewrite Hshown, Hout.
  - intros Hkept.
    destruct (wp_raises (script i 0 1)
      (λ e w', e = ZeroDivisionError ∧ output w' = sidebar_events L (with_state T))
      (initial L T)) as (e & w' & Hrun & -> & Hout); [|by exists w'].
    apply wp_script; [done..|].
    intros fl ft w1 FL FT HFL HFT Hne CL CT RL RT Hout.
    rewrite Hpage. cbn [String.eqb Ascii.eqb Bool.eqb].
    rewrite Forall_forall in HcT'.
    unfold behavioral_page.
    apply wp_bind. eapply wp_deref; [done|].
    apply wp_bind. eapply wp_df_getitem; [done|rewrite CT; apply HcT'; by_evaluation|].
    apply wp_bind. eapply wp_df_getitem; [done|rewrite CT; apply HcT'; by_evaluation|].
    apply wp_bind. apply wp_lift.
    rewrite success_rate_empty;
      [done|by rewrite RT|rewrite CT; apply HcT'; by_evaluation].
Qed.

Lemma sample_loans_ok : loans_ok sample_loans.
Proof. split; repeat constructor; by_evaluation. Defined.

Lemma sample_txns_ok : txns_ok sample_txns.
Proof. split_and!; repeat constructor; by_evaluation. Defined.

Lemma executive_run_completes_witness :
  ∃ w' shown,
    script home_loans_of_women 0 1 (initial sample_loans sample_txns) = (Ok (), w') ∧
    output w' = sidebar_events sample_loans (with_state sample_txns) ++ shown ∧
    event_label <$> shown = executive_labels.
Proof.
  destruct (executive_run_completes home_loans_of_women sample_loans sample_txns)
    as (w' & shown & H1 & H2 & H3 & _);
    [reflexivity | exact sample_loans_ok | exact sample_txns_ok |].
  exists w', shown. split_and!; assumption.
Defined.


Lemma behavioral_run_spec_witness :
  (∃ w' shown,
     script (no_filters "Behavioral Risk Analysis") 0 1
       (initial sample_loans sample_txns) = (Ok (), w') ∧
     output w' = sidebar_events sample_loans (with_state sample_txns) ++ shown ∧
     event_label <$> shown = behavioral_labels) ∧
  (∃ w',
     script mobile_in_delhi 0 1 (initial sample_loans sample_txns)
     = (Raise ZeroDivisionError, w') ∧
     output w' = sidebar_events sample_loans (with_state sample_txns)).
Proof.
  split.
  - apply (behavioral_run_spec (no_filters "Behavioral Risk Analysis")
             sample_loans sample_txns);
      [reflexivity | exact sample_loans_ok | exact sample_txns_ok |].
    intros Hnone. apply (f_equal length) in Hnone. vm_compute in Hnone.
    discriminate Hnone.
  - apply (behavioral_run_spec mobile_in_delhi sample_loans sample_txns);
      [reflexivity | exact sample_loans_ok | exact sample_txns_ok |].
    vm_compute. reflexivity.
Defined.
(** ** The chart of the top fraudulent states *)





